(** * Verification of [data_modules/spikeplots.py]

    A shallow embedding of the plotting helpers of [spikeplots.py]
    (contrast-response curve, ISI histograms, receptive-field ellipses,
    per-type RF and time-course grids) together with the properties stated
    for them.

    Conventions of the embedding
    - Python floats and numpy [float64] values are IEEE-754 binary64 numbers,
      i.e. Rocq's primitive [float]; arithmetic is [PrimFloat]'s.
    - Cluster IDs are Python integers ([Z]); the STA-fit mapping [d_sta] is a
      dictionary keyed by cluster ID ([gmap Z STAFit]).
    - Dictionaries whose key order is observed ([list(d_IDs.keys())]) are
      association lists in insertion order.
    - An uncaught Python exception is the [Err] case of [result].
    - A matplotlib [Axes] is the ordered log of the drawing calls made on it;
      matplotlib itself is not modelled beyond recording them.
    - numpy reductions add in index order starting from [+0.0]. *)

From Stdlib Require Import ZArith List String PrimFloat Lia Sorted.
From Stdlib Require Import SpecFloat FloatOps FloatAxioms.
From stdpp Require Import base option list gmap strings pretty.

Set Warnings "-register-all,-inexact-float".

Local Open Scope Z_scope.
Local Open Scope string_scope.
Local Open Scope list_scope.

(** ** Python run-time model: exceptions and the error monad *)

Inductive exn : Type :=
| KeyError_id (k : Z)          (* d_sta[n_ID] with n_ID missing *)
| KeyError_str (k : string)    (* d_IDs[str_key] with str_key missing *)
| IndexError                   (* sequence index out of range *)
| TypeError
| ValueError
| AttributeError
| AxisError.

Inductive result (A : Type) : Type :=
| Ok (a : A)
| Err (e : exn).
Arguments Ok {A} a.
Arguments Err {A} e.

Definition result_bind {A B} (f : A → result B) (m : result A) : result B :=
  match m with
  | Ok a => f a
  | Err e => Err e
  end.

#[export] Instance result_ret : MRet result := λ A a, Ok a.
#[export] Instance result_mbind : MBind result := λ A B f m, result_bind f m.

Definition is_Ok {A} (m : result A) : Prop := ∃ a, m = Ok a.
Definition is_Err {A} (m : result A) : Prop := ∃ e, m = Err e.

(** [seq[i]] for a Python list / 1-D array and a non-negative index
    (every index in the source comes from [enumerate]). *)
Definition list_get {A} (l : list A) (i : nat) : result A :=
  match l !! i with
  | Some a => Ok a
  | None => Err IndexError
  end.

(** [d[k]] for a dictionary with string keys, kept in insertion order. *)
Definition dict (V : Type) : Type := list (string * V).

Fixpoint dict_get {V} (d : dict V) (k : string) : result V :=
  match d with
  | [] => Err (KeyError_str k)
  | (k', v) :: d' => if decide (k = k') then Ok v else dict_get d' k
  end.

(** [list(d.keys())] *)
Definition dict_keys {V} (d : dict V) : list string := map fst d.

(** [for x in xs: body] over a state [St], stopping at the first exception. *)
Fixpoint for_each {St A} (body : A → St → result St) (xs : list A) (s : St)
  : result St :=
  match xs with
  | [] => Ok s
  | x :: xs' => s' ← body x s; for_each body xs' s'
  end.

(** [for i, x in enumerate(xs): body], counting from [i]. *)
Fixpoint for_enumerate {St A} (body : nat → A → St → result St)
    (i : nat) (xs : list A) (s : St) : result St :=
  match xs with
  | [] => Ok s
  | x :: xs' => s' ← body i x s; for_enumerate body (S i) xs' s'
  end.

(** [[f(x) for x in xs]] where [f] may raise. *)
Fixpoint list_comp {A B} (f : A → result B) (xs : list A) : result (list B) :=
  match xs with
  | [] => Ok []
  | x :: xs' => y ← f x; ys ← list_comp f xs'; Ok (y :: ys)
  end.

(** ** The process-wide random generator ([np.random])

    The generator is modelled by the sequence of doubles it is going to
    deliver and a cursor into it. *)

Record RandomState : Type := mkRandomState {
  rs_stream : nat → float;
  rs_pos : nat
}.

(** [np.random.rand(n)] *)
Definition np_random_rand (n : nat) (rs : RandomState)
  : list float * RandomState :=
  (map (λ k, rs_stream rs (rs_pos rs + k)%nat) (seq 0 n),
   mkRandomState (rs_stream rs) (rs_pos rs + n)%nat).

(** Code that may consult the generator and may raise. *)
Definition Py (A : Type) : Type := RandomState → result A * RandomState.

Definition py_ret {A} (a : A) : Py A := λ rs, (Ok a, rs).
Definition py_bind {A B} (m : Py A) (f : A → Py B) : Py B :=
  λ rs, match m rs with
        | (Ok a, rs') => f a rs'
        | (Err e, rs') => (Err e, rs')
        end.
Definition py_lift {A} (m : result A) : Py A := λ rs, (m, rs).
Definition py_rand (n : nat) : Py (list float) :=
  λ rs, let '(v, rs') := np_random_rand n rs in (Ok v, rs').

#[export] Instance py_mret : MRet Py := @py_ret.
#[export] Instance py_mbind : MBind Py := λ A B f m, py_bind m f.

(** ** Colours as Python values

    The colour arguments are tested for truthiness, tested with
    [isinstance] and indexed, so the Python value they hold matters. *)

Inductive PyColor : Type :=
| PNone
| PStr (s : string)                 (* 'k', 'C0', ... *)
| PTuple (t : list float)           (* (r, g, b) *)
| PArray (a : list float)           (* numpy array, e.g. np.random.rand(3) *)
| PList (l : list PyColor)          (* one colour per cell *)
| PFloat (x : float).

(** Truth value of a colour, as [if not ell_color] computes it: [None] and
    empty sequences are false; numpy refuses to give a truth value to an
    array that does not hold exactly one element. *)
Definition truthy (c : PyColor) : result bool :=
  match c with
  | PNone => Ok false
  | PStr s => Ok (negb (bool_decide (s = "")))
  | PTuple t => Ok (negb (bool_decide (t = [])))
  | PList l => Ok (negb (bool_decide (length l = 0%nat)))
  | PArray [x] => Ok (negb (x =? 0)%float)
  | PArray _ => Err ValueError
  | PFloat x => Ok (negb (x =? 0)%float)
  end.

(** [c[i]] for a colour used as a sequence of colours. *)
Definition color_get (c : PyColor) (i : nat) : result PyColor :=
  match c with
  | PList l => list_get l i
  | PTuple t => x ← list_get t i; Ok (PFloat x)
  | PArray a => x ← list_get a i; Ok (PFloat x)
  | PStr s =>
      match String.get i s with
      | Some ch => Ok (PStr (String ch EmptyString))
      | None => Err IndexError
      end
  | PNone => Err TypeError
  | PFloat _ => Err IndexError
  end.

(** ** The data container ([spikeoutputs.SpikeOutputs])

    Only the attributes read by [spikeplots.py] are represented. *)

(** [d_sta[n_ID]]: the spike-triggered-average fit of one cluster. *)
Record STAFit : Type := mkSTAFit {
  x0 : float;
  y0 : float;
  SigmaX : float;
  SigmaY : float;
  Theta : float;
  RedTimeCourse : list float;
  BlueTimeCourse : list float
}.

(** [d_crf]: the contrast-response table. [amp_4Hz] is the 2-D array
    [d_crf['4Hz_amp']], one row per entry of [crf_cluster_id], one column
    per contrast of [crf_contrast]. *)
Record CRF : Type := mkCRF {
  crf_contrast : list float;          (* d_crf['unique_params']['contrast'] *)
  crf_cluster_id : list Z;            (* d_crf['cluster_id'] *)
  amp_4Hz_ncols : nat;
  amp_4Hz : list (list float)
}.

Record SpikeOutputs : Type := mkSpikeOutputs {
  NOISE_GRID_SIZE : float;
  d_sta : gmap Z STAFit;
  d_main_IDs : dict (list Z);         (* spikeout.types.d_main_IDs *)
  ls_RGC_labels : list string;
  str_experiment : string;
  str_chunk : string;
  d_crf : CRF;
  pct_refractory : list float;
  bad_isi_idx : list nat;
  good_isi_idx : list nat
}.

(** [c in d_sta.keys()] *)
Definition has_sta (F : gmap Z STAFit) (c : Z) : bool :=
  bool_decide (is_Some (F !! c)).

(** [d_sta[n_ID]] *)
Definition sta_get (F : gmap Z STAFit) (n_ID : Z) : result STAFit :=
  match F !! n_ID with
  | Some fit => Ok fit
  | None => Err (KeyError_id n_ID)
  end.

(** ** matplotlib: patches and axes *)

(** [matplotlib.patches.Ellipse]: its geometry and the style attributes
    that [plot_rfs] sets on it ([None] while still at the default). *)
Record Ellipse : Type := mkEllipse {
  center : float * float;
  width : float;
  height : float;
  angle : float;
  ell_clip_box : bool;                (* set_clip_box(ax.bbox) done *)
  ell_alpha : option float;
  ell_edgecolor : option PyColor;
  ell_facecolor : option PyColor;
  ell_linewidth : option float
}.

(** [Ellipse(xy=..., width=..., height=..., angle=...)] *)
Definition new_Ellipse (xy : float * float) (w h a : float) : Ellipse :=
  mkEllipse xy w h a false None None None None.

(** ** [get_rf_ells] (lines 70-77) *)

Definition rf_ell (d_sta : gmap Z STAFit) (NOISE_GRID_SIZE sd_mult : float)
    (n_ID : Z) : result Ellipse :=
  fx ← sta_get d_sta n_ID;
  fy ← sta_get d_sta n_ID;
  fw ← sta_get d_sta n_ID;
  fh ← sta_get d_sta n_ID;
  fa ← sta_get d_sta n_ID;
  Ok (new_Ellipse (x0 fx * NOISE_GRID_SIZE, y0 fy * NOISE_GRID_SIZE)%float
        (SigmaX fw * 2 * NOISE_GRID_SIZE * sd_mult)%float
        (SigmaY fh * 2 * NOISE_GRID_SIZE * sd_mult)%float
        (Theta fa)).

Definition get_rf_ells (ls_cells : list Z) (d_sta : gmap Z STAFit)
    (NOISE_GRID_SIZE sd_mult : float) : result (list Ellipse) :=
  list_comp (rf_ell d_sta NOISE_GRID_SIZE sd_mult) ls_cells.

(** ** numpy: arrays of doubles and the reductions used by the renderers *)

(** A Python [int] used where a double is expected ([len(...)] as divisor). *)
Fixpoint float_of_nat (n : nat) : float :=
  match n with
  | O => 0%float
  | S n' => (float_of_nat n' + 1)%float
  end.

Inductive ndarray : Type :=
| Scalar (x : float)                           (* numpy.float64, 0-d *)
| Vec (v : list float)                         (* shape (len v,) *)
| Mat (ncols : nat) (rows : list (list float)) (* shape (len rows, ncols) *).

(** [np.array(rows)] for a list of 1-D sequences: an empty list gives the
    empty 1-D array, equally long rows give a 2-D array, ragged rows are
    refused. *)
Definition np_array (rows : list (list float)) : result ndarray :=
  match rows with
  | [] => Ok (Vec [])
  | r :: rs =>
      if forallb (λ r', Nat.eqb (length r') (length r)) rs
      then Ok (Mat (length r) rows)
      else Err ValueError
  end.

(** [np.add.reduce] along a 1-D array, from the additive identity, in index
    order (the order numpy follows for the short arrays summed here: the
    empty array of an empty group and the one or two middle values of a
    median). *)
Definition sum_vec (v : list float) : float :=
  fold_left PrimFloat.add v 0%float.

(** [np.add.reduce(..., axis=0)] of a 2-D array: the rows are accumulated
    one after the other into a row of zeros, so each column is summed from
    its first row to its last. *)
Definition sum_rows (ncols : nat) (rows : list (list float)) : list float :=
  fold_left (zip_with PrimFloat.add) rows (replicate ncols 0%float).

(** [np.mean(a, axis=0)]: sum along the first axis divided by its length. *)
Definition np_mean_axis0 (a : ndarray) : result ndarray :=
  match a with
  | Scalar _ => Err AxisError
  | Vec v => Ok (Scalar (sum_vec v / float_of_nat (length v))%float)
  | Mat c rows =>
      Ok (Vec (map (λ s, (s / float_of_nat (length rows))%float)
                 (sum_rows c rows)))
  end.

(** [np.std(a, axis=0)] with the default [ddof=0]:
    [sqrt(sum((a - mean) * (a - mean)) / n)]. *)
Definition np_std_axis0 (a : ndarray) : result ndarray :=
  match a with
  | Scalar _ => Err AxisError
  | Vec v =>
      let n := float_of_nat (length v) in
      let arrmean := (sum_vec v / n)%float in
      let x := map (λ y, (y - arrmean)%float) v in
      let x := map (λ y, (y * y)%float) x in
      Ok (Scalar (PrimFloat.sqrt (sum_vec x / n)))
  | Mat c rows =>
      let n := float_of_nat (length rows) in
      let arrmean := map (λ s, (s / n)%float) (sum_rows c rows) in
      let x := map (λ r, zip_with PrimFloat.sub r arrmean) rows in
      let x := map (map (λ y, (y * y)%float)) x in
      Ok (Vec (map (λ s, PrimFloat.sqrt (s / n)) (sum_rows c x)))
  end.

(** [a - b] and [a + b] for two arrays of the same shape. *)
Definition nd_zip (f : float → float → float) (a b : ndarray)
  : result ndarray :=
  match a, b with
  | Scalar x, Scalar y => Ok (Scalar (f x y))
  | Vec u, Vec v =>
      if Nat.eqb (length u) (length v) then Ok (Vec (zip_with f u v))
      else Err ValueError
  | Mat c r, Mat c' r' =>
      if Nat.eqb c c' && Nat.eqb (length r) (length r')
      then Ok (Mat c (zip_with (zip_with f) r r'))
      else Err ValueError
  | _, _ => Err ValueError
  end.

(** [len(a)]: a 0-d value has no length. *)
Definition nd_len (a : ndarray) : result nat :=
  match a with
  | Scalar _ => Err TypeError
  | Vec v => Ok (length v)
  | Mat _ rows => Ok (length rows)
  end.

(** [np.min] / [np.max] of a 1-D array: a left-to-right reduction with
    [minimum] / [maximum], which keep a NaN once met; an empty array has no
    minimum. *)
Definition np_minimum (a b : float) : float :=
  if (a <=? b)%float || PrimFloat.is_nan a then a else b.
Definition np_maximum (a b : float) : float :=
  if (b <=? a)%float || PrimFloat.is_nan a then a else b.

Definition np_min (v : list float) : result float :=
  match v with
  | [] => Err ValueError
  | x :: xs => Ok (fold_left np_minimum xs x)
  end.
Definition np_max (v : list float) : result float :=
  match v with
  | [] => Err ValueError
  | x :: xs => Ok (fold_left np_maximum xs x)
  end.

(** ** matplotlib: the axes as a log of drawing calls *)

(** Abscissae handed to [fill_between]: explicit values or [np.arange(n)]. *)
Inductive xdata : Type :=
| XVals (v : list float)
| XArange (n : nat).

Inductive call : Type :=
| Subplots (ncols : nat) (figw figh : Z) (sharex sharey : bool)
    (* created by plt.subplots(ncols=..., figsize=(figw, figh), ...) *)
| FigText (x y : float) (s : string) (fontsize : Z)
    (* f.text(x, y, s, fontsize=...) on the figure of this axes *)
| SetXlim (lo hi : float)
| SetYlim (lo hi : float)
| AddArtist (e : Ellipse)
| Text (x y : float) (s : string)
    (* ax.text(x, y, s, centred, fontsize=8, bold) *)
| SetTitle (s : string)
| SetXlabel (s : string)
| SetYlabel (s : string)
| SetXticks (v : list float)
| SetYticks (v : list float)
| AxHLine (y : float) (c : string) (linewidth : float)
| AxVLine (x : float) (c : string) (linestyle : string)
| Hist (data : list float) (color : PyColor) (alpha : float)
| TickParamsLabelLeft
    (* ax.yaxis.set_tick_params(labelleft=True) *)
| TextAxes (x y : float) (s : string)
    (* ax.text(x, y, s, transform=ax.transAxes, right, top) *)
| Plot (x : option (list float)) (y : ndarray) (marker : option string)
    (c : PyColor) (label : option string) (alpha : option float)
    (linewidth : option float)
| FillBetween (x : xdata) (y1 y2 : ndarray) (color : PyColor) (alpha : float)
| Legend.

Abbreviation Axes := (list call).

(** [f, ax = plt.subplots(figsize=(w, h))] *)
Definition plt_subplots_1 (w h : Z) : Axes := [Subplots 1 w h false false].

(** ** [plot_rfs] (lines 80-126) *)

(** Lines 97-101: a tuple or a string is repeated once per ellipse, anything
    else is taken as the per-ellipse sequence. *)
Definition broadcast_facecolor (facecolor : PyColor) (n : nat) : PyColor :=
  match facecolor with
  | PTuple _ | PStr _ => PList (replicate n facecolor)
  | _ => facecolor
  end.

(** Lines 104-109, the body of the styling loop. The axes keeps a reference
    to the patch, so the artist it holds is the patch as styled. *)
Definition set_style (ell_color : PyColor) (alpha lw : float)
    (facecolor : PyColor) (ell : Ellipse) : Ellipse :=
  mkEllipse (center ell) (width ell) (height ell) (angle ell)
    true (Some alpha) (Some ell_color) (Some facecolor) (Some lw).

Definition style_ell (ell_color : PyColor) (alpha lw : float)
    (ls_facecolors : PyColor) (idx_ell : nat) (ell : Ellipse)
    (st : Axes * list Ellipse) : result (Axes * list Ellipse) :=
  let '(ax, done) := st in
  fc ← color_get ls_facecolors idx_ell;
  let ell' := set_style ell_color alpha lw fc ell in
  Ok (ax ++ [AddArtist ell'], done ++ [ell']).

(** Lines 112-115, the body of the labelling loop. *)
Definition label_ell (ls_cells : list Z) (idx : nat) (ell : Ellipse)
    (ax : Axes) : result Axes :=
  n_ID ← list_get ls_cells idx;
  Ok (ax ++ [Text (fst (center ell)) (snd (center ell)) (pretty n_ID)]).

(** Lines 118-125. *)
Definition zoom_to_ells (b_zoom : bool) (ells : list Ellipse) (ax : Axes)
  : result Axes :=
  if b_zoom && bool_decide (0 < length ells)%nat then
    let x0s := map (λ ell, fst (center ell)) ells in
    let y0s := map (λ ell, snd (center ell)) ells in
    x0_min ← np_min x0s;
    x0_max ← np_max x0s;
    y0_min ← np_min y0s;
    y0_max ← np_max y0s;
    let pad := 400%float in
    Ok (ax ++ [SetXlim (x0_min - pad) (x0_max + pad);
               SetYlim (y0_min - pad) (y0_max + pad)]%float)
  else Ok ax.

(** Lines 95-126: everything after the edge colour has been settled. *)
Definition plot_rfs_draw (d_sta : gmap Z STAFit) (ls_cells : list Z)
    (ell_color : PyColor) (ax : Axes) (sd_mult alpha : float)
    (facecolor : PyColor) (SCALING : float) (b_label b_zoom : bool)
    (lw : float) : result (Axes * list Ellipse) :=
  ells ← get_rf_ells ls_cells d_sta SCALING sd_mult;
  let ls_facecolors := broadcast_facecolor facecolor (length ells) in
  '(ax, ells) ← for_enumerate (style_ell ell_color alpha lw ls_facecolors)
                  0 ells (ax, []);
  ax ← (if b_label then for_enumerate (label_ell ls_cells) 0 ells ax
        else Ok ax);
  ax ← zoom_to_ells b_zoom ells ax;
  Ok (ax, ells).

Definition plot_rfs (spikeout : SpikeOutputs) (ls_cells : list Z)
    (ell_color : PyColor) (ax : option Axes) (sd_mult alpha : float)
    (facecolor : PyColor) (SCALING : option float) (b_label b_zoom : bool)
    (lw : float) : Py (Axes * list Ellipse) :=
  let ax := match ax with
            | None => plt_subplots_1 5 5
            | Some ax => ax
            end in
  let '(SCALING, ax) :=
    match SCALING with
    | None => (NOISE_GRID_SIZE spikeout,
               ax ++ [SetXlim 0 5000; SetYlim 0 5000]%float)
    | Some s => (s, ax)
    end in
  b ← py_lift (truthy ell_color);
  ell_color ← (if b : bool then mret ell_color
               else v ← py_rand 3; mret (PArray v));
  py_lift (plot_rfs_draw (d_sta spikeout) ls_cells ell_color ax sd_mult alpha
             facecolor SCALING b_label b_zoom lw).

(** ** The [axs] argument of the grid renderers

    [axs] is what [plt.subplots] returns or what the caller passes: a single
    [Axes], a 1-D numpy array of them or a Python list of them.
    [np.array([axs])] turns a single [Axes] into a 1-D array and a sequence
    into a 2-D array with one row. *)

Inductive AxsVal : Type :=
| AxsOne (a : Axes)
| AxsArr (l : list Axes)
| AxsList (l : list Axes)
| AxsNested (row : list Axes).

(** [plt.subplots(ncols=n, figsize=(w, h), sharey=True, sharex=True)] *)
Definition plt_subplots (n : nat) (w h : Z) : result AxsVal :=
  match n with
  | O => Err ValueError
  | S O => Ok (AxsOne [Subplots 1 w h true true])
  | _ => Ok (AxsArr (replicate n [Subplots n w h true true]))
  end.

(** [np.array([axs])] *)
Definition np_array_wrap (axs : AxsVal) : AxsVal :=
  match axs with
  | AxsOne a => AxsArr [a]
  | AxsArr l | AxsList l | AxsNested l => AxsNested l
  end.

(** [isinstance(axs, np.ndarray)] *)
Definition is_ndarray (axs : AxsVal) : bool :=
  match axs with
  | AxsArr _ | AxsNested _ => true
  | AxsOne _ | AxsList _ => false
  end.

(** [axs[i]]: an [Axes] (left) or, for a 2-D array, its row (right). *)
Definition axs_item (axs : AxsVal) (i : nat) : result (Axes + list Axes) :=
  match axs with
  | AxsOne _ => Err TypeError
  | AxsArr l | AxsList l => a ← list_get l i; Ok (inl a)
  | AxsNested row => match i with O => Ok (inr row) | S _ => Err IndexError end
  end.

(** The effect on [axs] of the calls made on the object [axs[i]]. *)
Definition axs_update (axs : AxsVal) (i : nat) (a : Axes) : AxsVal :=
  match axs with
  | AxsArr l => AxsArr (<[i:=a]> l)
  | AxsList l => AxsList (<[i:=a]> l)
  | AxsOne _ | AxsNested _ => axs
  end.

(** [for ax in axs: body] where [body] only calls methods of [ax]. *)
Definition axs_for_each (body : Axes → Axes) (axs : AxsVal) : result AxsVal :=
  match axs with
  | AxsOne _ => Err TypeError
  | AxsArr l => Ok (AxsArr (map body l))
  | AxsList l => Ok (AxsList (map body l))
  | AxsNested _ => Err AttributeError
  end.

(** The figure text of the grids is recorded on every axes of the figure. *)
Definition fig_text (s : string) (axs : AxsVal) : AxsVal :=
  let f := λ a : Axes, a ++ [FigText 0.1 0.98 s 12] in
  match axs with
  | AxsOne a => AxsOne (f a)
  | AxsArr l => AxsArr (map f l)
  | AxsList l => AxsList (map f l)
  | AxsNested l => AxsNested (map f l)
  end.

(** [ls_cells = [c for c in ls_cells if c in data.d_sta.keys()]] *)
Definition cells_with_sta (data : SpikeOutputs) (ls_cells : list Z) : list Z :=
  filter (λ c, has_sta (d_sta data) c = true) ls_cells.

(** ** [plot_type_rfs] (lines 128-173) *)

(** [plot_rfs] handed a numpy array as [ax]: [if not ax] has no truth value
    unless the array holds one element, and an array has no [set_xlim]. *)
Definition plot_rfs_on_array {A} (row : list Axes) : Py A :=
  py_lift (if Nat.eqb (length row) 1 then Err AttributeError
           else Err ValueError).

(** Lines 155-164, the body of the loop. *)
Definition type_rfs_panel (data : SpikeOutputs) (d_IDs : dict (list Z))
    (ls_colors ls_facecolors : list PyColor) (ls_RGC_labels : list string)
    (alpha : float) (b_zoom : bool) (sd_mult : float)
    (i : nat) (str_key : string) (axs : AxsVal) : Py AxsVal :=
  ls_cells ← py_lift (dict_get d_IDs str_key);
  ls_label ← py_lift (list_get ls_RGC_labels i);
  let ls_cells := cells_with_sta data ls_cells in
  ax ← py_lift (axs_item axs i);
  ell_color ← py_lift (list_get ls_colors i);
  facecolor ← py_lift (list_get ls_facecolors i);
  match ax with
  | inr row => plot_rfs_on_array row
  | inl ax =>
      '(ax, ells) ← plot_rfs data ls_cells ell_color (Some ax) sd_mult alpha
                      facecolor None false b_zoom 1%float;
      let ax := ax ++ [SetTitle (ls_label +:+ " (n=" +:+
                                 pretty (length ls_cells) +:+ ") RFs")] in
      mret (axs_update axs i ax)
  end.

Fixpoint py_for_enumerate {St A} (body : nat → A → St → Py St)
    (i : nat) (xs : list A) (s : St) : Py St :=
  match xs with
  | [] => mret s
  | x :: xs' => s' ← body i x s; py_for_enumerate body (S i) xs' s'
  end.

(** Lines 167-171. *)
Definition ticks_off (ax : Axes) : Axes :=
  ax ++ [SetXlabel ""; SetYlabel ""; SetXticks []; SetYticks []].

(** Lines 139-146: the axes the panels are drawn on. *)
Definition type_rfs_axes (data : SpikeOutputs) (ncols : nat)
    (axs : option AxsVal) : result AxsVal :=
  axs ← match axs with
        | None =>
            axs ← plt_subplots ncols (Z.of_nat ncols * 3) 3;
            Ok (fig_text (str_experiment data +:+ " " +:+ str_chunk data) axs)
        | Some axs => Ok axs
        end;
  Ok (if Nat.eqb ncols 1 then np_array_wrap axs else axs).

Definition plot_type_rfs (data : SpikeOutputs)
    (ls_RGC_keys : option (list string)) (ls_colors : list PyColor)
    (axs : option AxsVal) (ls_facecolors : option (list PyColor))
    (alpha : float) (b_ticks_off : bool)
    (ls_RGC_labels : option (list string)) (d_IDs : option (dict (list Z)))
    (b_zoom : bool) (sd_mult : float) : Py AxsVal :=
  let d_IDs := default (d_main_IDs data) d_IDs in
  let ls_RGC_keys := default (dict_keys d_IDs) ls_RGC_keys in
  let ncols := length ls_RGC_keys in
  axs ← py_lift (type_rfs_axes data ncols axs);
  let ls_facecolors := default ls_colors ls_facecolors in
  let ls_RGC_labels := default ls_RGC_keys ls_RGC_labels in
  axs ← py_for_enumerate
          (type_rfs_panel data d_IDs ls_colors ls_facecolors ls_RGC_labels
             alpha b_zoom sd_mult) 0 ls_RGC_keys axs;
  if b_ticks_off then py_lift (axs_for_each ticks_off axs) else mret axs.

(** ** [plot_type_tcs] (lines 175-232) *)

(** Lines 210-215 and 217-222: mean and band of one colour channel. *)
Definition tcs_plot_mean (d_sta : gmap Z STAFit)
    (channel : STAFit → list float) (ls_cells : list Z) (ls_colors : list PyColor)
    (k : nat) (alpha lw : float) (ax : Axes) : result Axes :=
  rows ← list_comp (λ n_ID, fit ← sta_get d_sta n_ID; Ok (channel fit))
         ls_cells;
  tcs ← np_array rows;
  mean ← np_mean_axis0 tcs;
  std ← np_std_axis0 tcs;
  c ← list_get ls_colors k;
  let ax := ax ++ [Plot None mean None c None None (Some lw)] in
  n ← nd_len mean;
  lo ← nd_zip PrimFloat.sub mean std;
  hi ← nd_zip PrimFloat.add mean std;
  c ← list_get ls_colors k;
  Ok (ax ++ [FillBetween (XArange n) lo hi c alpha]).

(** Lines 225-227, the body of the per-cell loop. *)
Definition tcs_plot_cell (d_sta : gmap Z STAFit) (ls_colors : list PyColor)
    (alpha lw : float) (n_ID : Z) (ax : Axes) : result Axes :=
  fit ← sta_get d_sta n_ID;
  c ← list_get ls_colors 0;
  let ax := ax ++ [Plot None (Vec (RedTimeCourse fit)) None c None
                     (Some alpha) (Some lw)] in
  fit ← sta_get d_sta n_ID;
  c ← list_get ls_colors 1;
  Ok (ax ++ [Plot None (Vec (BlueTimeCourse fit)) None c None
               (Some alpha) (Some lw)]).

(** Lines 209-227: the traces of one panel, for the cells of [ls_cells]. *)
Definition tcs_draw (d_sta : gmap Z STAFit) (ls_colors : list PyColor)
    (alpha : float) (b_plot_mean : bool) (lw : float) (ls_cells : list Z)
    (ax : Axes) : result Axes :=
  if b_plot_mean then
    ax ← tcs_plot_mean d_sta RedTimeCourse ls_cells ls_colors 0 alpha lw ax;
    tcs_plot_mean d_sta BlueTimeCourse ls_cells ls_colors 1 alpha lw ax
  else
    for_each (tcs_plot_cell d_sta ls_colors alpha lw) ls_cells ax.

(** Lines 201-230, the body of the loop. *)
Definition type_tcs_panel (data : SpikeOutputs) (ls_colors : list PyColor)
    (alpha : float) (b_plot_mean : bool) (ls_RGC_labels : list string)
    (lw : float) (i : nat) (str_key : string) (axs : AxsVal)
  : result AxsVal :=
  ls_cells ← dict_get (d_main_IDs data) str_key;
  str_label ← list_get ls_RGC_labels i;
  ax ← axs_item axs i;
  match ax with
  | inr _ => Err AttributeError
  | inl ax =>
      let ax := ax ++ [AxHLine 0 "k" 1] in
      let ls_cells := cells_with_sta data ls_cells in
      ax ← tcs_draw (d_sta data) ls_colors alpha b_plot_mean lw ls_cells ax;
      Ok (axs_update axs i
            (ax ++ [SetTitle (str_label +:+ " (n=" +:+
                              pretty (length ls_cells) +:+ ") timecourses")]))
  end.

(** Lines 186-192: the axes the panels are drawn on. *)
Definition type_tcs_axes (data : SpikeOutputs) (ls_RGC_keys : list string)
    (axs : option AxsVal) : result AxsVal :=
  axs ← match axs with
        | None =>
            let n := length ls_RGC_keys in
            axs ← plt_subplots n (Z.of_nat n * 3) 3;
            Ok (fig_text (str_experiment data +:+ " " +:+ str_chunk data) axs)
        | Some axs => Ok axs
        end;
  Ok (if is_ndarray axs then axs else np_array_wrap axs).

Definition plot_type_tcs (data : SpikeOutputs)
    (ls_RGC_keys : option (list string)) (axs : option AxsVal)
    (ls_colors : option (list PyColor)) (alpha : float) (b_plot_mean : bool)
    (ls_RGC_labels : option (list string)) (lw : float)
    (d_IDs : option (dict (list Z))) : result AxsVal :=
  let d_IDs := default (d_main_IDs data) d_IDs in
  let ls_RGC_keys := default (dict_keys d_IDs) ls_RGC_keys in
  axs ← type_tcs_axes data ls_RGC_keys axs;
  let ls_colors := default [PStr "C1"; PStr "C0"] ls_colors in
  let ls_RGC_labels := default ls_RGC_keys ls_RGC_labels in
  for_enumerate
    (type_tcs_panel data ls_colors alpha b_plot_mean ls_RGC_labels lw)
    0 ls_RGC_keys axs.

(** ** [plot_type_rfs_and_tcs] (lines 234-238) *)

(** The default of [ls_RGC_keys]. *)
Definition default_RGC_keys : list string :=
  ["OffP"; "OffM"; "OnP"; "OnM"; "SBC"].

Section PlotTypeRfsAndTcs.

(** [sns.color_palette()], the default of [ls_colors] in [plot_type_rfs],
    evaluated once when the module is loaded. *)
Variable sns_color_palette : list PyColor.

(** Both grids are called with [data] and [ls_RGC_keys] only, so with the
    defaults of their other parameters. *)
Definition plot_type_rfs_and_tcs (data : SpikeOutputs)
    (ls_RGC_keys : option (list string)) : Py (AxsVal * AxsVal) :=
  rf_axs ← plot_type_rfs data ls_RGC_keys sns_color_palette None None 0.6
             true None None false 1.3;
  tc_axs ← py_lift (plot_type_tcs data ls_RGC_keys None None 0.6 true None 1
                      None);
  mret (rf_axs, tc_axs).

End PlotTypeRfsAndTcs.

(** ** [plot_crf] (lines 22-46) *)

Section PlotCrf.

(** [celltype_io.map_ids_to_idx(ids, all_ids)] is defined outside
    [spikeplots.py]; the renderer is parametric in it. *)
Variable map_ids_to_idx : list Z → list Z → result (list nat).

(** [amp[type_idx, :]] *)
Definition take_rows (crf : CRF) (type_idx : list nat) : result ndarray :=
  rows ← list_comp (list_get (amp_4Hz crf)) type_idx;
  Ok (Mat (amp_4Hz_ncols crf) rows).

(** Lines 31-39, the body of the loop. *)
Definition crf_type (spikeout : SpikeOutputs) (idx : nat) (str_type : string)
    (ax : Axes) : result Axes :=
  let contrast_vals := crf_contrast (d_crf spikeout) in
  type_ids ← dict_get (d_main_IDs spikeout) str_type;
  type_idx ← map_ids_to_idx type_ids (crf_cluster_id (d_crf spikeout));
  arr_f1_amp ← take_rows (d_crf spikeout) type_idx;
  mean ← np_mean_axis0 arr_f1_amp;
  std ← np_std_axis0 arr_f1_amp;
  let ax := ax ++ [Plot (Some contrast_vals) mean (Some "o")
                     (PStr ("C" +:+ pretty idx)) (Some str_type) None None] in
  lo ← nd_zip PrimFloat.sub mean std;
  hi ← nd_zip PrimFloat.add mean std;
  Ok (ax ++ [FillBetween (XVals contrast_vals) lo hi
               (PStr ("C" +:+ pretty idx)) 0.2]).

Definition plot_crf (spikeout : SpikeOutputs) (ax : option Axes)
    (ls_types : option (list string)) : result Axes :=
  let ls_types := default (ls_RGC_labels spikeout) ls_types in
  let ax := default (plt_subplots_1 5 5) ax in
  let contrast_vals := crf_contrast (d_crf spikeout) in
  ax ← for_enumerate (crf_type spikeout) 0 ls_types ax;
  Ok (ax ++ [SetXlabel "Contrast"; SetXticks contrast_vals;
             SetYlabel "F1 peak-trough amplitude (Hz)"; Legend]).

End PlotCrf.

(** ** [plot_isi_qc] (lines 48-68) *)

(** [np.median] of a 1-D array: the mean of the middle element (or of the
    two middle elements) of the sorted array, and NaN as soon as the array
    holds a NaN. *)
Fixpoint insert_sorted (x : float) (l : list float) : list float :=
  match l with
  | [] => [x]
  | y :: l' => if (x <=? y)%float then x :: l else y :: insert_sorted x l'
  end.

Definition sort_floats (v : list float) : list float :=
  fold_right insert_sorted [] v.

Definition np_median (v : list float) : float :=
  let n := length v in
  let part := sort_floats v in
  let middle := if Nat.even n then firstn 2 (skipn (n / 2 - 1) part)
                else firstn 1 (skipn (n / 2) part) in
  let rout := (sum_vec middle / float_of_nat (length middle))%float in
  if existsb PrimFloat.is_nan v then PrimFloat.nan else rout.

Section PlotIsiQc.

(** [f'{median:.2f}'], the fixed-point rendering of a double. *)
Variable format_2f : float → string.

(** Lines 55-63, the body of the loop. *)
Definition isi_panel (spikeout : SpikeOutputs) (p_idx : nat)
    (c_idx : list nat) (axs : AxsVal) : result AxsVal :=
  ax ← axs_item axs p_idx;
  match ax with
  | inr _ => Err AttributeError
  | inl ax =>
      pct ← list_comp (list_get (pct_refractory spikeout)) c_idx;
      let ax := ax ++ [Hist pct (PStr ("C" +:+ pretty p_idx)) 0.5;
                       SetYlabel "Number of clusters";
                       TickParamsLabelLeft;
                       SetXlabel "Percent of spikes within refractory period."] in
      pct ← list_comp (list_get (pct_refractory spikeout)) c_idx;
      let median := np_median pct in
      Ok (axs_update axs p_idx
            (ax ++ [AxVLine median "k" "--";
                    TextAxes 0.95 0.95
                      ("Median = " +:+ format_2f median +:+ "%")]))
  end.

(** [axs[i].set_title(s)] *)
Definition axs_set_title (axs : AxsVal) (i : nat) (s : string)
  : result AxsVal :=
  ax ← axs_item axs i;
  match ax with
  | inr _ => Err AttributeError
  | inl ax => Ok (axs_update axs i (ax ++ [SetTitle s]))
  end.

Definition plot_isi_qc (spikeout : SpikeOutputs) (axs : option AxsVal)
  : result AxsVal :=
  let axs := default (AxsArr (replicate 2 [Subplots 2 10 5 false true])) axs in
  let bad_idx := bad_isi_idx spikeout in
  let good_idx := good_isi_idx spikeout in
  axs ← for_enumerate (isi_panel spikeout) 0 [bad_idx; good_idx] axs;
  axs ← axs_set_title axs 0
          ("ISI violations n = " +:+ pretty (length bad_idx));
  axs ← axs_set_title axs 1 ("ISI OK n = " +:+ pretty (length good_idx));
  Ok axs.

End PlotIsiQc.

(** Modelled from the spec: [celltype_io.map_ids_to_idx] is not part of
    [spikeplots.py]; the specification says it "maps them to row indices in
    a contrast-response-amplitude matrix", i.e. each ID is sent to its
    position in the table's ID column. *)
Fixpoint index_of (all_ids : list Z) (id : Z) : result nat :=
  match all_ids with
  | [] => Err ValueError
  | x :: xs => if decide (x = id) then Ok O
               else i ← index_of xs id; Ok (S i)
  end.

Definition map_ids_to_idx_spec (ids all_ids : list Z) : result (list nat) :=
  list_comp (index_of all_ids) ids.

(** * Definitions used by the statements *)

(** ** Reference definitions *)

(** The ellipse [get_rf_ells] builds for one fit. *)
Definition ell_of_fit (fit : STAFit) (g m : float) : Ellipse :=
  new_Ellipse (x0 fit * g, y0 fit * g)%float
    (SigmaX fit * 2 * g * m)%float (SigmaY fit * 2 * g * m)%float (Theta fit).

(** The axes [plot_rfs] draws on, after lines 84-90, and the scaling it
    uses. *)
Definition plot_rfs_canvas (ax : option Axes) (SCALING : option float) : Axes :=
  default (plt_subplots_1 5 5) ax ++
  match SCALING with
  | None => [SetXlim 0 5000; SetYlim 0 5000]%float
  | Some _ => []
  end.

Definition plot_rfs_scaling (spikeout : SpikeOutputs) (SCALING : option float)
  : float := default (NOISE_GRID_SIZE spikeout) SCALING.

(** The edge colour [plot_rfs] ends up using and the generator it leaves,
    [b] being the truth value of the edge colour it was given. *)
Definition edge_color (ec : PyColor) (b : bool) (rs : RandomState) : PyColor :=
  if b then ec else PArray (fst (np_random_rand 3 rs)).
Definition rng_after (b : bool) (rs : RandomState) : RandomState :=
  if b then rs else snd (np_random_rand 3 rs).

(** A computation that neither reads nor advances the generator. *)
Definition rng_free {A} (m : Py A) : Prop :=
  ∃ r : result A, ∀ rs : RandomState, m rs = (r, rs).

(** The five renderers, each with the arguments of one invocation, and what
    an invocation hands back. *)
Inductive renderer : Type :=
| call_plot_crf (map_ids_to_idx : list Z → list Z → result (list nat))
    (spikeout : SpikeOutputs) (ax : option Axes)
    (ls_types : option (list string))
| call_plot_isi_qc (format_2f : float → string) (spikeout : SpikeOutputs)
    (axs : option AxsVal)
| call_plot_rfs (spikeout : SpikeOutputs) (ls_cells : list Z)
    (ell_color : PyColor) (ax : option Axes) (sd_mult alpha : float)
    (facecolor : PyColor) (SCALING : option float) (b_label b_zoom : bool)
    (lw : float)
| call_plot_type_rfs (data : SpikeOutputs) (ls_RGC_keys : option (list string))
    (ls_colors : list PyColor) (axs : option AxsVal)
    (ls_facecolors : option (list PyColor)) (alpha : float)
    (b_ticks_off : bool) (ls_RGC_labels : option (list string))
    (d_IDs : option (dict (list Z))) (b_zoom : bool) (sd_mult : float)
| call_plot_type_tcs (data : SpikeOutputs) (ls_RGC_keys : option (list string))
    (axs : option AxsVal) (ls_colors : option (list PyColor)) (alpha : float)
    (b_plot_mean : bool) (ls_RGC_labels : option (list string)) (lw : float)
    (d_IDs : option (dict (list Z))).

Inductive drawn : Type :=
| DrawnAxes (ax : Axes)
| DrawnAxs (axs : AxsVal)
| DrawnRfs (ax : Axes) (ells : list Ellipse).

Definition invoke (r : renderer) : Py drawn :=
  match r with
  | call_plot_crf map_ids_to_idx spikeout ax ls_types =>
      py_lift (ax ← plot_crf map_ids_to_idx spikeout ax ls_types;
               Ok (DrawnAxes ax))
  | call_plot_isi_qc format_2f spikeout axs =>
      py_lift (axs ← plot_isi_qc format_2f spikeout axs; Ok (DrawnAxs axs))
  | call_plot_rfs spikeout ls_cells ell_color ax sd_mult alpha facecolor
      SCALING b_label b_zoom lw =>
      out ← plot_rfs spikeout ls_cells ell_color ax sd_mult alpha facecolor
              SCALING b_label b_zoom lw;
      mret (DrawnRfs (fst out) (snd out))
  | call_plot_type_rfs data ls_RGC_keys ls_colors axs ls_facecolors alpha
      b_ticks_off ls_RGC_labels d_IDs b_zoom sd_mult =>
      axs ← plot_type_rfs data ls_RGC_keys ls_colors axs ls_facecolors alpha
              b_ticks_off ls_RGC_labels d_IDs b_zoom sd_mult;
      mret (DrawnAxs axs)
  | call_plot_type_tcs data ls_RGC_keys axs ls_colors alpha b_plot_mean
      ls_RGC_labels lw d_IDs =>
      py_lift (axs ← plot_type_tcs data ls_RGC_keys axs ls_colors alpha
                       b_plot_mean ls_RGC_labels lw d_IDs;
               Ok (DrawnAxs axs))
  end.

(** No edge colour is left for [plot_rfs] to pick: the colours that reach
    its [ell_color] are not falsy. *)
Definition edge_colors_given (r : renderer) : Prop :=
  match r with
  | call_plot_rfs _ _ ell_color _ _ _ _ _ _ _ _ => truthy ell_color ≠ Ok false
  | call_plot_type_rfs _ _ ls_colors _ _ _ _ _ _ _ _ =>
      Forall (λ c, truthy c ≠ Ok false) ls_colors
  | _ => True
  end.

(** What one iteration of [plot_type_rfs] leaves on its axes: the ellipses
    of the cells of the type that have an STA fit, and a title reporting
    how many they are. *)
Definition rfs_panel_drawn (data : SpikeOutputs) (d_IDs : dict (list Z))
    (ls_colors ls_facecolors : list PyColor) (ls_RGC_labels : list string)
    (alpha : float) (b_zoom : bool) (sd_mult : float)
    (i : nat) (str_key : string) (a a' : Axes) : Prop :=
  ∃ (ls_cells : list Z) (ls_label : string) (ec fc : PyColor) (ax : Axes)
    (ells : list Ellipse) (rs rs' : RandomState),
    dict_get d_IDs str_key = Ok ls_cells ∧
    ls_RGC_labels !! i = Some ls_label ∧
    ls_colors !! i = Some ec ∧
    ls_facecolors !! i = Some fc ∧
    plot_rfs data (cells_with_sta data ls_cells) ec (Some a) sd_mult alpha fc
      None false b_zoom 1 rs = (Ok (ax, ells), rs') ∧
    a' = ax ++ [SetTitle (ls_label +:+ " (n=" +:+
                          pretty (length (cells_with_sta data ls_cells)) +:+
                          ") RFs")].

(** The same for one iteration of [plot_type_tcs]. *)
Definition tcs_panel_drawn (data : SpikeOutputs) (ls_colors : list PyColor)
    (alpha : float) (b_plot_mean : bool) (ls_RGC_labels : list string)
    (lw : float) (i : nat) (str_key : string) (a a' : Axes) : Prop :=
  ∃ (ls_cells : list Z) (str_label : string) (ax : Axes),
    dict_get (d_main_IDs data) str_key = Ok ls_cells ∧
    ls_RGC_labels !! i = Some str_label ∧
    tcs_draw (d_sta data) ls_colors alpha b_plot_mean lw
      (cells_with_sta data ls_cells) (a ++ [AxHLine 0 "k" 1]) = Ok ax ∧
    a' = ax ++ [SetTitle (str_label +:+ " (n=" +:+
                          pretty (length (cells_with_sta data ls_cells)) +:+
                          ") timecourses")].

(** Column [j] of a list of rows, and the textbook mean and population
    standard deviation of a list of numbers. *)
Definition column (j : nat) (rows : list (list float)) : list float :=
  map (λ r, nth j r 0%float) rows.

Definition arith_mean (xs : list float) : float :=
  (sum_vec xs / float_of_nat (length xs))%float.

Definition pop_std (xs : list float) : float :=
  PrimFloat.sqrt
    (arith_mean (map (λ x, ((x - arith_mean xs) * (x - arith_mean xs))%float) xs)).

(** The means and the population standard deviations of the [c] columns. *)
Definition col_means (c : nat) (rows : list (list float)) : list float :=
  map (λ j, arith_mean (column j rows)) (seq 0 c).

Definition col_stds (c : nat) (rows : list (list float)) : list float :=
  map (λ j, pop_std (column j rows)) (seq 0 c).

(** The two calls one channel adds to a time-course panel in mean mode, given
    the waveforms of the cells. *)
Definition mean_band_calls (T : nat) (rows : list (list float)) (c : PyColor)
    (alpha lw : float) : list call :=
  [Plot None (Vec (col_means T rows)) None c None None (Some lw);
   FillBetween (XArange T)
     (Vec (zip_with PrimFloat.sub (col_means T rows) (col_stds T rows)))
     (Vec (zip_with PrimFloat.add (col_means T rows) (col_stds T rows)))
     c alpha].

(** The two calls [plot_crf] makes for one type, given the rows of the
    amplitude matrix that belong to the type. *)
Definition crf_calls (spikeout : SpikeOutputs) (idx : nat) (str_type : string)
    (rows : list (list float)) : list call :=
  let c := amp_4Hz_ncols (d_crf spikeout) in
  let contrast_vals := crf_contrast (d_crf spikeout) in
  [Plot (Some contrast_vals) (Vec (col_means c rows)) (Some "o")
     (PStr ("C" +:+ pretty idx)) (Some str_type) None None;
   FillBetween (XVals contrast_vals)
     (Vec (zip_with PrimFloat.sub (col_means c rows) (col_stds c rows)))
     (Vec (zip_with PrimFloat.add (col_means c rows) (col_stds c rows)))
     (PStr ("C" +:+ pretty idx)) 0.2].

(** The amplitude matrix is a 2-D array: all its rows have [ncols] entries. *)
Definition crf_wf (crf : CRF) : Prop :=
  Forall (λ r, length r = amp_4Hz_ncols crf) (amp_4Hz crf).

(** The labels [plot_rfs] writes with [b_label]: the ID of each cell at the
    centre of its ellipse. *)
Definition cell_labels (ells : list Ellipse) (ls_cells : list Z) : list call :=
  zip_with (λ ell n_ID,
              Text (fst (center ell)) (snd (center ell)) (pretty n_ID))
    ells ls_cells.

(** The calls the auto-zoom of [plot_rfs] makes: none without [b_zoom] or
    without ellipses. *)
Definition zoom_calls (b_zoom : bool) (ells : list Ellipse) : list call :=
  let x0s := map (λ ell, fst (center ell)) ells in
  let y0s := map (λ ell, snd (center ell)) ells in
  match b_zoom, np_min x0s, np_max x0s, np_min y0s, np_max y0s with
  | true, Ok x0_min, Ok x0_max, Ok y0_min, Ok y0_max =>
      [SetXlim (x0_min - 400) (x0_max + 400);
       SetYlim (y0_min - 400) (y0_max + 400)]%float
  | _, _, _, _, _ => []
  end.

(** The two traces the per-cell mode draws for one fit. *)
Definition cell_traces (ls_colors : list PyColor) (alpha lw : float)
    (fit : STAFit) : list call :=
  match ls_colors !! 0%nat, ls_colors !! 1%nat with
  | Some c0, Some c1 =>
      [Plot None (Vec (RedTimeCourse fit)) None c0 None (Some alpha) (Some lw);
       Plot None (Vec (BlueTimeCourse fit)) None c1 None (Some alpha) (Some lw)]
  | _, _ => []
  end.

(** The traces of one time-course panel, [fits] being the fits of the cells
    drawn. In mean mode: for each channel the mean trace and the band of the
    waveforms of [fits], which are at least one and of one common length per
    channel. In per-cell mode: the red and the blue trace of each fit, in
    the order of [fits]. *)
Definition tcs_traces (ls_colors : list PyColor) (alpha : float)
    (b_plot_mean : bool) (lw : float) (fits : list STAFit)
    (traces : list call) : Prop :=
  if b_plot_mean then
    ∃ (c0 c1 : PyColor) (Tr Tb : nat),
      fits ≠ [] ∧
      ls_colors !! 0%nat = Some c0 ∧ ls_colors !! 1%nat = Some c1 ∧
      Forall (λ fit, length (RedTimeCourse fit) = Tr) fits ∧
      Forall (λ fit, length (BlueTimeCourse fit) = Tb) fits ∧
      traces = mean_band_calls Tr (map RedTimeCourse fits) c0 alpha lw ++
               mean_band_calls Tb (map BlueTimeCourse fits) c1 alpha lw
  else
    (fits ≠ [] → (2 ≤ length ls_colors)%nat) ∧
    traces = concat (map (cell_traces ls_colors alpha lw) fits).

(** What the panel of [str_key], the [i]-th key, shows in the grid of
    [plot_type_rfs], [a] being what its axes held before: the default
    limits, then one ellipse for each cell of the type that has a fit, in
    the order of the type's list and with the geometry of that cell's fit,
    then the zoom limits if asked for, then the title with the number of
    these cells. *)
Definition rfs_panel_shows (data : SpikeOutputs) (d_IDs : dict (list Z))
    (ls_RGC_labels : list string) (alpha : float) (b_zoom : bool)
    (sd_mult : float) (i : nat) (str_key : string) (a a' : Axes) : Prop :=
  ∃ (ls_cells : list Z) (ls_label : string) (ells : list Ellipse),
    dict_get d_IDs str_key = Ok ls_cells ∧
    ls_RGC_labels !! i = Some ls_label ∧
    Forall2 (λ id ell, ∃ fit ec fc,
               d_sta data !! id = Some fit ∧
               ell = set_style ec alpha 1 fc
                       (ell_of_fit fit (NOISE_GRID_SIZE data) sd_mult))
      (cells_with_sta data ls_cells) ells ∧
    a' = a ++ [SetXlim 0 5000; SetYlim 0 5000]%float
           ++ map AddArtist ells
           ++ zoom_calls b_zoom ells
           ++ [SetTitle (ls_label +:+ " (n=" +:+
                         pretty (length (cells_with_sta data ls_cells)) +:+
                         ") RFs")].

(** The same for the grid of [plot_type_tcs]: the zero line, then the
    traces of the cells of the type that have a fit, then the title with
    the number of these cells. *)
Definition tcs_panel_shows (data : SpikeOutputs) (ls_colors : list PyColor)
    (alpha : float) (b_plot_mean : bool) (ls_RGC_labels : list string)
    (lw : float) (i : nat) (str_key : string) (a a' : Axes) : Prop :=
  ∃ (ls_cells : list Z) (str_label : string) (fits : list STAFit)
    (traces : list call),
    dict_get (d_main_IDs data) str_key = Ok ls_cells ∧
    ls_RGC_labels !! i = Some str_label ∧
    Forall2 (λ id fit, d_sta data !! id = Some fit)
      (cells_with_sta data ls_cells) fits ∧
    tcs_traces ls_colors alpha b_plot_mean lw fits traces ∧
    a' = a ++ [AxHLine 0 "k" 1] ++ traces
           ++ [SetTitle (str_label +:+ " (n=" +:+
                         pretty (length (cells_with_sta data ls_cells)) +:+
                         ") timecourses")].

(** ** The order of doubles, least and greatest element, median *)

(** A list of doubles holds a NaN. *)
Definition has_nan (xs : list float) : bool := existsb PrimFloat.is_nan xs.

(** [m] is an element of [xs] that no element of [xs] is below (above). *)
Definition least_of (xs : list float) (m : float) : Prop :=
  m ∈ xs ∧ ∀ x, x ∈ xs → (m <=? x)%float = true.
Definition greatest_of (xs : list float) (m : float) : Prop :=
  m ∈ xs ∧ ∀ x, x ∈ xs → (x <=? m)%float = true.

(** The minimum (maximum) of [xs] as numpy defines it: NaN as soon as [xs]
    holds a NaN, a least (greatest) element otherwise. *)
Definition is_min (xs : list float) (m : float) : Prop :=
  if has_nan xs then PrimFloat.is_nan m = true else least_of xs m.
Definition is_max (xs : list float) (m : float) : Prop :=
  if has_nan xs then PrimFloat.is_nan m = true else greatest_of xs m.

(** [ys] is in ascending order: each element is at most every later one. *)
Definition ascending (ys : list float) : Prop :=
  StronglySorted (λ a b, (a <=? b)%float = true) ys.

(** The median of [xs] as numpy defines it: NaN if [xs] holds a NaN or is
    empty; otherwise, [ys] being [xs] rearranged in ascending order, the
    middle element of [ys] when the length is odd and the mean of its two
    middle elements when the length is even. *)
Definition is_median (xs : list float) (m : float) : Prop :=
  if has_nan xs then PrimFloat.is_nan m = true
  else ∃ ys, ys ≡ₚ xs ∧ ascending ys ∧
         match length xs with
         | O => PrimFloat.is_nan m = true
         | S _ =>
             (∀ k, length xs = (2 * k + 1)%nat →
                   ∃ y, ys !! k = Some y ∧ m = arith_mean [y]) ∧
             (∀ k, length xs = (2 * k + 2)%nat →
                   ∃ y1 y2, ys !! k = Some y1 ∧ ys !! S k = Some y2 ∧
                            m = arith_mean [y1; y2])
         end.

(** ** A small recording on which the renderers are run *)

(** Two fitted clusters, 7 and 3, with red waveforms [[1,2,3]] and
    [[3,2,1]]. *)
Definition fit_a : STAFit :=
  mkSTAFit 10 20 2 3 45 [1; 2; 3]%float [0; 1; 0]%float.
Definition fit_b : STAFit :=
  mkSTAFit 30 5 1 4 90 [3; 2; 1]%float [0; 3; 0]%float.

Definition demo_sta : gmap Z STAFit := <[7 := fit_a]> (<[3 := fit_b]> ∅).

(** Amplitudes [[1,2,3],[3,2,1]] at three contrasts for clusters 7 and 3. *)
Definition demo_crf : CRF :=
  mkCRF [0.25; 0.5; 1]%float [7; 3] 3 [[1; 2; 3]; [3; 2; 1]]%float.

(** Type OnP lists cluster 9, which has no fit; the refractory percentages
    [[0,1,2,10,11,12]] split into the violating clusters 3, 4, 5 and the
    others. *)
Definition demo : SpikeOutputs :=
  mkSpikeOutputs 30 demo_sta [("OnP", [7; 9; 3]); ("OffP", [3])]
    ["OnP"; "OffP"] "20240101C" "chunk1" demo_crf
    [0; 1; 2; 10; 11; 12]%float [3; 4; 5]%nat [0; 1; 2]%nat.

(** One type whose two cells are the two rows of the amplitude matrix. *)
Definition crf_demo : SpikeOutputs :=
  mkSpikeOutputs 30 demo_sta [("OnP", [7; 3])] ["OnP"] "20240101C" "chunk1"
    demo_crf [] [] [].

(** Two fitted cells whose red waveforms have different lengths. *)
Definition ragged_sta : gmap Z STAFit :=
  <[1 := mkSTAFit 0 0 1 1 0 [1; 2; 3]%float [0; 0; 0]%float]>
    (<[2 := mkSTAFit 0 0 1 1 0 [1; 2]%float [0; 0; 0]%float]> ∅).

Definition ragged : SpikeOutputs :=
  mkSpikeOutputs 30 ragged_sta [("OnP", [1; 2])] ["OnP"] "20240101C" "chunk1"
    demo_crf [] [] [].

(** Generators: one that always delivers [x], one that delivers 0, 1, 2, ... *)
Definition rs_const (x : float) : RandomState := mkRandomState (λ _, x) 0.
Definition rs_count : RandomState := mkRandomState float_of_nat 0.

(** Two empty axes and a two-colour palette for the grids. *)
Definition two_axes : AxsVal := AxsArr [[]; []].
Definition palette : list PyColor :=
  [PTuple [1; 0; 0]%float; PTuple [0; 0; 1]%float].

(** Read-outs of an outcome: the titles, the number of ellipses and the
    median markers of each axes, and the red channel of the edge colour of
    the first ellipse. *)
Definition titles (axs : result AxsVal) : list string :=
  match axs with
  | Ok (AxsArr l) =>
      concat (map (λ a, omap (λ c, match c with
                                   | SetTitle s => Some s
                                   | _ => None
                                   end) a) l)
  | _ => []
  end.

Definition n_artists (axs : result AxsVal) : list nat :=
  match axs with
  | Ok (AxsArr l) =>
      map (λ a, length (omap (λ c, match c with
                                   | AddArtist e => Some e
                                   | _ => None
                                   end) a)) l
  | _ => []
  end.

Definition medians (axs : result AxsVal) : list float :=
  match axs with
  | Ok (AxsArr l) =>
      concat (map (λ a, omap (λ c, match c with
                                   | AxVLine x _ _ => Some x
                                   | _ => None
                                   end) a) l)
  | _ => []
  end.

Definition first_edge_red (r : result drawn) : option float :=
  match r with
  | Ok (DrawnRfs _ (ell :: _)) =>
      match ell_edgecolor ell with
      | Some (PArray (x :: _)) => Some x
      | _ => None
      end
  | _ => None
  end.

(** * Properties *)

(** ** The error monad *)

Lemma bind_Ok {A B} (a : A) (f : A → result B) : (Ok a ≫= f) = f a.
Proof. reflexivity. Qed.

Lemma bind_Err {A B} (e : exn) (f : A → result B) : (Err e ≫= f) = Err e.
Proof. reflexivity. Qed.

Lemma bind_Ok_inv {A B} (m : result A) (f : A → result B) (b : B) :
  m ≫= f = Ok b → ∃ a, m = Ok a ∧ f a = Ok b.
Proof. destruct m as [a|e]; [eauto | discriminate]. Qed.

Lemma list_get_Some {A} (l : list A) (i : nat) (a : A) :
  l !! i = Some a → list_get l i = Ok a.
Proof. unfold list_get. intros ->. reflexivity. Qed.

Lemma list_get_lt {A} (l : list A) (i : nat) :
  (i < length l)%nat → ∃ a, l !! i = Some a ∧ list_get l i = Ok a.
Proof.
  intros Hi. destruct (lookup_lt_is_Some_2 l i Hi) as [a Ha].
  exists a. split; [assumption | by apply list_get_Some].
Qed.

(** A comprehension whose element function never raises is a [map]. *)
Lemma list_comp_map {A B} (f : A → result B) (g : A → B) (xs : list A) :
  Forall (λ x, f x = Ok (g x)) xs → list_comp f xs = Ok (map g xs).
Proof.
  induction 1 as [|x xs Hx _ IH]; simpl; [reflexivity|].
  rewrite Hx, bind_Ok, IH. reflexivity.
Qed.

Lemma list_comp_length {A B} (f : A → result B) (xs : list A) (ys : list B) :
  list_comp f xs = Ok ys → length ys = length xs.
Proof.
  revert ys. induction xs as [|x xs IH]; simpl; intros ys H.
  - by inversion H.
  - destruct (f x) as [y|]; [|discriminate]. rewrite bind_Ok in H.
    destruct (list_comp f xs) as [ys'|]; [|discriminate].
    inversion H; subst. simpl. f_equal. by apply IH.
Qed.

Lemma list_comp_lookup {A B} (f : A → result B) (xs : list A) (ys : list B)
    (i : nat) (x : A) :
  list_comp f xs = Ok ys → xs !! i = Some x →
  ∃ y, f x = Ok y ∧ ys !! i = Some y.
Proof.
  revert ys i. induction xs as [|x' xs IH]; simpl; intros ys i H Hi.
  - discriminate.
  - destruct (f x') as [y'|] eqn:Hy; [|discriminate]. rewrite bind_Ok in H.
    destruct (list_comp f xs) as [ys'|] eqn:Hys; [|discriminate].
    inversion H; subst. destruct i as [|i]; simpl in *.
    + inversion Hi; subst. eauto.
    + eapply IH; eauto.
Qed.

(** A comprehension raises exactly the exception of the first element on
    which its element function raises. *)
Lemma list_comp_Err {A B} (f : A → result B) (xs : list A) (e : exn) :
  list_comp f xs = Err e ↔
  ∃ pre x post, xs = pre ++ x :: post ∧ f x = Err e ∧
                Forall (λ x', is_Ok (f x')) pre.
Proof.
  split.
  - induction xs as [|x xs IH]; simpl; [discriminate|].
    destruct (f x) as [y|e'] eqn:Hx.
    + rewrite bind_Ok. destruct (list_comp f xs) as [ys|e'']; [discriminate|].
      intros H; inversion H; subst.
      destruct (IH eq_refl) as (pre & x' & post & -> & Hx' & Hpre).
      exists (x :: pre), x', post. repeat split; [assumption|].
      constructor; [by exists y | assumption].
    + intros H; inversion H; subst. exists [], x, xs. by repeat split.
  - intros (pre & x & post & -> & Hx & Hpre).
    induction Hpre as [|x' pre [y Hy] _ IH]; simpl.
    + by rewrite Hx.
    + by rewrite Hy, bind_Ok, IH.
Qed.

(** ** [get_rf_ells] *)

Lemma rf_ell_Some (F : gmap Z STAFit) (g m : float) (id : Z) (fit : STAFit) :
  F !! id = Some fit → rf_ell F g m id = Ok (ell_of_fit fit g m).
Proof. intros H. unfold rf_ell, sta_get. rewrite H. reflexivity. Qed.

Lemma rf_ell_None (F : gmap Z STAFit) (g m : float) (id : Z) :
  F !! id = None → rf_ell F g m id = Err (KeyError_id id).
Proof. intros H. unfold rf_ell, sta_get. rewrite H. reflexivity. Qed.

Lemma rf_ell_Err (F : gmap Z STAFit) (g m : float) (id : Z) (e : exn) :
  rf_ell F g m id = Err e → F !! id = None ∧ e = KeyError_id id.
Proof.
  destruct (F !! id) as [fit|] eqn:H.
  - rewrite (rf_ell_Some _ _ _ _ _ H). discriminate.
  - rewrite (rf_ell_None _ _ _ _ H). intros [= <-]. by split.
Qed.

(** With every ID a key of the mapping, [get_rf_ells] returns one ellipse
    per ID. *)
Lemma get_rf_ells_ok (L : list Z) (F : gmap Z STAFit) (g m : float) :
  Forall (λ id, is_Some (F !! id)) L →
  ∃ ells, get_rf_ells L F g m = Ok ells ∧ length ells = length L.
Proof.
  intros Hkeys. unfold get_rf_ells.
  destruct (list_comp (rf_ell F g m) L) as [ells|e] eqn:Hells.
  - exists ells. split; [reflexivity|]. by eapply list_comp_length.
  - apply list_comp_Err in Hells as (pre & x & post & -> & Hx & _).
    apply rf_ell_Err in Hx as [Hx _].
    rewrite Forall_app, Forall_cons in Hkeys.
    destruct Hkeys as (_ & [fit Hfit] & _). congruence.
Qed.

(** C1. For every list of cluster IDs [L] and STA-fit mapping [F] in which
    every ID of [L] is a key, [get_rf_ells] returns a sequence of the same
    length as [L], in the same order, whose [i]-th ellipse has centre
    [(F[L[i]].x0 * g, F[L[i]].y0 * g)], width [F[L[i]].SigmaX * 2 * g * m],
    height [F[L[i]].SigmaY * 2 * g * m] and angle [F[L[i]].Theta]. *)
Theorem get_rf_ells_geometry (L : list Z) (F : gmap Z STAFit) (g m : float) :
  Forall (λ id, is_Some (F !! id)) L →
  ∃ ells : list Ellipse,
    get_rf_ells L F g m = Ok ells ∧
    length ells = length L ∧
    ∀ (i : nat) (id : Z), L !! i = Some id →
      ∃ (fit : STAFit) (ell : Ellipse),
        F !! id = Some fit ∧ ells !! i = Some ell ∧
        center ell = (x0 fit * g, y0 fit * g)%float ∧
        width ell = (SigmaX fit * 2 * g * m)%float ∧
        height ell = (SigmaY fit * 2 * g * m)%float ∧
        angle ell = Theta fit.
Proof.
  intros Hkeys.
  destruct (get_rf_ells_ok L F g m Hkeys) as (ells & Hells & Hlen).
  exists ells. split; [assumption|]. split; [assumption|].
  intros i id Hi. unfold get_rf_ells in Hells.
  destruct (list_comp_lookup _ _ _ _ _ Hells Hi) as (ell & Hell & Hlk).
  rewrite Forall_lookup in Hkeys. destruct (Hkeys i id Hi) as [fit Hfit].
  rewrite (rf_ell_Some _ _ _ _ _ Hfit) in Hell. inversion Hell; subst.
  exists fit, (ell_of_fit fit g m). by repeat split.
Qed.

(** C7. [get_rf_ells] fails with a key-lookup error if and only if some
    requested cluster ID is absent from the STA-fit mapping (it has no other
    way to fail); when every requested ID is present it succeeds. *)
Theorem get_rf_ells_KeyError_iff (L : list Z) (F : gmap Z STAFit) (g m : float) :
  ((∃ k, get_rf_ells L F g m = Err (KeyError_id k)) ↔
     Exists (λ id, F !! id = None) L) ∧
  (is_Err (get_rf_ells L F g m) ↔ Exists (λ id, F !! id = None) L) ∧
  (is_Ok (get_rf_ells L F g m) ↔ Forall (λ id, is_Some (F !! id)) L).
Proof.
  assert (Herr : ∀ e, get_rf_ells L F g m = Err e →
                      Exists (λ id, F !! id = None) L ∧ ∃ k, e = KeyError_id k).
  { intros e He. apply list_comp_Err in He as (pre & x & post & -> & Hx & _).
    apply rf_ell_Err in Hx as [Hx ->]. split; [|eauto].
    apply Exists_app. right. by constructor. }
  assert (Hmiss : Exists (λ id, F !! id = None) L →
                  ∃ k, get_rf_ells L F g m = Err (KeyError_id k)).
  { intros Hex. destruct (get_rf_ells L F g m) as [ells|e] eqn:Hr.
    - exfalso. apply Exists_exists in Hex as (id & Hin & Hid).
      apply list_elem_of_lookup in Hin as [i Hi].
      destruct (list_comp_lookup _ _ _ _ _ Hr Hi) as (ell & Hell & _).
      rewrite (rf_ell_None _ _ _ _ Hid) in Hell. discriminate.
    - destruct (Herr e eq_refl) as (_ & k & ->). eauto. }
  split; [|split].
  - split; [|exact Hmiss]. intros [k Hk]. by apply (Herr _ Hk).
  - split.
    + intros [e He]. by apply (Herr _ He).
    + intros Hex. destruct (Hmiss Hex) as [k Hk]. by exists (KeyError_id k).
  - split.
    + intros [ells Hells]. apply Forall_forall. intros id Hin.
      destruct (F !! id) as [fit|] eqn:Hid; [by eexists|].
      exfalso. destruct Hmiss as [k Hk]; [|congruence].
      apply Exists_exists. eauto.
    + intros Hall. destruct (get_rf_ells L F g m) as [ells|e] eqn:Hr;
        [by eexists|].
      exfalso. destruct (Herr e eq_refl) as [Hex _].
      apply Exists_exists in Hex as (id & Hin & Hid).
      rewrite Forall_forall in Hall. destruct (Hall id Hin). congruence.
Qed.

(** C1 on clusters 7 and 3 of the small recording. *)
Lemma get_rf_ells_geometry_witness :
  ∃ ells : list Ellipse,
    get_rf_ells [7; 3] demo_sta 30 1.5 = Ok ells ∧
    length ells = length [7; 3] ∧
    ∀ (i : nat) (id : Z), [7; 3] !! i = Some id →
      ∃ (fit : STAFit) (ell : Ellipse),
        demo_sta !! id = Some fit ∧ ells !! i = Some ell ∧
        center ell = (x0 fit * 30, y0 fit * 30)%float ∧
        width ell = (SigmaX fit * 2 * 30 * 1.5)%float ∧
        height ell = (SigmaY fit * 2 * 30 * 1.5)%float ∧
        angle ell = Theta fit.
Proof.
  apply (get_rf_ells_geometry [7; 3] demo_sta 30 1.5).
  repeat constructor; eexists; reflexivity.
Defined.

(** ** The order of doubles

    [<=?] on doubles is specified by [SFleb] on their decoded form: a total
    preorder on the doubles that are not NaN, false as soon as an operand is
    NaN. *)

Lemma SFcompare_refl (a : spec_float) :
  a ≠ S754_nan → SFcompare a a = Some Eq.
Proof.
  destruct a as [s|s| |s m e]; simpl; intros H; try congruence.
  - by destruct s.
  - destruct s; rewrite Z.compare_refl, Pos.compare_cont_refl; reflexivity.
Qed.

Lemma SFleb_trans (a b c : spec_float) :
  SFleb a b = true → SFleb b c = true → SFleb a c = true.
Proof.
  unfold SFleb.
  destruct a as [sa|sa| |sa ma ea], b as [sb|sb| |sb mb eb],
    c as [sc|sc| |sc mc ec]; simpl;
    try discriminate; try reflexivity;
    try (destruct sa, sb, sc; simpl; (discriminate || reflexivity));
    try (destruct sa, sb; simpl; (discriminate || reflexivity));
    try (destruct sb, sc; simpl; (discriminate || reflexivity));
    try (destruct sa, sc; simpl; (discriminate || reflexivity)).
  destruct sa, sb, sc; simpl; try discriminate; try reflexivity;
    rewrite !Pos.compare_cont_spec; simpl;
    destruct (Z.compare_spec ea eb), (Z.compare_spec eb ec),
      (Z.compare_spec ea ec); simpl; try discriminate; try reflexivity;
      try lia; subst;
    destruct (Pos.compare_spec ma mb), (Pos.compare_spec mb mc),
      (Pos.compare_spec ma mc); simpl; try discriminate; try reflexivity;
      try lia.
Qed.

Lemma SFleb_total (a b : spec_float) :
  a ≠ S754_nan → b ≠ S754_nan → SFleb a b = false → SFleb b a = true.
Proof.
  unfold SFleb.
  destruct a as [sa|sa| |sa ma ea], b as [sb|sb| |sb mb eb]; simpl;
    intros Ha Hb; try congruence;
    try (destruct sa, sb; simpl; (discriminate || reflexivity));
    try (destruct sa; simpl; (discriminate || reflexivity));
    try (destruct sb; simpl; (discriminate || reflexivity)).
  destruct sa, sb; simpl; try discriminate; try reflexivity;
    rewrite !Pos.compare_cont_spec; simpl;
    rewrite (Z.compare_antisym ea eb), (Pos.compare_antisym ma mb);
    destruct (Z.compare ea eb); simpl; try discriminate; try reflexivity;
    destruct (Pos.compare ma mb); simpl; try discriminate; reflexivity.
Qed.

Lemma is_nan_false (x : float) :
  PrimFloat.is_nan x = false → Prim2SF x ≠ S754_nan.
Proof.
  unfold PrimFloat.is_nan. rewrite FloatAxioms.eqb_spec. intros H Hn.
  rewrite Hn in H. discriminate.
Qed.

Lemma is_nan_true (x : float) :
  PrimFloat.is_nan x = true → Prim2SF x = S754_nan.
Proof.
  unfold PrimFloat.is_nan. rewrite FloatAxioms.eqb_spec. unfold SFeqb. intros H.
  destruct (Prim2SF x) as [s|s| |s m e] eqn:E; [| |reflexivity|];
    rewrite SFcompare_refl in H; discriminate.
Qed.

Lemma leb_trans (x y z : float) :
  (x <=? y)%float = true → (y <=? z)%float = true → (x <=? z)%float = true.
Proof. rewrite !FloatAxioms.leb_spec. apply SFleb_trans. Qed.

Lemma leb_total (x y : float) :
  PrimFloat.is_nan x = false → PrimFloat.is_nan y = false →
  (x <=? y)%float = false → (y <=? x)%float = true.
Proof.
  intros Hx Hy. rewrite !FloatAxioms.leb_spec.
  apply SFleb_total; by apply is_nan_false.
Qed.

Lemma leb_refl (x : float) :
  PrimFloat.is_nan x = false → (x <=? x)%float = true.
Proof.
  intros Hx. rewrite FloatAxioms.leb_spec. unfold SFleb.
  by rewrite (SFcompare_refl _ (is_nan_false _ Hx)).
Qed.

Lemma leb_nan_l (x y : float) :
  PrimFloat.is_nan x = true → (x <=? y)%float = false.
Proof.
  intros Hx. rewrite FloatAxioms.leb_spec, (is_nan_true _ Hx). reflexivity.
Qed.

Lemma leb_nan_r (x y : float) :
  PrimFloat.is_nan y = true → (x <=? y)%float = false.
Proof.
  intros Hy. rewrite FloatAxioms.leb_spec, (is_nan_true _ Hy). unfold SFleb.
  by destruct (Prim2SF x).
Qed.

(** ** [np.min], [np.max] and [np.median] *)

Lemma has_nan_app (xs ys : list float) :
  has_nan (xs ++ ys) = has_nan xs || has_nan ys.
Proof. apply existsb_app. Qed.

Lemma has_nan_false (xs : list float) (x : float) :
  has_nan xs = false → x ∈ xs → PrimFloat.is_nan x = false.
Proof.
  unfold has_nan. intros H Hx.
  destruct (PrimFloat.is_nan x) eqn:E; [|reflexivity].
  assert (existsb PrimFloat.is_nan xs = true); [|congruence].
  apply existsb_exists. exists x. split; [by apply list_elem_of_In|assumption].
Qed.

Lemma np_minimum_step (seen : list float) (acc b : float) :
  is_min seen acc → is_min (seen ++ [b]) (np_minimum acc b).
Proof.
  unfold is_min, np_minimum. rewrite has_nan_app.
  destruct (has_nan seen) eqn:Hs; simpl.
  - intros H. by rewrite H, orb_true_r.
  - intros [Hin Hle].
    pose proof (has_nan_false _ _ Hs Hin) as Hacc. rewrite Hacc, !orb_false_r.
    destruct (PrimFloat.is_nan b) eqn:Hb.
    + by rewrite (leb_nan_r acc b Hb).
    + destruct (acc <=? b)%float eqn:Hab.
      * split; [set_solver|]. intros x [Hx|Hx]%elem_of_app; [by apply Hle|].
        apply list_elem_of_singleton in Hx as ->. assumption.
      * pose proof (leb_total _ _ Hacc Hb Hab) as Hba.
        split; [set_solver|]. intros x [Hx|Hx]%elem_of_app.
        -- exact (leb_trans _ _ _ Hba (Hle x Hx)).
        -- apply list_elem_of_singleton in Hx as ->. by apply leb_refl.
Qed.

Lemma np_maximum_step (seen : list float) (acc b : float) :
  is_max seen acc → is_max (seen ++ [b]) (np_maximum acc b).
Proof.
  unfold is_max, np_maximum. rewrite has_nan_app.
  destruct (has_nan seen) eqn:Hs; simpl.
  - intros H. by rewrite H, orb_true_r.
  - intros [Hin Hle].
    pose proof (has_nan_false _ _ Hs Hin) as Hacc. rewrite Hacc, !orb_false_r.
    destruct (PrimFloat.is_nan b) eqn:Hb.
    + by rewrite (leb_nan_l b acc Hb).
    + destruct (b <=? acc)%float eqn:Hab.
      * split; [set_solver|]. intros x [Hx|Hx]%elem_of_app; [by apply Hle|].
        apply list_elem_of_singleton in Hx as ->. assumption.
      * pose proof (leb_total _ _ Hb Hacc Hab) as Hba.
        split; [set_solver|]. intros x [Hx|Hx]%elem_of_app.
        -- exact (leb_trans _ _ _ (Hle x Hx) Hba).
        -- apply list_elem_of_singleton in Hx as ->. by apply leb_refl.
Qed.

Lemma is_min_singleton (x : float) : is_min [x] x.
Proof.
  unfold is_min, has_nan. simpl. rewrite orb_false_r.
  destruct (PrimFloat.is_nan x) eqn:Hx; [reflexivity|].
  split; [set_solver|]. intros y ->%list_elem_of_singleton. by apply leb_refl.
Qed.

Lemma is_max_singleton (x : float) : is_max [x] x.
Proof.
  unfold is_max, has_nan. simpl. rewrite orb_false_r.
  destruct (PrimFloat.is_nan x) eqn:Hx; [reflexivity|].
  split; [set_solver|]. intros y ->%list_elem_of_singleton. by apply leb_refl.
Qed.

Lemma fold_np_minimum_is_min (xs seen : list float) (acc : float) :
  is_min seen acc → is_min (seen ++ xs) (fold_left np_minimum xs acc).
Proof.
  revert seen acc. induction xs as [|b xs IH]; intros seen acc H; simpl.
  - by rewrite app_nil_r.
  - replace (seen ++ b :: xs) with ((seen ++ [b]) ++ xs)
      by (by rewrite <- app_assoc).
    apply IH. by apply np_minimum_step.
Qed.

Lemma np_min_is_min (x : float) (xs : list float) :
  ∃ m, np_min (x :: xs) = Ok m ∧ is_min (x :: xs) m.
Proof.
  eexists. split; [reflexivity|].
  apply (fold_np_minimum_is_min xs [x] x), is_min_singleton.
Qed.

Lemma fold_np_maximum_is_max (xs seen : list float) (acc : float) :
  is_max seen acc → is_max (seen ++ xs) (fold_left np_maximum xs acc).
Proof.
  revert seen acc. induction xs as [|b xs IH]; intros seen acc H; simpl.
  - by rewrite app_nil_r.
  - replace (seen ++ b :: xs) with ((seen ++ [b]) ++ xs)
      by (by rewrite <- app_assoc).
    apply IH. by apply np_maximum_step.
Qed.

Lemma np_max_is_max (x : float) (xs : list float) :
  ∃ m, np_max (x :: xs) = Ok m ∧ is_max (x :: xs) m.
Proof.
  eexists. split; [reflexivity|].
  apply (fold_np_maximum_is_max xs [x] x), is_max_singleton.
Qed.

Lemma insert_sorted_perm (x : float) (l : list float) :
  insert_sorted x l ≡ₚ x :: l.
Proof.
  induction l as [|y l IH]; simpl; [reflexivity|].
  destruct (x <=? y)%float; [reflexivity|].
  rewrite IH. apply Permutation_swap.
Qed.

Lemma sort_floats_perm (v : list float) : sort_floats v ≡ₚ v.
Proof.
  induction v as [|x v IH]; simpl; [reflexivity|].
  by rewrite insert_sorted_perm, IH.
Qed.

Lemma insert_sorted_ascending (x : float) (l : list float) :
  PrimFloat.is_nan x = false → has_nan l = false →
  ascending l → ascending (insert_sorted x l).
Proof.
  intros Hx. unfold ascending.
  induction l as [|y l IH]; simpl; intros Hl Hs.
  - repeat constructor.
  - apply orb_false_iff in Hl as [Hy Hl].
    apply StronglySorted_inv in Hs as [Hs Hall].
    destruct (x <=? y)%float eqn:Hxy.
    + constructor; [by constructor|].
      constructor; [assumption|].
      eapply Forall_impl; [exact Hall|]. intros z Hz. simpl in Hz.
      exact (leb_trans _ _ _ Hxy Hz).
    + constructor; [by apply IH|].
      rewrite (insert_sorted_perm x l).
      constructor; [by apply leb_total|assumption].
Qed.

Lemma has_nan_perm (xs ys : list float) :
  xs ≡ₚ ys → has_nan xs = has_nan ys.
Proof.
  intros H. unfold has_nan. induction H; simpl; try congruence.
  by rewrite !orb_assoc, (orb_comm (PrimFloat.is_nan y)).
Qed.

Lemma sort_floats_ascending (v : list float) :
  has_nan v = false → ascending (sort_floats v).
Proof.
  induction v as [|x v IH]; simpl; intros H; [constructor|].
  apply orb_false_iff in H as [Hx Hv].
  apply insert_sorted_ascending; [assumption| |by apply IH].
  by rewrite (has_nan_perm _ _ (sort_floats_perm v)).
Qed.

Lemma take_drop_1 {A} (l : list A) (k : nat) (y : A) :
  l !! k = Some y → firstn 1 (skipn k l) = [y].
Proof.
  intros H. change (firstn 1 (skipn k l)) with (take 1 (drop k l)).
  rewrite (drop_S _ _ _ H). reflexivity.
Qed.

Lemma take_drop_2 {A} (l : list A) (k : nat) (y1 y2 : A) :
  l !! k = Some y1 → l !! S k = Some y2 → firstn 2 (skipn k l) = [y1; y2].
Proof.
  intros H1 H2. change (firstn 2 (skipn k l)) with (take 2 (drop k l)).
  rewrite (drop_S _ _ _ H1). simpl. rewrite (drop_S _ _ _ H2). reflexivity.
Qed.

Lemma np_median_is_median (v : list float) : is_median v (np_median v).
Proof.
  unfold is_median, np_median, has_nan.
  destruct (existsb PrimFloat.is_nan v) eqn:Hn; [reflexivity|].
  exists (sort_floats v). split; [apply sort_floats_perm|].
  split; [by apply sort_floats_ascending|].
  pose proof (Permutation_length (sort_floats_perm v)) as Hlen.
  destruct (length v) as [|n] eqn:Hv; [by destruct v|].
  split.
  - intros k Hk.
    destruct (lookup_lt_is_Some_2 (sort_floats v) k) as [y Hy]; [lia|].
    exists y. split; [assumption|].
    replace (Nat.even (S n)) with false.
    2:{ rewrite Hk. replace (2 * k + 1)%nat with (S (2 * k)) by lia.
        by rewrite Nat.even_succ, Nat.odd_even. }
    replace (S n / 2)%nat with k.
    2:{ rewrite Hk. apply (Nat.div_unique _ 2 k 1); lia. }
    by rewrite (take_drop_1 _ _ _ Hy).
  - intros k Hk.
    destruct (lookup_lt_is_Some_2 (sort_floats v) k) as [y1 Hy1]; [lia|].
    destruct (lookup_lt_is_Some_2 (sort_floats v) (S k)) as [y2 Hy2]; [lia|].
    exists y1, y2. split; [assumption|]. split; [assumption|].
    replace (Nat.even (S n)) with true.
    2:{ rewrite Hk. replace (2 * k + 2)%nat with (2 * (k + 1))%nat by lia.
        by rewrite Nat.even_even. }
    replace (S n / 2 - 1)%nat with k.
    2:{ rewrite Hk. replace (2 * k + 2)%nat with (2 * (k + 1))%nat by lia.
        rewrite Nat.mul_comm, Nat.div_mul by lia. lia. }
    by rewrite (take_drop_2 _ _ _ _ Hy1 Hy2).
Qed.

(** ** [plot_rfs] *)

Lemma style_ell_step (ec : PyColor) (a lw : float) (fcs : PyColor) (i : nat)
    (e : Ellipse) (ax : Axes) (done : list Ellipse) (fc : PyColor) :
  color_get fcs i = Ok fc →
  style_ell ec a lw fcs i e (ax, done)
    = Ok (ax ++ [AddArtist (set_style ec a lw fc e)],
          done ++ [set_style ec a lw fc e]).
Proof. intros H. unfold style_ell. by rewrite H. Qed.

Lemma label_ell_step (ls_cells : list Z) (i : nat) (e : Ellipse) (ax : Axes)
    (id : Z) :
  list_get ls_cells i = Ok id →
  label_ell ls_cells i e ax
    = Ok (ax ++ [Text (fst (center e)) (snd (center e)) (pretty id)]).
Proof. intros H. unfold label_ell. by rewrite H. Qed.

(** The styling loop succeeds as soon as a face colour can be read for each
    ellipse, and then adds each ellipse, styled, as an artist. *)
Lemma style_loop_ok (ec : PyColor) (a lw : float) (fcs : PyColor) :
  ∀ (ells : list Ellipse) (i : nat) (ax : Axes) (done : list Ellipse),
    (∀ k, (k < length ells)%nat → is_Ok (color_get fcs (i + k))) →
    ∃ sty : list Ellipse,
      for_enumerate (style_ell ec a lw fcs) i ells (ax, done)
        = Ok (ax ++ map AddArtist sty, done ++ sty) ∧
      length sty = length ells ∧
      ∀ k e, ells !! k = Some e →
        ∃ fc, color_get fcs (i + k) = Ok fc ∧
              sty !! k = Some (set_style ec a lw fc e).
Proof.
  induction ells as [|e ells IH]; intros i ax done Hfc.
  - exists []. simpl. rewrite !app_nil_r. repeat split. intros k e' Hk.
    discriminate.
  - destruct (Hfc 0%nat) as [fc Hfc0]; [simpl; lia|].
    rewrite Nat.add_0_r in Hfc0.
    destruct (IH (S i) (ax ++ [AddArtist (set_style ec a lw fc e)])
                (done ++ [set_style ec a lw fc e])) as (sty & Hrun & Hlen & Hsty).
    { intros k Hk. replace (S i + k)%nat with (i + S k)%nat by lia.
      apply Hfc. simpl. lia. }
    exists (set_style ec a lw fc e :: sty). split; [|split].
    + cbn [for_enumerate]. rewrite (style_ell_step _ _ _ _ _ _ _ _ _ Hfc0).
      rewrite bind_Ok, Hrun. simpl. by rewrite <- !app_assoc.
    + simpl. by rewrite Hlen.
    + intros [|k] e' Hk; simpl in *.
      * inversion Hk; subst. rewrite Nat.add_0_r. eauto.
      * replace (i + S k)%nat with (S i + k)%nat by lia. by apply Hsty.
Qed.

(** The labelling loop only appends text calls. *)
Lemma label_loop_ok (ls_cells : list Z) :
  ∀ (ells : list Ellipse) (i : nat) (ax : Axes),
    (i + length ells ≤ length ls_cells)%nat →
    ∃ texts, for_enumerate (label_ell ls_cells) i ells ax = Ok (ax ++ texts).
Proof.
  induction ells as [|e ells IH]; intros i ax Hlen; simpl in *.
  - exists []. by rewrite app_nil_r.
  - destruct (list_get_lt ls_cells i) as (id & _ & Hid); [lia|].
    rewrite (label_ell_step _ _ _ _ _ Hid), bind_Ok.
    destruct (IH (S i) (ax ++ [Text (fst (center e)) (snd (center e)) (pretty id)]))
      as [texts Ht]; [lia|].
    rewrite Ht. eexists. by rewrite <- app_assoc.
Qed.

(** What [plot_rfs] returns when every requested cell has a fit, the edge
    colour has a truth value and a face colour can be read for each cell. *)
Lemma plot_rfs_draw_ok (F : gmap Z STAFit) (ls_cells : list Z) (ec : PyColor)
    (ax : Axes) (sd_mult alpha : float) (facecolor : PyColor) (s : float)
    (b_label b_zoom : bool) (lw : float) :
  Forall (λ id, is_Some (F !! id)) ls_cells →
  (∀ k, (k < length ls_cells)%nat →
        is_Ok (color_get (broadcast_facecolor facecolor (length ls_cells)) k)) →
  ∃ (ells0 sty : list Ellipse) (texts : list call) (ax' : Axes),
    get_rf_ells ls_cells F s sd_mult = Ok ells0 ∧
    length sty = length ls_cells ∧
    (∀ k e, ells0 !! k = Some e →
       ∃ fc, color_get (broadcast_facecolor facecolor (length ls_cells)) k = Ok fc ∧
             sty !! k = Some (set_style ec alpha lw fc e)) ∧
    zoom_to_ells b_zoom sty (ax ++ map AddArtist sty ++ texts) = Ok ax' ∧
    (b_label = false → texts = []) ∧
    plot_rfs_draw F ls_cells ec ax sd_mult alpha facecolor s b_label b_zoom lw
      = Ok (ax', sty).
Proof.
  intros Hkeys Hfc.
  destruct (get_rf_ells_ok ls_cells F s sd_mult Hkeys)
    as (ells0 & Hells0 & Hlen0).
  destruct (style_loop_ok ec alpha lw
              (broadcast_facecolor facecolor (length ells0)) ells0 0 ax [])
    as (sty & Hrun & Hlen & Hsty).
  { intros k Hk. rewrite Hlen0. apply Hfc. lia. }
  assert (Hlab : ∃ texts,
    (if b_label then for_enumerate (label_ell ls_cells) 0 sty
                       (ax ++ map AddArtist sty)
     else Ok (ax ++ map AddArtist sty)) = Ok ((ax ++ map AddArtist sty) ++ texts)
    ∧ (b_label = false → texts = [])).
  { destruct b_label.
    - destruct (label_loop_ok ls_cells sty 0 (ax ++ map AddArtist sty))
        as [texts Ht]; [simpl; lia|].
      exists texts. by split.
    - exists []. by rewrite app_nil_r. }
  destruct Hlab as (texts & Hlab & Hnolab).
  assert (Hzoom : is_Ok (zoom_to_ells b_zoom sty (ax ++ map AddArtist sty ++ texts))).
  { unfold zoom_to_ells. destruct b_zoom; simpl; [|by eexists].
    case_bool_decide; [|by eexists].
    destruct sty as [|e sty']; [simpl in *; lia|]. simpl. by eexists. }
  destruct Hzoom as [ax' Hzoom].
  exists ells0, sty, texts, ax'.
  split; [assumption|]. split; [lia|]. split.
  { intros k e Hk. rewrite <- Hlen0. by apply Hsty. }
  split; [assumption|]. split; [assumption|].
  unfold plot_rfs_draw. rewrite Hells0, bind_Ok. simpl in Hrun.
  rewrite Hrun, bind_Ok. simpl. rewrite Hlab, bind_Ok.
  rewrite <- app_assoc, Hzoom. reflexivity.
Qed.

Lemma label_loop_texts (ls_cells : list Z) :
  ∀ (ells : list Ellipse) (i : nat) (ax : Axes),
    (i + length ells ≤ length ls_cells)%nat →
    for_enumerate (label_ell ls_cells) i ells ax
    = Ok (ax ++ cell_labels ells (drop i ls_cells)).
Proof.
  induction ells as [|e ells IH]; intros i ax Hlen; simpl in *.
  - unfold cell_labels. simpl. by rewrite app_nil_r.
  - destruct (list_get_lt ls_cells i) as (id & Hlk & Hid); [lia|].
    rewrite (label_ell_step _ _ _ _ _ Hid), bind_Ok, IH by lia.
    rewrite (drop_S _ _ _ Hlk). unfold cell_labels. simpl.
    by rewrite <- app_assoc.
Qed.

Lemma zoom_to_ells_calls (b_zoom : bool) (ells : list Ellipse) (ax : Axes) :
  zoom_to_ells b_zoom ells ax = Ok (ax ++ zoom_calls b_zoom ells).
Proof.
  unfold zoom_to_ells, zoom_calls.
  destruct b_zoom, ells as [|e ells]; simpl; by rewrite ?app_nil_r.
Qed.

(** The whole outcome of the drawing part of [plot_rfs] when every cell has
    a fit and a face colour can be read for each cell. *)
Lemma plot_rfs_draw_full (F : gmap Z STAFit) (ls_cells : list Z) (ec : PyColor)
    (ax : Axes) (sd_mult alpha : float) (facecolor : PyColor) (s : float)
    (b_label b_zoom : bool) (lw : float) :
  Forall (λ id, is_Some (F !! id)) ls_cells →
  (∀ k, (k < length ls_cells)%nat →
        is_Ok (color_get (broadcast_facecolor facecolor (length ls_cells)) k)) →
  ∃ (ells0 ells : list Ellipse),
    get_rf_ells ls_cells F s sd_mult = Ok ells0 ∧
    length ells0 = length ls_cells ∧
    length ells = length ls_cells ∧
    (∀ k e, ells0 !! k = Some e →
       ∃ fc, color_get (broadcast_facecolor facecolor (length ls_cells)) k = Ok fc ∧
             ells !! k = Some (set_style ec alpha lw fc e)) ∧
    plot_rfs_draw F ls_cells ec ax sd_mult alpha facecolor s b_label b_zoom lw
    = Ok (ax ++ map AddArtist ells
             ++ (if b_label then cell_labels ells ls_cells else [])
             ++ zoom_calls b_zoom ells, ells).
Proof.
  intros Hkeys Hfc.
  destruct (get_rf_ells_ok ls_cells F s sd_mult Hkeys)
    as (ells0 & Hells0 & Hlen0).
  destruct (style_loop_ok ec alpha lw
              (broadcast_facecolor facecolor (length ells0)) ells0 0 ax [])
    as (sty & Hrun & Hlen & Hsty).
  { intros k Hk. rewrite Hlen0. apply Hfc. lia. }
  exists ells0, sty. split; [assumption|]. split; [assumption|].
  split; [lia|]. split.
  { intros k e Hk. rewrite <- Hlen0. by apply Hsty. }
  unfold plot_rfs_draw. rewrite Hells0, bind_Ok. simpl in Hrun.
  rewrite Hrun, bind_Ok. simpl.
  destruct b_label.
  - rewrite (label_loop_texts ls_cells sty 0) by (simpl; lia).
    rewrite bind_Ok, zoom_to_ells_calls, bind_Ok. simpl.
    by rewrite <- !app_assoc.
  - rewrite bind_Ok, zoom_to_ells_calls, bind_Ok. simpl.
    by rewrite <- !app_assoc.
Qed.

Lemma map_pointwise {A B} (f : A → B) :
  ∀ (xs ys : list A),
    length ys = length xs →
    (∀ k x, xs !! k = Some x → ∃ y, ys !! k = Some y ∧ f y = f x) →
    map f ys = map f xs.
Proof.
  induction xs as [|x xs IH]; intros [|y ys] Hlen H;
    simpl in *; try discriminate; [reflexivity|].
  destruct (H 0%nat x eq_refl) as (y' & Hy' & Heq). inversion Hy'; subst.
  f_equal; [assumption|]. apply IH; [lia|].
  intros k x' Hk. exact (H (S k) x' Hk).
Qed.

Lemma zoom_to_ells_appends (b_zoom : bool) (ells : list Ellipse) (ax ax' : Axes) :
  zoom_to_ells b_zoom ells ax = Ok ax' → ∃ rest, ax' = ax ++ rest.
Proof.
  unfold zoom_to_ells. destruct (b_zoom && _).
  - destruct ells as [|e ells]; simpl; [discriminate|].
    intros [= <-]. eauto.
  - intros [= <-]. exists []. by rewrite app_nil_r.
Qed.

Lemma color_get_replicate (n k : nat) (c : PyColor) :
  (k < n)%nat → color_get (PList (replicate n c)) k = Ok c.
Proof.
  intros Hk. simpl. apply list_get_Some. by apply lookup_replicate_2.
Qed.

(** [plot_rfs] consults the generator only to pick a missing edge colour. *)
Lemma plot_rfs_unfold (spikeout : SpikeOutputs) (ls_cells : list Z)
    (ec : PyColor) (ax : option Axes) (sd_mult alpha : float) (fc : PyColor)
    (SCALING : option float) (b_label b_zoom : bool) (lw : float)
    (rs : RandomState) :
  plot_rfs spikeout ls_cells ec ax sd_mult alpha fc SCALING b_label b_zoom lw rs
  = match truthy ec with
    | Err e => (Err e, rs)
    | Ok true =>
        (plot_rfs_draw (d_sta spikeout) ls_cells ec (plot_rfs_canvas ax SCALING)
           sd_mult alpha fc (plot_rfs_scaling spikeout SCALING)
           b_label b_zoom lw, rs)
    | Ok false =>
        (plot_rfs_draw (d_sta spikeout) ls_cells
           (PArray (fst (np_random_rand 3 rs))) (plot_rfs_canvas ax SCALING)
           sd_mult alpha fc (plot_rfs_scaling spikeout SCALING)
           b_label b_zoom lw, snd (np_random_rand 3 rs))
    end.
Proof.
  unfold plot_rfs, plot_rfs_canvas, plot_rfs_scaling.
  destruct ax as [ax|], SCALING as [s|]; simpl;
    unfold mbind, py_mbind, py_bind, py_lift; simpl;
    rewrite ?app_nil_r;
    destruct (truthy ec) as [[|]|e]; reflexivity.
Qed.

Lemma plot_rfs_truthy (spikeout : SpikeOutputs) (ls_cells : list Z)
    (ec : PyColor) (ax : option Axes) (sd_mult alpha : float) (fc : PyColor)
    (SCALING : option float) (b_label b_zoom : bool) (lw : float)
    (rs : RandomState) (b : bool) :
  truthy ec = Ok b →
  plot_rfs spikeout ls_cells ec ax sd_mult alpha fc SCALING b_label b_zoom lw rs
  = (plot_rfs_draw (d_sta spikeout) ls_cells (edge_color ec b rs)
       (plot_rfs_canvas ax SCALING) sd_mult alpha fc
       (plot_rfs_scaling spikeout SCALING) b_label b_zoom lw,
     rng_after b rs).
Proof. intros H. rewrite plot_rfs_unfold, H. by destruct b. Qed.

(** C3. In [plot_rfs] with auto-zoom enabled, when at least one ellipse is
    present the last two calls on the axes set the x-range to
    [[min of the ellipse centre x-coordinates - 400, max + 400]] and the
    y-range to [[min of the centre y-coordinates - 400, max + 400]], the
    minimum being a centre coordinate that none is below and the maximum one
    that none is above (both NaN if a coordinate is NaN); with zero ellipses
    the zoom is skipped and the axes is left as lines 84-90 prepared it, no
    such range being set. *)
Theorem plot_rfs_auto_zoom (spikeout : SpikeOutputs) (ls_cells : list Z)
    (ec : PyColor) (ax : option Axes) (sd_mult alpha : float) (fc : PyColor)
    (SCALING : option float) (b_label : bool) (lw : float) (rs : RandomState) :
  Forall (λ id, is_Some (d_sta spikeout !! id)) ls_cells →
  is_Ok (truthy ec) →
  (∀ k, (k < length ls_cells)%nat →
        is_Ok (color_get (broadcast_facecolor fc (length ls_cells)) k)) →
  ∃ (ax' : Axes) (ells ells0 : list Ellipse) (rs' : RandomState),
    plot_rfs spikeout ls_cells ec ax sd_mult alpha fc SCALING b_label true lw rs
      = (Ok (ax', ells), rs') ∧
    get_rf_ells ls_cells (d_sta spikeout) (plot_rfs_scaling spikeout SCALING)
      sd_mult = Ok ells0 ∧
    map center ells = map center ells0 ∧
    length ells = length ls_cells ∧
    match ells with
    | [] => ax' = plot_rfs_canvas ax SCALING
    | _ :: _ =>
        ∃ (pre : Axes) (x0_min x0_max y0_min y0_max : float),
          np_min (map (λ ell, fst (center ell)) ells) = Ok x0_min ∧
          np_max (map (λ ell, fst (center ell)) ells) = Ok x0_max ∧
          np_min (map (λ ell, snd (center ell)) ells) = Ok y0_min ∧
          np_max (map (λ ell, snd (center ell)) ells) = Ok y0_max ∧
          is_min (map (λ ell, fst (center ell)) ells) x0_min ∧
          is_max (map (λ ell, fst (center ell)) ells) x0_max ∧
          is_min (map (λ ell, snd (center ell)) ells) y0_min ∧
          is_max (map (λ ell, snd (center ell)) ells) y0_max ∧
          ax' = pre ++ [SetXlim (x0_min - 400) (x0_max + 400);
                        SetYlim (y0_min - 400) (y0_max + 400)]%float
    end.
Proof.
  intros Hkeys [b Hb] Hfc.
  rewrite (plot_rfs_truthy _ _ _ _ _ _ _ _ _ _ _ _ _ Hb).
  destruct (plot_rfs_draw_ok (d_sta spikeout) ls_cells (edge_color ec b rs)
              (plot_rfs_canvas ax SCALING) sd_mult alpha fc
              (plot_rfs_scaling spikeout SCALING) b_label true lw Hkeys Hfc)
    as (ells0 & sty & texts & ax' & Hells0 & Hlen & Hsty & Hzoom & _ & Hrun).
  exists ax', sty, ells0, (rng_after b rs).
  split; [by rewrite Hrun|]. split; [assumption|].
  assert (Hlen0 : length ells0 = length ls_cells).
  { unfold get_rf_ells in Hells0. by eapply list_comp_length. }
  split.
  { apply map_pointwise; [lia|]. intros k e Hk.
    destruct (Hsty k e Hk) as (c & _ & Hs). eauto. }
  split; [assumption|].
  destruct sty as [|e sty].
  - destruct ls_cells; [|discriminate].
    unfold plot_rfs_draw in Hrun. destruct b_label; simpl in Hrun;
      by inversion Hrun.
  - unfold zoom_to_ells in Hzoom. simpl in Hzoom. inversion Hzoom.
    eexists _,
      (fold_left np_minimum (map (λ ell, fst (center ell)) sty) (fst (center e))),
      (fold_left np_maximum (map (λ ell, fst (center ell)) sty) (fst (center e))),
      (fold_left np_minimum (map (λ ell, snd (center ell)) sty) (snd (center e))),
      (fold_left np_maximum (map (λ ell, snd (center ell)) sty) (snd (center e))).
    do 4 (split; [reflexivity|]).
    split; [apply (fold_np_minimum_is_min _ [_] _), is_min_singleton|].
    split; [apply (fold_np_maximum_is_max _ [_] _), is_max_singleton|].
    split; [apply (fold_np_minimum_is_min _ [_] _), is_min_singleton|].
    split; [apply (fold_np_maximum_is_max _ [_] _), is_max_singleton|].
    reflexivity.
Qed.

(** C6. In [plot_rfs], a uniform face colour given as an RGB triple is
    broadcast to every ellipse: each ellipse returned, and so each artist
    added to the axes, carries that same face colour. *)
Theorem plot_rfs_uniform_facecolor (spikeout : SpikeOutputs) (ls_cells : list Z)
    (ec : PyColor) (ax : option Axes) (sd_mult alpha : float) (r g b : float)
    (SCALING : option float) (b_label b_zoom : bool) (lw : float)
    (rs : RandomState) :
  Forall (λ id, is_Some (d_sta spikeout !! id)) ls_cells →
  is_Ok (truthy ec) →
  ∃ (ax' rest : Axes) (ells : list Ellipse) (rs' : RandomState),
    plot_rfs spikeout ls_cells ec ax sd_mult alpha (PTuple [r; g; b]) SCALING
      b_label b_zoom lw rs = (Ok (ax', ells), rs') ∧
    length ells = length ls_cells ∧
    Forall (λ ell, ell_facecolor ell = Some (PTuple [r; g; b])) ells ∧
    ax' = plot_rfs_canvas ax SCALING ++ map AddArtist ells ++ rest.
Proof.
  intros Hkeys [tv Htv].
  rewrite (plot_rfs_truthy _ _ _ _ _ _ _ _ _ _ _ _ _ Htv).
  assert (Hfc : ∀ k, (k < length ls_cells)%nat →
    is_Ok (color_get (broadcast_facecolor (PTuple [r; g; b]) (length ls_cells)) k)).
  { intros k Hk. exists (PTuple [r; g; b]). by apply color_get_replicate. }
  destruct (plot_rfs_draw_ok (d_sta spikeout) ls_cells (edge_color ec tv rs)
              (plot_rfs_canvas ax SCALING) sd_mult alpha (PTuple [r; g; b])
              (plot_rfs_scaling spikeout SCALING) b_label b_zoom lw Hkeys Hfc)
    as (ells0 & sty & texts & ax' & Hells0 & Hlen & Hsty & Hzoom & _ & Hrun).
  destruct (zoom_to_ells_appends _ _ _ _ Hzoom) as [zs Hzs].
  exists ax', (texts ++ zs), sty, (rng_after tv rs).
  split; [by rewrite Hrun|]. split; [assumption|]. split.
  - assert (Hlen0 : length ells0 = length ls_cells).
    { unfold get_rf_ells in Hells0. by eapply list_comp_length. }
    apply Forall_lookup. intros k e Hk.
    destruct (lookup_lt_is_Some_2 ells0 k) as [e0 He0].
    { apply lookup_lt_Some in Hk. lia. }
    destruct (Hsty k e0 He0) as (c & Hc & Hs).
    change (broadcast_facecolor (PTuple [r; g; b]) (length ls_cells))
      with (PList (replicate (length ls_cells) (PTuple [r; g; b]))) in Hc.
    rewrite color_get_replicate in Hc
      by (apply lookup_lt_Some in He0; lia).
    inversion Hc; subst. rewrite Hk in Hs. by inversion Hs.
  - rewrite Hzs. by rewrite <- !app_assoc.
Qed.

(** Two cells centred at (300, 600) and (900, 150): the zoom frames
    [[-100, 1300]] by [[-250, 1000]]. *)
Example plot_rfs_auto_zoom_demo :
  ∃ pre ells,
    fst (plot_rfs demo [7; 3] (PStr "C0") None 1.3 0.6 (PStr "k") None
           false true 1 (rs_const 0.5))
    = Ok (pre ++ [SetXlim (-100) 1300; SetYlim (-250) 1000]%float, ells).
Proof. eexists (_ :: _ :: _ :: _ :: _ :: []), _. vm_compute. reflexivity. Qed.

(** C3 on clusters 7 and 3 of the small recording. *)
Lemma plot_rfs_auto_zoom_witness :
  ∃ (ax' : Axes) (ells ells0 : list Ellipse) (rs' : RandomState),
    plot_rfs demo [7; 3] (PStr "C0") None 1.3 0.6 (PStr "k") None false true 1
      (rs_const 0.5) = (Ok (ax', ells), rs') ∧
    get_rf_ells [7; 3] (d_sta demo) (plot_rfs_scaling demo None) 1.3
      = Ok ells0 ∧
    map center ells = map center ells0 ∧
    length ells = length [7; 3] ∧
    match ells with
    | [] => ax' = plot_rfs_canvas None None
    | _ :: _ =>
        ∃ (pre : Axes) (x0_min x0_max y0_min y0_max : float),
          np_min (map (λ ell, fst (center ell)) ells) = Ok x0_min ∧
          np_max (map (λ ell, fst (center ell)) ells) = Ok x0_max ∧
          np_min (map (λ ell, snd (center ell)) ells) = Ok y0_min ∧
          np_max (map (λ ell, snd (center ell)) ells) = Ok y0_max ∧
          is_min (map (λ ell, fst (center ell)) ells) x0_min ∧
          is_max (map (λ ell, fst (center ell)) ells) x0_max ∧
          is_min (map (λ ell, snd (center ell)) ells) y0_min ∧
          is_max (map (λ ell, snd (center ell)) ells) y0_max ∧
          ax' = pre ++ [SetXlim (x0_min - 400) (x0_max + 400);
                        SetYlim (y0_min - 400) (y0_max + 400)]%float
    end.
Proof.
  apply (plot_rfs_auto_zoom demo [7; 3] (PStr "C0") None 1.3 0.6 (PStr "k")
           None false 1 (rs_const 0.5)).
  - repeat constructor; eexists; reflexivity.
  - eexists; reflexivity.
  - intros [|[|k]] Hk; [eexists; reflexivity ..|simpl in Hk; lia].
Defined.

(** C6 with a red face colour on clusters 7 and 3 of the small recording. *)
Lemma plot_rfs_uniform_facecolor_witness :
  ∃ (ax' rest : Axes) (ells : list Ellipse) (rs' : RandomState),
    plot_rfs demo [7; 3] (PStr "C0") None 1.3 0.6 (PTuple [1; 0; 0]%float) None
      false true 1 (rs_const 0.5) = (Ok (ax', ells), rs') ∧
    length ells = length [7; 3] ∧
    Forall (λ ell, ell_facecolor ell = Some (PTuple [1; 0; 0]%float)) ells ∧
    ax' = plot_rfs_canvas None None ++ map AddArtist ells ++ rest.
Proof.
  apply (plot_rfs_uniform_facecolor demo [7; 3] (PStr "C0") None 1.3 0.6
           1 0 0 None false true 1 (rs_const 0.5)).
  - repeat constructor; eexists; reflexivity.
  - eexists; reflexivity.
Defined.

(** ** Dependence on the random generator *)

Lemma rng_free_lift {A} (r : result A) : rng_free (py_lift r).
Proof. by exists r. Qed.

Lemma rng_free_ret {A} (a : A) : rng_free (mret a : Py A).
Proof. by exists (Ok a). Qed.

Lemma rng_free_bind {A B} (m : Py A) (f : A → Py B) :
  rng_free m → (∀ a, rng_free (f a)) → rng_free (m ≫= f).
Proof.
  intros [r Hm] Hf. destruct r as [a|e].
  - destruct (Hf a) as [r' Hr']. exists r'. intros rs.
    unfold mbind, py_mbind, py_bind. by rewrite Hm, Hr'.
  - exists (Err e). intros rs. unfold mbind, py_mbind, py_bind. by rewrite Hm.
Qed.

Lemma rng_free_for {St A} (body : nat → A → St → Py St) (xs : list A) :
  (∀ i x s, x ∈ xs → rng_free (body i x s)) →
  ∀ i s, rng_free (py_for_enumerate body i xs s).
Proof.
  induction xs as [|x xs IH]; intros Hbody i s; simpl.
  - apply rng_free_ret.
  - apply rng_free_bind.
    + apply Hbody. by left.
    + intros s'. apply IH. intros j y s'' Hy. apply Hbody. by right.
Qed.

Lemma plot_rfs_rng_free (spikeout : SpikeOutputs) (ls_cells : list Z)
    (ec : PyColor) (ax : option Axes) (sd_mult alpha : float) (fc : PyColor)
    (SCALING : option float) (b_label b_zoom : bool) (lw : float) :
  truthy ec ≠ Ok false →
  rng_free (plot_rfs spikeout ls_cells ec ax sd_mult alpha fc SCALING
              b_label b_zoom lw).
Proof.
  intros Hec. destruct (truthy ec) as [[|]|e] eqn:Ht; [| congruence |].
  - eexists. intros rs. rewrite plot_rfs_unfold, Ht. reflexivity.
  - exists (Err e). intros rs. rewrite plot_rfs_unfold, Ht. reflexivity.
Qed.

Lemma rng_free_bind_lift {A B} (r : result A) (f : A → Py B) :
  (∀ a, r = Ok a → rng_free (f a)) → rng_free (py_lift r ≫= f).
Proof.
  intros Hf. destruct r as [a|e].
  - destruct (Hf a eq_refl) as [r' Hr']. exists r'. intros rs.
    unfold mbind, py_mbind, py_bind, py_lift. by rewrite Hr'.
  - by exists (Err e).
Qed.

Lemma type_rfs_panel_rng_free (data : SpikeOutputs) (d_IDs : dict (list Z))
    (ls_colors ls_facecolors : list PyColor) (ls_RGC_labels : list string)
    (alpha : float) (b_zoom : bool) (sd_mult : float)
    (i : nat) (str_key : string) (axs : AxsVal) :
  Forall (λ c, truthy c ≠ Ok false) ls_colors →
  rng_free (type_rfs_panel data d_IDs ls_colors ls_facecolors ls_RGC_labels
              alpha b_zoom sd_mult i str_key axs).
Proof.
  intros Hcols. unfold type_rfs_panel.
  apply rng_free_bind_lift. intros ls_cells _.
  apply rng_free_bind_lift. intros ls_label _.
  apply rng_free_bind_lift. intros ax _.
  apply rng_free_bind_lift. intros ec Hec.
  apply rng_free_bind_lift. intros fcol _.
  destruct ax as [ax|row]; [|apply rng_free_lift].
  apply rng_free_bind.
  - apply plot_rfs_rng_free. unfold list_get in Hec.
    destruct (ls_colors !! i) as [c|] eqn:Hc; [|discriminate].
    inversion Hec; subst. rewrite Forall_lookup in Hcols. by eapply Hcols.
  - intros [ax' ells]. apply rng_free_ret.
Qed.

Lemma plot_type_rfs_rng_free (data : SpikeOutputs)
    (ls_RGC_keys : option (list string)) (ls_colors : list PyColor)
    (axs : option AxsVal) (ls_facecolors : option (list PyColor))
    (alpha : float) (b_ticks_off : bool)
    (ls_RGC_labels : option (list string)) (d_IDs : option (dict (list Z)))
    (b_zoom : bool) (sd_mult : float) :
  Forall (λ c, truthy c ≠ Ok false) ls_colors →
  rng_free (plot_type_rfs data ls_RGC_keys ls_colors axs ls_facecolors alpha
              b_ticks_off ls_RGC_labels d_IDs b_zoom sd_mult).
Proof.
  intros Hcols. unfold plot_type_rfs.
  apply rng_free_bind.
  - apply rng_free_lift.
  - intros axs'. apply rng_free_bind.
    + apply rng_free_for. intros i x s _. by apply type_rfs_panel_rng_free.
    + intros axs''. destruct b_ticks_off;
        [apply rng_free_lift | apply rng_free_ret].
Qed.

(** C8 (as the code has it). Each of the five renderers, invoked on
    arguments that leave no edge colour for [plot_rfs] to pick, produces the
    same outcome whatever the state of the process-wide random generator and
    leaves the generator untouched: two invocations on the same arguments
    draw the same thing. [plot_rfs] given a falsy edge colour is the
    exception: its outcome is drawn with the three doubles it takes from the
    generator, which it advances. *)
Theorem renderers_deterministic_given_colors :
  (∀ r : renderer, edge_colors_given r →
     ∀ rs1 rs2 : RandomState,
       fst (invoke r rs1) = fst (invoke r rs2) ∧ snd (invoke r rs1) = rs1) ∧
  (∀ spikeout ls_cells ec ax sd_mult alpha fc SCALING b_label b_zoom lw rs,
     truthy ec = Ok false →
     plot_rfs spikeout ls_cells ec ax sd_mult alpha fc SCALING b_label b_zoom
       lw rs
     = (plot_rfs_draw (d_sta spikeout) ls_cells
          (PArray (fst (np_random_rand 3 rs))) (plot_rfs_canvas ax SCALING)
          sd_mult alpha fc (plot_rfs_scaling spikeout SCALING) b_label b_zoom lw,
        snd (np_random_rand 3 rs))).
Proof.
  split.
  - intros r Hr.
    assert (Hfree : rng_free (invoke r)).
    { destruct r; simpl in *; try apply rng_free_lift.
      - apply rng_free_bind; [by apply plot_rfs_rng_free|].
        intros out. apply rng_free_ret.
      - apply rng_free_bind; [by apply plot_type_rfs_rng_free|].
        intros out. apply rng_free_ret. }
    destruct Hfree as [out Hout]. intros rs1 rs2. by rewrite !Hout.
  - intros spikeout ls_cells ec ax sd_mult alpha fc SCALING b_label b_zoom lw
      rs Hec.
    by rewrite plot_rfs_unfold, Hec.
Qed.

(** Two invocations of [plot_rfs] in a row on the same arguments, the second
    one starting from the generator as the first left it, do not draw the
    same thing when no edge colour is supplied. *)
Lemma plot_rfs_not_pure :
  ¬ (let r := call_plot_rfs demo [7] PNone None 1.3 0.6 (PStr "k") None
                false true 1 in
     let call1 := invoke r rs_count in
     let call2 := invoke r (snd call1) in
     fst call1 = fst call2).
Proof.
  intros H.
  apply (f_equal (λ r, match first_edge_red r with
                       | Some x => PrimFloat.ltb x 1
                       | None => false
                       end)) in H.
  vm_compute in H. discriminate H.
Qed.

(** The ISI panels of the small recording: the median of the violating
    clusters is 11, that of the others 1. *)
Example plot_isi_qc_demo :
  medians (plot_isi_qc (λ _, "") demo None) = [11; 1]%float.
Proof. vm_compute. reflexivity. Qed.

(** ** The grid renderers: one panel per key *)

Lemma py_bind_Ok_inv {A B} (m : Py A) (f : A → Py B) (rs rs' : RandomState)
    (b : B) :
  (m ≫= f) rs = (Ok b, rs') →
  ∃ a rs1, m rs = (Ok a, rs1) ∧ f a rs1 = (Ok b, rs').
Proof.
  unfold mbind, py_mbind, py_bind. destruct (m rs) as [[a|e] rs1]; [eauto|].
  discriminate.
Qed.

Lemma py_lift_Ok_inv {A} (r : result A) (rs rs' : RandomState) (a : A) :
  py_lift r rs = (Ok a, rs') → r = Ok a ∧ rs' = rs.
Proof. unfold py_lift. intros [= -> ->]. by split. Qed.

Lemma list_get_Ok_inv {A} (l : list A) (i : nat) (a : A) :
  list_get l i = Ok a → l !! i = Some a.
Proof. unfold list_get. destruct (l !! i); [by intros [= ->] | discriminate]. Qed.

Lemma axs_item_update_eq (axs : AxsVal) (i : nat) (a a' : Axes) :
  axs_item axs i = Ok (inl a) →
  axs_item (axs_update axs i a') i = Ok (inl a').
Proof.
  destruct axs as [a0|l|l|row]; simpl; try discriminate.
  - intros H. apply bind_Ok_inv in H as (x & Hx & _).
    apply list_get_Ok_inv, lookup_lt_Some in Hx.
    unfold list_get. by rewrite list_lookup_insert_eq.
  - intros H. apply bind_Ok_inv in H as (x & Hx & _).
    apply list_get_Ok_inv, lookup_lt_Some in Hx.
    unfold list_get. by rewrite list_lookup_insert_eq.
  - destruct i; discriminate.
Qed.

Lemma axs_item_update_ne (axs : AxsVal) (i j : nat) (a' : Axes) :
  i ≠ j → axs_item (axs_update axs i a') j = axs_item axs j.
Proof.
  intros Hne. destruct axs as [a0|l|l|row]; simpl; try reflexivity;
    unfold list_get; by rewrite list_lookup_insert_ne.
Qed.

(** What a loop over the keys leaves on each axes when every iteration
    draws on the axes of its own index only. *)
Lemma for_enumerate_panels (P : nat → string → Axes → Axes → Prop)
    (body : nat → string → AxsVal → result AxsVal) :
  (∀ i key axs axs', body i key axs = Ok axs' →
     ∃ a a', axs_item axs i = Ok (inl a) ∧ P i key a a' ∧
             axs' = axs_update axs i a') →
  ∀ keys i0 axs axs',
    for_enumerate body i0 keys axs = Ok axs' →
    (∀ j, (j < i0)%nat → axs_item axs' j = axs_item axs j) ∧
    ∀ j key, keys !! j = Some key →
      ∃ a a', axs_item axs (i0 + j) = Ok (inl a) ∧ P (i0 + j)%nat key a a' ∧
              axs_item axs' (i0 + j) = Ok (inl a').
Proof.
  intros Hbody. induction keys as [|key keys IH]; intros i0 axs axs' Hrun;
    simpl in Hrun.
  - inversion Hrun; subst. split; [done|]. intros j k Hk. discriminate.
  - apply bind_Ok_inv in Hrun as (axs1 & H1 & Hrest).
    destruct (Hbody _ _ _ _ H1) as (a & a' & Ha & HP & ->).
    destruct (IH _ _ _ Hrest) as [Hlow Hhigh]. split.
    + intros j Hj. rewrite Hlow by lia. apply axs_item_update_ne. lia.
    + intros [|j] k Hk; simpl in Hk.
      * inversion Hk; subst. rewrite Nat.add_0_r. exists a, a'.
        split; [assumption|]. split; [assumption|].
        rewrite Hlow by lia. by eapply axs_item_update_eq.
      * destruct (Hhigh j k Hk) as (b & b' & Hb & HPb & Hb').
        replace (i0 + S j)%nat with (S i0 + j)%nat by lia.
        exists b, b'. split; [|by split].
        rewrite <- Hb. symmetry. apply axs_item_update_ne. lia.
Qed.

Lemma py_for_enumerate_panels (P : nat → string → Axes → Axes → Prop)
    (body : nat → string → AxsVal → Py AxsVal) :
  (∀ i key axs axs' rs rs', body i key axs rs = (Ok axs', rs') →
     ∃ a a', axs_item axs i = Ok (inl a) ∧ P i key a a' ∧
             axs' = axs_update axs i a') →
  ∀ keys i0 axs axs' rs rs',
    py_for_enumerate body i0 keys axs rs = (Ok axs', rs') →
    (∀ j, (j < i0)%nat → axs_item axs' j = axs_item axs j) ∧
    ∀ j key, keys !! j = Some key →
      ∃ a a', axs_item axs (i0 + j) = Ok (inl a) ∧ P (i0 + j)%nat key a a' ∧
              axs_item axs' (i0 + j) = Ok (inl a').
Proof.
  intros Hbody.
  induction keys as [|key keys IH]; intros i0 axs axs' rs rs' Hrun;
    simpl in Hrun.
  - inversion Hrun; subst. split; [done|]. intros j k Hk. discriminate.
  - apply py_bind_Ok_inv in Hrun as (axs1 & rs1 & H1 & Hrest).
    destruct (Hbody _ _ _ _ _ _ H1) as (a & a' & Ha & HP & ->).
    destruct (IH _ _ _ _ _ Hrest) as [Hlow Hhigh]. split.
    + intros j Hj. rewrite Hlow by lia. apply axs_item_update_ne. lia.
    + intros [|j] k Hk; simpl in Hk.
      * inversion Hk; subst. rewrite Nat.add_0_r. exists a, a'.
        split; [assumption|]. split; [assumption|].
        rewrite Hlow by lia. by eapply axs_item_update_eq.
      * destruct (Hhigh j k Hk) as (b & b' & Hb & HPb & Hb').
        replace (i0 + S j)%nat with (S i0 + j)%nat by lia.
        exists b, b'. split; [|by split].
        rewrite <- Hb. symmetry. apply axs_item_update_ne. lia.
Qed.

Lemma axs_for_each_item (f : Axes → Axes) (axs axs' : AxsVal) (i : nat)
    (a : Axes) :
  axs_for_each f axs = Ok axs' → axs_item axs i = Ok (inl a) →
  axs_item axs' i = Ok (inl (f a)).
Proof.
  destruct axs as [a0|l|l|row]; simpl; try discriminate;
    intros [= <-] H; apply bind_Ok_inv in H as (x & Hx & [= ->]);
    apply list_get_Ok_inv in Hx; simpl; unfold list_get;
    change (map f l) with (f <$> l);
    by rewrite list_lookup_fmap, Hx.
Qed.

Lemma type_rfs_panel_inv (data : SpikeOutputs) (d_IDs : dict (list Z))
    (ls_colors ls_facecolors : list PyColor) (ls_RGC_labels : list string)
    (alpha : float) (b_zoom : bool) (sd_mult : float)
    (i : nat) (str_key : string) (axs axs' : AxsVal) (rs rs' : RandomState) :
  type_rfs_panel data d_IDs ls_colors ls_facecolors ls_RGC_labels alpha b_zoom
    sd_mult i str_key axs rs = (Ok axs', rs') →
  ∃ a a', axs_item axs i = Ok (inl a) ∧
          rfs_panel_drawn data d_IDs ls_colors ls_facecolors ls_RGC_labels
            alpha b_zoom sd_mult i str_key a a' ∧
          axs' = axs_update axs i a'.
Proof.
  unfold type_rfs_panel. intros H.
  apply py_bind_Ok_inv in H as (ls_cells & rs1 & H1 & H).
  apply py_lift_Ok_inv in H1 as [Hcells ->].
  apply py_bind_Ok_inv in H as (ls_label & rs1 & H1 & H).
  apply py_lift_Ok_inv in H1 as [Hlabel ->].
  apply py_bind_Ok_inv in H as (ax & rs1 & H1 & H).
  apply py_lift_Ok_inv in H1 as [Hax ->].
  apply py_bind_Ok_inv in H as (ec & rs1 & H1 & H).
  apply py_lift_Ok_inv in H1 as [Hec ->].
  apply py_bind_Ok_inv in H as (fc & rs1 & H1 & H).
  apply py_lift_Ok_inv in H1 as [Hfc ->].
  destruct ax as [a|row].
  - apply py_bind_Ok_inv in H as ([ax ells] & rs1 & Hplot & H).
    inversion H; subst.
    exists a, (ax ++ [SetTitle (ls_label +:+ " (n=" +:+
                 pretty (length (cells_with_sta data ls_cells)) +:+ ") RFs")]).
    split; [assumption|]. split; [|reflexivity].
    exists ls_cells, ls_label, ec, fc, ax, ells, rs, rs'.
    repeat split; try assumption; by apply list_get_Ok_inv.
  - unfold plot_rfs_on_array, py_lift in H.
    destruct (Nat.eqb (length row) 1); discriminate.
Qed.

Lemma type_tcs_panel_inv (data : SpikeOutputs) (ls_colors : list PyColor)
    (alpha : float) (b_plot_mean : bool) (ls_RGC_labels : list string)
    (lw : float) (i : nat) (str_key : string) (axs axs' : AxsVal) :
  type_tcs_panel data ls_colors alpha b_plot_mean ls_RGC_labels lw i str_key axs
    = Ok axs' →
  ∃ a a', axs_item axs i = Ok (inl a) ∧
          tcs_panel_drawn data ls_colors alpha b_plot_mean ls_RGC_labels lw
            i str_key a a' ∧
          axs' = axs_update axs i a'.
Proof.
  unfold type_tcs_panel. intros H.
  apply bind_Ok_inv in H as (ls_cells & Hcells & H).
  apply bind_Ok_inv in H as (str_label & Hlabel & H).
  apply bind_Ok_inv in H as (ax & Hax & H).
  destruct ax as [a|row]; [|discriminate].
  apply bind_Ok_inv in H as (ax & Hdraw & H). inversion H; subst.
  eexists a, _. split; [assumption|]. split; [|reflexivity].
  exists ls_cells, str_label, ax.
  repeat split; try assumption. by apply list_get_Ok_inv.
Qed.

Lemma cells_with_sta_spec (data : SpikeOutputs) (ls_cells : list Z) (c : Z) :
  c ∈ cells_with_sta data ls_cells ↔ c ∈ ls_cells ∧ is_Some (d_sta data !! c).
Proof.
  unfold cells_with_sta, has_sta. rewrite list_elem_of_filter.
  rewrite bool_decide_eq_true. tauto.
Qed.

(** ** [plot_type_tcs] and its [d_IDs] argument *)

Lemma dict_get_absent {V} (d : dict V) (k : string) :
  k ∉ dict_keys d → dict_get d k = Err (KeyError_str k).
Proof.
  induction d as [|[k' v] d IH]; simpl; intros Hk; [reflexivity|].
  rewrite not_elem_of_cons in Hk. destruct Hk as [Hne Hk].
  destruct (decide (k = k')); [contradiction|]. by apply IH.
Qed.

Lemma dict_get_present {V} (d : dict V) (k : string) :
  k ∈ dict_keys d → is_Ok (dict_get d k).
Proof.
  induction d as [|[k' v] d IH]; simpl; intros Hk.
  - by apply elem_of_nil in Hk.
  - destruct (decide (k = k')); [by eexists|].
    apply elem_of_cons in Hk as [?|Hk]; [contradiction|]. by apply IH.
Qed.

Lemma for_enumerate_app {St A} (body : nat → A → St → result St)
    (xs ys : list A) (i : nat) (s : St) :
  for_enumerate body i (xs ++ ys) s
  = (s' ← for_enumerate body i xs s; for_enumerate body (i + length xs) ys s').
Proof.
  revert i s. induction xs as [|x xs IH]; intros i s; simpl.
  - by rewrite Nat.add_0_r.
  - destruct (body i x s) as [s1|e]; [|reflexivity].
    rewrite !bind_Ok, IH. by replace (S i + length xs)%nat
                               with (i + S (length xs))%nat by lia.
Qed.

Lemma type_tcs_panel_absent (data : SpikeOutputs) (ls_colors : list PyColor)
    (alpha : float) (b_plot_mean : bool) (ls_RGC_labels : list string)
    (lw : float) (i : nat) (str_key : string) (axs : AxsVal) :
  str_key ∉ dict_keys (d_main_IDs data) →
  type_tcs_panel data ls_colors alpha b_plot_mean ls_RGC_labels lw i str_key axs
  = Err (KeyError_str str_key).
Proof.
  intros Hk. unfold type_tcs_panel. by rewrite (dict_get_absent _ _ Hk).
Qed.

(** C9. [plot_type_tcs] does not use a caller-supplied [d_IDs] to select
    the cells: [d_IDs] only supplies the list of panel keys (when
    [ls_RGC_keys] is not given), and every panel reads its cells from
    [data.types.d_main_IDs]. A key of [d_IDs] that is absent from
    [data.types.d_main_IDs] therefore makes the call fail, with the
    key-lookup fault for that key as soon as the panels before it have been
    drawn. *)
Theorem plot_type_tcs_ignores_d_IDs :
  (∀ data ls_RGC_keys axs ls_colors alpha b_plot_mean ls_RGC_labels lw d_IDs,
     plot_type_tcs data ls_RGC_keys axs ls_colors alpha b_plot_mean
       ls_RGC_labels lw d_IDs
     = plot_type_tcs data
         (Some (default (dict_keys (default (d_main_IDs data) d_IDs))
                  ls_RGC_keys))
         axs ls_colors alpha b_plot_mean ls_RGC_labels lw None) ∧
  (∀ data axs ls_colors alpha b_plot_mean ls_RGC_labels lw
     (d1 d2 : dict (list Z)),
     dict_keys d1 = dict_keys d2 →
     plot_type_tcs data None axs ls_colors alpha b_plot_mean ls_RGC_labels lw
       (Some d1)
     = plot_type_tcs data None axs ls_colors alpha b_plot_mean ls_RGC_labels lw
         (Some d2)) ∧
  (∀ data axs ls_colors alpha b_plot_mean ls_RGC_labels lw (d : dict (list Z))
     str_key,
     str_key ∈ dict_keys d →
     str_key ∉ dict_keys (d_main_IDs data) →
     is_Err (plot_type_tcs data None axs ls_colors alpha b_plot_mean
               ls_RGC_labels lw (Some d)) ∧
     ∀ pre post axs0 axs1,
       dict_keys d = pre ++ str_key :: post →
       type_tcs_axes data (dict_keys d) axs = Ok axs0 →
       for_enumerate
         (type_tcs_panel data (default [PStr "C1"; PStr "C0"] ls_colors) alpha
            b_plot_mean (default (dict_keys d) ls_RGC_labels) lw)
         0 pre axs0 = Ok axs1 →
       plot_type_tcs data None axs ls_colors alpha b_plot_mean ls_RGC_labels
         lw (Some d) = Err (KeyError_str str_key)).
Proof.
  split; [|split].
  - reflexivity.
  - intros data axs ls_colors alpha b_plot_mean ls_RGC_labels lw d1 d2 Hkeys.
    unfold plot_type_tcs. simpl. by rewrite Hkeys.
  - intros data axs ls_colors alpha b_plot_mean ls_RGC_labels lw d str_key
      Hin Habs. split.
    + destruct (plot_type_tcs data None axs ls_colors alpha b_plot_mean
                  ls_RGC_labels lw (Some d)) as [axs'|e] eqn:Hrun;
        [|by exists e].
      exfalso. unfold plot_type_tcs in Hrun. simpl in Hrun.
      apply bind_Ok_inv in Hrun as (axs0 & _ & Hloop).
      destruct (for_enumerate_panels _ _
                  (type_tcs_panel_inv data _ alpha b_plot_mean _ lw)
                  _ _ _ _ Hloop) as [_ Hpanels].
      apply list_elem_of_lookup in Hin as [i Hi].
      destruct (Hpanels i str_key Hi)
        as (a & a' & _ & (cells & lbl & ax & Hget & _) & _).
      rewrite (dict_get_absent _ _ Habs) in Hget. discriminate.
    + intros pre post axs0 axs1 Hsplit Haxes Hpre.
      unfold plot_type_tcs. simpl. rewrite Haxes, bind_Ok.
      rewrite Hsplit at 2. rewrite for_enumerate_app, Hpre, bind_Ok. simpl.
      by rewrite type_tcs_panel_absent.
Qed.

(** The caller lists cluster 3 alone under OnP and adds a type unknown to
    the recording: the OnP panel still shows the two fitted cells of
    [d_main_IDs], and the unknown type raises the key-lookup fault. *)
Example plot_type_tcs_d_IDs_demo :
  titles (plot_type_tcs demo None (Some (AxsOne [])) None 0.6 false None 1
            (Some [("OnP", [3])]))
  = ["OnP (n=2) timecourses"] ∧
  plot_type_tcs demo None (Some two_axes) None 0.6 false None 1
    (Some [("OnP", [3]); ("Ghost", [7])])
  = Err (KeyError_str "Ghost").
Proof. split; vm_compute; reflexivity. Qed.

(** ** Mean and standard deviation along the first axis *)

Lemma nth_zip_with (f : float → float → float) (u v : list float) (j : nat) :
  (j < length u)%nat → (j < length v)%nat →
  nth j (zip_with f u v) 0%float = f (nth j u 0%float) (nth j v 0%float).
Proof.
  intros Hu Hv. rewrite !nth_lookup, lookup_zip_with.
  destruct (lookup_lt_is_Some_2 u j Hu) as [x ->].
  destruct (lookup_lt_is_Some_2 v j Hv) as [y ->]. reflexivity.
Qed.

Lemma list_as_map_nth (v : list float) :
  v = map (λ j, nth j v 0%float) (seq 0 (length v)).
Proof.
  apply nth_ext with (d := 0%float) (d' := 0%float).
  - by rewrite List.length_map, List.length_seq.
  - intros n Hn.
    rewrite (nth_indep (map (λ j, nth j v 0%float) (seq 0 (length v)))
               0%float (nth 0 v 0%float))
      by (by rewrite List.length_map, List.length_seq).
    rewrite (map_nth (λ j, nth j v 0%float) (seq 0 (length v)) 0%nat n).
    by rewrite seq_nth.
Qed.

(** Accumulating the rows one after the other sums every column from top to
    bottom. *)
Lemma fold_rows_columns (c : nat) :
  ∀ (rows : list (list float)) (acc : list float),
    length acc = c → Forall (λ r, length r = c) rows →
    fold_left (zip_with PrimFloat.add) rows acc
    = map (λ j, fold_left PrimFloat.add (column j rows) (nth j acc 0%float))
        (seq 0 c).
Proof.
  induction rows as [|r rows IH]; intros acc Hacc Hrows; simpl.
  - subst c. apply list_as_map_nth.
  - apply Forall_cons in Hrows as [Hr Hrows].
    rewrite IH; [|by rewrite length_zip_with; lia|assumption].
    apply map_ext_in. intros j Hj. apply in_seq in Hj.
    by rewrite nth_zip_with by lia.
Qed.

Lemma sum_rows_columns (c : nat) (rows : list (list float)) :
  Forall (λ r, length r = c) rows →
  sum_rows c rows = map (λ j, sum_vec (column j rows)) (seq 0 c).
Proof.
  intros Hrows. unfold sum_rows.
  rewrite (fold_rows_columns c) by (by rewrite ?length_replicate).
  apply map_ext_in. intros j Hj. apply in_seq in Hj. unfold sum_vec.
  f_equal. rewrite nth_lookup, lookup_replicate_2 by lia. reflexivity.
Qed.

Lemma column_length (j : nat) (rows : list (list float)) :
  length (column j rows) = length rows.
Proof. apply List.length_map. Qed.

(** [np.mean(a, axis=0)] of a 2-D array is the mean of each column. *)
Lemma np_mean_axis0_columns (c : nat) (rows : list (list float)) :
  Forall (λ r, length r = c) rows →
  np_mean_axis0 (Mat c rows) = Ok (Vec (col_means c rows)).
Proof.
  intros Hrows. simpl. rewrite (sum_rows_columns c rows Hrows), map_map.
  unfold col_means, arith_mean. do 2 f_equal.
  apply map_ext. intros j. by rewrite column_length.
Qed.

Lemma nth_col_means (c : nat) (rows : list (list float)) (j : nat) :
  (j < c)%nat → nth j (col_means c rows) 0%float = arith_mean (column j rows).
Proof.
  intros Hj. unfold col_means.
  rewrite (nth_indep _ 0%float (arith_mean (column 0 rows)))
    by (by rewrite List.length_map, List.length_seq).
  rewrite (map_nth (λ j, arith_mean (column j rows)) (seq 0 c) 0%nat j).
  by rewrite seq_nth.
Qed.

Lemma nth_map_float (f : float → float) (v : list float) (j : nat) :
  (j < length v)%nat → nth j (map f v) 0%float = f (nth j v 0%float).
Proof.
  intros Hj. rewrite (nth_indep _ 0%float (f 0%float))
    by (by rewrite List.length_map).
  apply map_nth.
Qed.

(** [np.std(a, axis=0)] of a 2-D array is the population standard deviation
    of each column. *)
Lemma np_std_axis0_columns (c : nat) (rows : list (list float)) :
  Forall (λ r, length r = c) rows →
  np_std_axis0 (Mat c rows) = Ok (Vec (col_stds c rows)).
Proof.
  intros Hrows. simpl.
  assert (Hmean : map (λ s, (s / float_of_nat (length rows))%float)
                    (sum_rows c rows) = col_means c rows).
  { pose proof (np_mean_axis0_columns c rows Hrows) as H. simpl in H.
    by inversion H. }
  rewrite Hmean.
  assert (Hlen : length (col_means c rows) = c).
  { unfold col_means. by rewrite List.length_map, List.length_seq. }
  rewrite sum_rows_columns.
  2:{ rewrite !Forall_map. eapply Forall_impl; [exact Hrows|].
      intros r Hr. simpl in *. rewrite List.length_map, length_zip_with. lia. }
  rewrite map_map. unfold col_stds. do 2 f_equal.
  apply map_ext_in. intros j Hj. apply in_seq in Hj.
  unfold pop_std, arith_mean at 1. rewrite List.length_map, column_length.
  do 3 f_equal. unfold column. rewrite !map_map.
  apply map_ext_in. intros r Hr.
  rewrite Forall_forall in Hrows. specialize (Hrows r).
  assert (Hlr : length r = c) by (apply Hrows; by apply list_elem_of_In).
  rewrite nth_map_float by (rewrite length_zip_with; lia).
  rewrite nth_zip_with by lia.
  rewrite nth_col_means by lia. reflexivity.
Qed.

(** ** The mean traces of [plot_type_tcs] *)

Lemma np_array_rect (T : nat) (r : list float) (rows : list (list float)) :
  Forall (λ r', length r' = T) (r :: rows) →
  np_array (r :: rows) = Ok (Mat T (r :: rows)).
Proof.
  intros H. apply Forall_cons in H as [Hr Hrows]. unfold np_array.
  replace (forallb (λ r', Nat.eqb (length r') (length r)) rows) with true.
  - by rewrite Hr.
  - symmetry. apply forallb_forall. intros r' Hin.
    rewrite Forall_forall in Hrows. apply Nat.eqb_eq.
    rewrite Hr. apply Hrows. by apply list_elem_of_In.
Qed.

Lemma channel_rows (d_sta : gmap Z STAFit) (channel : STAFit → list float)
    (ls_cells : list Z) (fits : list STAFit) :
  Forall2 (λ id fit, d_sta !! id = Some fit) ls_cells fits →
  list_comp (λ n_ID, fit ← sta_get d_sta n_ID; Ok (channel fit)) ls_cells
  = Ok (map channel fits).
Proof.
  induction 1 as [|id fit ls_cells fits Hfit _ IH]; simpl; [reflexivity|].
  assert (Hget : sta_get d_sta id = Ok fit) by (unfold sta_get; by rewrite Hfit).
  by rewrite Hget, !bind_Ok, IH.
Qed.

Lemma col_means_length (c : nat) (rows : list (list float)) :
  length (col_means c rows) = c.
Proof. unfold col_means. by rewrite List.length_map, List.length_seq. Qed.

Lemma col_stds_length (c : nat) (rows : list (list float)) :
  length (col_stds c rows) = c.
Proof. unfold col_stds. by rewrite List.length_map, List.length_seq. Qed.

Lemma tcs_plot_mean_ok (d_sta : gmap Z STAFit) (channel : STAFit → list float)
    (ls_cells : list Z) (fits : list STAFit) (ls_colors : list PyColor)
    (k : nat) (alpha lw : float) (ax : Axes) (c : PyColor) (T : nat) :
  Forall2 (λ id fit, d_sta !! id = Some fit) ls_cells fits →
  ls_cells ≠ [] →
  Forall (λ fit, length (channel fit) = T) fits →
  ls_colors !! k = Some c →
  tcs_plot_mean d_sta channel ls_cells ls_colors k alpha lw ax
  = Ok (ax ++ mean_band_calls T (map channel fits) c alpha lw).
Proof.
  intros Hfits Hne Hlen Hc. unfold tcs_plot_mean.
  rewrite (channel_rows _ _ _ _ Hfits), bind_Ok.
  assert (Hrect : Forall (λ r, length r = T) (map channel fits)).
  { by rewrite Forall_map. }
  destruct fits as [|fit fits].
  { apply Forall2_nil_inv_r in Hfits. contradiction. }
  change (map channel (fit :: fits))
    with (channel fit :: map channel fits) in *.
  rewrite (np_array_rect T _ _ Hrect), bind_Ok.
  rewrite (np_mean_axis0_columns T _ Hrect), bind_Ok.
  rewrite (np_std_axis0_columns T _ Hrect), bind_Ok.
  rewrite (list_get_Some _ _ _ Hc), !bind_Ok.
  cbn [nd_len]. rewrite bind_Ok. cbn [nd_zip].
  rewrite col_means_length, col_stds_length, Nat.eqb_refl, !bind_Ok.
  rewrite <- app_assoc. reflexivity.
Qed.

Lemma tcs_draw_mean_ok (d_sta : gmap Z STAFit) (ls_colors : list PyColor)
    (alpha lw : float) (ls_cells : list Z) (fits : list STAFit) (ax : Axes)
    (c0 c1 : PyColor) (Tr Tb : nat) :
  Forall2 (λ id fit, d_sta !! id = Some fit) ls_cells fits →
  ls_cells ≠ [] →
  Forall (λ fit, length (RedTimeCourse fit) = Tr) fits →
  Forall (λ fit, length (BlueTimeCourse fit) = Tb) fits →
  ls_colors !! 0%nat = Some c0 →
  ls_colors !! 1%nat = Some c1 →
  tcs_draw d_sta ls_colors alpha true lw ls_cells ax
  = Ok (ax ++ mean_band_calls Tr (map RedTimeCourse fits) c0 alpha lw
           ++ mean_band_calls Tb (map BlueTimeCourse fits) c1 alpha lw).
Proof.
  intros Hfits Hne Hr Hb Hc0 Hc1. unfold tcs_draw.
  rewrite (tcs_plot_mean_ok _ _ _ _ _ _ _ _ _ _ _ Hfits Hne Hr Hc0), bind_Ok.
  rewrite (tcs_plot_mean_ok _ _ _ _ _ _ _ _ _ _ _ Hfits Hne Hb Hc1).
  by rewrite <- app_assoc.
Qed.

(** C5. In the mean-plotting mode of [plot_type_tcs], what is plotted for
    each of the two channels is the element-wise mean of the cells'
    waveforms, and the band runs from mean - std to mean + std with std the
    element-wise population standard deviation; for two cells with waveforms
    [[1,2,3]] and [[3,2,1]] the mean is [[2,2,2]] and the standard deviation
    [[1,0,1]], exactly. *)
Theorem tcs_mean_band_correct :
  (∀ (d_sta : gmap Z STAFit) (ls_colors : list PyColor) (alpha lw : float)
     (ls_cells : list Z) (fits : list STAFit) (ax : Axes) (c0 c1 : PyColor)
     (Tr Tb : nat),
     Forall2 (λ id fit, d_sta !! id = Some fit) ls_cells fits →
     ls_cells ≠ [] →
     Forall (λ fit, length (RedTimeCourse fit) = Tr) fits →
     Forall (λ fit, length (BlueTimeCourse fit) = Tb) fits →
     ls_colors !! 0%nat = Some c0 →
     ls_colors !! 1%nat = Some c1 →
     tcs_draw d_sta ls_colors alpha true lw ls_cells ax
     = Ok (ax ++ mean_band_calls Tr (map RedTimeCourse fits) c0 alpha lw
              ++ mean_band_calls Tb (map BlueTimeCourse fits) c1 alpha lw)) ∧
  (∀ (T : nat) (rows : list (list float)) (j : nat),
     (j < T)%nat →
     nth j (col_means T rows) 0%float = arith_mean (column j rows) ∧
     nth j (col_stds T rows) 0%float = pop_std (column j rows)) ∧
  col_means 3 [[1; 2; 3]; [3; 2; 1]]%float = [2; 2; 2]%float ∧
  col_stds 3 [[1; 2; 3]; [3; 2; 1]]%float = [1; 0; 1]%float ∧
  tcs_plot_mean demo_sta RedTimeCourse [7; 3] [PStr "C1"; PStr "C0"] 0 0.6 1 []
  = Ok [Plot None (Vec [2; 2; 2]%float) None (PStr "C1") None None (Some 1%float);
        FillBetween (XArange 3) (Vec [1; 2; 1]%float) (Vec [3; 2; 3]%float)
          (PStr "C1") 0.6].
Proof.
  split; [|split; [|split; [|split]]].
  - intros d_sta ls_colors alpha lw ls_cells fits ax c0 c1 Tr Tb
      Hfits Hne Hr Hb Hc0 Hc1.
    by apply tcs_draw_mean_ok.
  - intros T rows j Hj. split; [by apply nth_col_means|].
    unfold col_stds.
    rewrite (nth_indep _ 0%float (pop_std (column 0 rows)))
      by (by rewrite List.length_map, List.length_seq).
    rewrite (map_nth (λ j, pop_std (column j rows)) (seq 0 T) 0%nat j).
    by rewrite seq_nth.
  - vm_compute. reflexivity.
  - vm_compute. reflexivity.
  - vm_compute. reflexivity.
Qed.

(** ** Mean mode on empty and on ragged groups *)

(** With no cell left, [np.array([])] is the empty 1-D array, its mean along
    axis 0 is a 0-d NaN, and [len(mean)] is refused. *)
Lemma tcs_plot_mean_empty (d_sta : gmap Z STAFit)
    (channel : STAFit → list float) (ls_colors : list PyColor) (k : nat)
    (alpha lw : float) (ax : Axes) :
  tcs_plot_mean d_sta channel [] ls_colors k alpha lw ax
  = match ls_colors !! k with
    | Some _ => Err TypeError
    | None => Err IndexError
    end.
Proof.
  unfold tcs_plot_mean, list_get. simpl.
  destruct (ls_colors !! k); reflexivity.
Qed.

Lemma tcs_draw_mean_empty (d_sta : gmap Z STAFit) (ls_colors : list PyColor)
    (alpha lw : float) (ax : Axes) :
  tcs_draw d_sta ls_colors alpha true lw [] ax
  = match ls_colors !! 0%nat with
    | Some _ => Err TypeError
    | None => Err IndexError
    end.
Proof.
  unfold tcs_draw. rewrite tcs_plot_mean_empty.
  destruct (ls_colors !! 0%nat); reflexivity.
Qed.

Lemma cells_with_sta_fits (data : SpikeOutputs) (ls_cells : list Z) :
  ∃ fits, Forall2 (λ id fit, d_sta data !! id = Some fit)
            (cells_with_sta data ls_cells) fits.
Proof.
  assert (H : Forall (λ id, is_Some (d_sta data !! id))
                (cells_with_sta data ls_cells)).
  { apply Forall_forall. intros id Hin.
    by apply cells_with_sta_spec in Hin as [_ ?]. }
  induction H as [|id l [fit Hfit] _ [fits IH]].
  - exists []. constructor.
  - exists (fit :: fits). by constructor.
Qed.

(** C10 (as the code has it). In the mean-plotting mode of [plot_type_tcs],
    a requested type whose filtered cell list is empty makes the call fail
    (the panel's own fault being the [TypeError] of [len] on the 0-d mean);
    when the filtered list of a type is non-empty, the waveforms of its
    cells have one common length per channel and two trace colours are
    available, the mean-mode computation of its panel completes. *)
Theorem plot_type_tcs_mean_mode_faults :
  (∀ data ls_RGC_keys axs ls_colors alpha ls_RGC_labels lw d_IDs str_key
     ls_cells,
     str_key ∈ default (dict_keys (default (d_main_IDs data) d_IDs)) ls_RGC_keys →
     dict_get (d_main_IDs data) str_key = Ok ls_cells →
     cells_with_sta data ls_cells = [] →
     is_Err (plot_type_tcs data ls_RGC_keys axs ls_colors alpha true
               ls_RGC_labels lw d_IDs)) ∧
  (∀ d_sta ls_colors alpha lw ax c0,
     ls_colors !! 0%nat = Some c0 →
     tcs_draw d_sta ls_colors alpha true lw [] ax = Err TypeError) ∧
  (∀ data ls_colors alpha lw ls_cells ax (Tr Tb : nat),
     cells_with_sta data ls_cells ≠ [] →
     (∀ id fit, id ∈ cells_with_sta data ls_cells →
                d_sta data !! id = Some fit →
                length (RedTimeCourse fit) = Tr ∧
                length (BlueTimeCourse fit) = Tb) →
     (2 ≤ length ls_colors)%nat →
     is_Ok (tcs_draw (d_sta data) ls_colors alpha true lw
              (cells_with_sta data ls_cells) ax)).
Proof.
  split; [|split].
  - intros data ls_RGC_keys axs ls_colors alpha ls_RGC_labels lw d_IDs str_key
      ls_cells Hin Hget Hempty.
    destruct (plot_type_tcs data ls_RGC_keys axs ls_colors alpha true
                ls_RGC_labels lw d_IDs) as [axs'|e] eqn:Hrun; [|by exists e].
    exfalso. unfold plot_type_tcs in Hrun.
    apply bind_Ok_inv in Hrun as (axs0 & _ & Hloop).
    destruct (for_enumerate_panels _ _
                (type_tcs_panel_inv data _ alpha true _ lw)
                _ _ _ _ Hloop) as [_ Hpanels].
    apply list_elem_of_lookup in Hin as [i Hi].
    destruct (Hpanels i str_key Hi)
      as (a & a' & _ & (cells & lbl & ax & Hget' & _ & Hdraw & _) & _).
    rewrite Hget in Hget'. inversion Hget'; subst cells.
    rewrite Hempty, tcs_draw_mean_empty in Hdraw.
    destruct (_ !! 0%nat); discriminate.
  - intros d_sta ls_colors alpha lw ax c0 Hc0.
    by rewrite tcs_draw_mean_empty, Hc0.
  - intros data ls_colors alpha lw ls_cells ax Tr Tb Hne Hlen Hcols.
    destruct (cells_with_sta_fits data ls_cells) as [fits Hfits].
    destruct (lookup_lt_is_Some_2 ls_colors 0) as [c0 Hc0]; [lia|].
    destruct (lookup_lt_is_Some_2 ls_colors 1) as [c1 Hc1]; [lia|].
    assert (Hrect : Forall (λ fit, length (RedTimeCourse fit) = Tr ∧
                                   length (BlueTimeCourse fit) = Tb) fits).
    { apply Forall_lookup. intros i fit Hi.
      destruct (Forall2_lookup_r _ _ _ _ _ Hfits Hi) as (id & Hid & Hfit).
      apply (Hlen id fit); [|assumption].
      apply list_elem_of_lookup. eauto. }
    apply Forall_and in Hrect as [Hr Hb].
    rewrite (tcs_draw_mean_ok _ _ alpha lw _ _ ax _ _ _ _
               Hfits Hne Hr Hb Hc0 Hc1).
    by eexists.
Qed.

(** Non-empty groups on which the mean mode fails: the filtered list of the
    type is not empty, yet [np.array] refuses the ragged red waveforms; and
    with an empty [ls_colors] the red trace has no colour to read. *)
Lemma mean_mode_fails_on_nonempty_groups :
  cells_with_sta ragged [1; 2] = [1; 2] ∧
  tcs_draw (d_sta ragged) [PStr "C1"; PStr "C0"] 0.6 true 1
    (cells_with_sta ragged [1; 2]) [] = Err ValueError ∧
  plot_type_tcs ragged (Some ["OnP"]) (Some (AxsOne [])) None 0.6 true None 1
    None = Err ValueError ∧
  cells_with_sta demo [7; 9; 3] = [7; 3] ∧
  tcs_draw (d_sta demo) [] 0.6 true 1
    (cells_with_sta demo [7; 9; 3]) [] = Err IndexError ∧
  plot_type_tcs demo (Some ["OnP"]) (Some (AxsOne [])) (Some []) 0.6 true
    None 1 None = Err IndexError.
Proof. repeat split; vm_compute; reflexivity. Qed.

(** ** [plot_crf] *)

(** A loop whose body only appends calls appends, in order, the calls of
    each of its iterations. *)
Lemma for_enumerate_appends {A} (Q : nat → A → list call → Prop)
    (body : nat → A → Axes → result Axes) :
  (∀ i x ax ax', body i x ax = Ok ax' → ∃ calls, Q i x calls ∧ ax' = ax ++ calls) →
  ∀ xs i ax ax',
    for_enumerate body i xs ax = Ok ax' →
    ∃ pieces : list (list call),
      ax' = ax ++ concat pieces ∧ length pieces = length xs ∧
      ∀ j x, xs !! j = Some x →
        ∃ calls, pieces !! j = Some calls ∧ Q (i + j)%nat x calls.
Proof.
  intros Hbody. induction xs as [|x xs IH]; intros i ax ax' Hrun;
    simpl in Hrun.
  - inversion Hrun; subst. exists []. simpl. rewrite app_nil_r.
    repeat split. intros j x Hj. discriminate.
  - apply bind_Ok_inv in Hrun as (ax1 & H1 & Hrest).
    destruct (Hbody _ _ _ _ H1) as (calls & HQ & ->).
    destruct (IH _ _ _ Hrest) as (pieces & -> & Hlen & Hpieces).
    exists (calls :: pieces). simpl. rewrite <- app_assoc.
    split; [reflexivity|]. split; [by rewrite Hlen|].
    intros [|j] y Hj; simpl in Hj.
    + inversion Hj; subst. rewrite Nat.add_0_r. eauto.
    + replace (i + S j)%nat with (S i + j)%nat by lia. by apply Hpieces.
Qed.

Lemma take_rows_rect (crf : CRF) (type_idx : list nat)
    (rows : list (list float)) :
  crf_wf crf → list_comp (list_get (amp_4Hz crf)) type_idx = Ok rows →
  Forall (λ r, length r = amp_4Hz_ncols crf) rows.
Proof.
  intros Hwf Hrows. apply Forall_lookup. intros i r Hi.
  assert (Hlen := list_comp_length _ _ _ Hrows).
  destruct (lookup_lt_is_Some_2 type_idx i) as [k Hk].
  { apply lookup_lt_Some in Hi. lia. }
  destruct (list_comp_lookup _ _ _ _ _ Hrows Hk) as (r' & Hr' & Hlk).
  rewrite Hi in Hlk. inversion Hlk; subst r'.
  apply list_get_Ok_inv in Hr'.
  unfold crf_wf in Hwf. rewrite Forall_lookup in Hwf. by eapply Hwf.
Qed.

Lemma crf_type_inv (map_ids_to_idx : list Z → list Z → result (list nat))
    (spikeout : SpikeOutputs) (idx : nat) (str_type : string) (ax ax' : Axes) :
  crf_wf (d_crf spikeout) →
  crf_type map_ids_to_idx spikeout idx str_type ax = Ok ax' →
  ∃ type_ids type_idx rows,
    dict_get (d_main_IDs spikeout) str_type = Ok type_ids ∧
    map_ids_to_idx type_ids (crf_cluster_id (d_crf spikeout)) = Ok type_idx ∧
    list_comp (list_get (amp_4Hz (d_crf spikeout))) type_idx = Ok rows ∧
    ax' = ax ++ crf_calls spikeout idx str_type rows.
Proof.
  intros Hwf H. unfold crf_type in H.
  apply bind_Ok_inv in H as (type_ids & Hids & H).
  apply bind_Ok_inv in H as (type_idx & Hidx & H).
  apply bind_Ok_inv in H as (arr & Harr & H).
  unfold take_rows in Harr.
  apply bind_Ok_inv in Harr as (rows & Hrows & [= <-]).
  pose proof (take_rows_rect _ _ _ Hwf Hrows) as Hrect.
  rewrite (np_mean_axis0_columns _ _ Hrect), bind_Ok in H.
  rewrite (np_std_axis0_columns _ _ Hrect), bind_Ok in H.
  cbn [nd_zip] in H.
  rewrite col_means_length, col_stds_length, Nat.eqb_refl, !bind_Ok in H.
  inversion H; subst ax'.
  exists type_ids, type_idx, rows. repeat split; try assumption.
  by rewrite <- app_assoc.
Qed.

Lemma crf_type_ok (map_ids_to_idx : list Z → list Z → result (list nat))
    (spikeout : SpikeOutputs) (idx : nat) (str_type : string) (ax : Axes)
    (type_ids : list Z) (type_idx : list nat) (rows : list (list float)) :
  crf_wf (d_crf spikeout) →
  dict_get (d_main_IDs spikeout) str_type = Ok type_ids →
  map_ids_to_idx type_ids (crf_cluster_id (d_crf spikeout)) = Ok type_idx →
  list_comp (list_get (amp_4Hz (d_crf spikeout))) type_idx = Ok rows →
  crf_type map_ids_to_idx spikeout idx str_type ax
  = Ok (ax ++ crf_calls spikeout idx str_type rows).
Proof.
  intros Hwf Hids Hidx Hrows. unfold crf_type, take_rows.
  rewrite Hids, bind_Ok, Hidx, bind_Ok, Hrows, !bind_Ok.
  pose proof (take_rows_rect _ _ _ Hwf Hrows) as Hrect.
  rewrite (np_mean_axis0_columns _ _ Hrect), bind_Ok.
  rewrite (np_std_axis0_columns _ _ Hrect), bind_Ok.
  cbn [nd_zip].
  rewrite col_means_length, col_stds_length, Nat.eqb_refl, !bind_Ok.
  by rewrite <- app_assoc.
Qed.

(** C4. In [plot_crf], for each requested type the mean plotted at each
    contrast level is the arithmetic mean of the type's rows of the
    amplitude matrix, and the shaded band runs from mean - std to
    mean + std, std being the population standard deviation of those rows;
    for a single type mapping to the two rows of [[1,2,3],[3,2,1]] the
    plotted mean is [[2,2,2]]. *)
Theorem plot_crf_mean_band :
  (∀ map_ids_to_idx spikeout idx str_type ax type_ids type_idx rows,
     crf_wf (d_crf spikeout) →
     dict_get (d_main_IDs spikeout) str_type = Ok type_ids →
     map_ids_to_idx type_ids (crf_cluster_id (d_crf spikeout)) = Ok type_idx →
     list_comp (list_get (amp_4Hz (d_crf spikeout))) type_idx = Ok rows →
     crf_type map_ids_to_idx spikeout idx str_type ax
     = Ok (ax ++ crf_calls spikeout idx str_type rows)) ∧
  (∀ map_ids_to_idx spikeout ax ls_types ax',
     crf_wf (d_crf spikeout) →
     plot_crf map_ids_to_idx spikeout ax ls_types = Ok ax' →
     ∃ pieces : list (list call),
       ax' = default (plt_subplots_1 5 5) ax ++ concat pieces ++
             [SetXlabel "Contrast";
              SetXticks (crf_contrast (d_crf spikeout));
              SetYlabel "F1 peak-trough amplitude (Hz)"; Legend] ∧
       ∀ idx str_type,
         default (ls_RGC_labels spikeout) ls_types !! idx = Some str_type →
         ∃ type_ids type_idx rows,
           dict_get (d_main_IDs spikeout) str_type = Ok type_ids ∧
           map_ids_to_idx type_ids (crf_cluster_id (d_crf spikeout))
             = Ok type_idx ∧
           list_comp (list_get (amp_4Hz (d_crf spikeout))) type_idx = Ok rows ∧
           pieces !! idx = Some (crf_calls spikeout idx str_type rows)) ∧
  (∀ (c : nat) (rows : list (list float)) (j : nat),
     (j < c)%nat →
     nth j (col_means c rows) 0%float = arith_mean (column j rows) ∧
     nth j (col_stds c rows) 0%float = pop_std (column j rows)) ∧
  plot_crf map_ids_to_idx_spec crf_demo (Some []) (Some ["OnP"])
  = Ok [Plot (Some [0.25; 0.5; 1]%float) (Vec [2; 2; 2]%float) (Some "o")
          (PStr "C0") (Some "OnP") None None;
        FillBetween (XVals [0.25; 0.5; 1]%float) (Vec [1; 2; 1]%float)
          (Vec [3; 2; 3]%float) (PStr "C0") 0.2;
        SetXlabel "Contrast"; SetXticks [0.25; 0.5; 1]%float;
        SetYlabel "F1 peak-trough amplitude (Hz)"; Legend].
Proof.
  split; [|split; [|split]].
  - intros map_ids_to_idx spikeout idx str_type ax type_ids type_idx rows
      Hwf Hids Hidx Hrows.
    by apply (crf_type_ok _ _ _ _ _ type_ids type_idx rows).
  - intros map_ids_to_idx spikeout ax ls_types ax' Hwf Hrun.
    unfold plot_crf in Hrun.
    apply bind_Ok_inv in Hrun as (ax1 & Hloop & [= <-]).
    destruct (for_enumerate_appends
                (λ idx str_type calls,
                   ∃ type_ids type_idx rows,
                     dict_get (d_main_IDs spikeout) str_type = Ok type_ids ∧
                     map_ids_to_idx type_ids (crf_cluster_id (d_crf spikeout))
                       = Ok type_idx ∧
                     list_comp (list_get (amp_4Hz (d_crf spikeout))) type_idx
                       = Ok rows ∧
                     calls = crf_calls spikeout idx str_type rows)
                (crf_type map_ids_to_idx spikeout)) with
      (xs := default (ls_RGC_labels spikeout) ls_types) (i := 0%nat)
      (ax := default (plt_subplots_1 5 5) ax) (ax' := ax1)
      as (pieces & -> & _ & Hpieces); [|assumption|].
    { intros i x a a' Ha.
      destruct (crf_type_inv _ _ _ _ _ _ Hwf Ha)
        as (ids & idxs & rows & ? & ? & ? & ->).
      eexists. split; [|reflexivity]. by exists ids, idxs, rows. }
    exists pieces. split; [by rewrite <- app_assoc|].
    intros idx str_type Hidx.
    destruct (Hpieces idx str_type Hidx)
      as (calls & Hcalls & ids & idxs & rows & ? & ? & ? & ->).
    by exists ids, idxs, rows.
  - intros c rows j Hj. split; [by apply nth_col_means|].
    unfold col_stds.
    rewrite (nth_indep _ 0%float (pop_std (column 0 rows)))
      by (by rewrite List.length_map, List.length_seq).
    rewrite (map_nth (λ j, pop_std (column j rows)) (seq 0 c) 0%nat j).
    by rewrite seq_nth.
  - vm_compute. reflexivity.
Qed.

(** ** The grid renderers draw the cells that have a fit *)

Lemma cells_with_sta_count (data : SpikeOutputs) (ls_cells : list Z) (c : Z) :
  count_occ Z.eq_dec (cells_with_sta data ls_cells) c
  = match d_sta data !! c with
    | Some _ => count_occ Z.eq_dec ls_cells c
    | None => 0%nat
    end.
Proof.
  unfold cells_with_sta. induction ls_cells as [|x l IH].
  - simpl. by destruct (d_sta data !! c).
  - rewrite filter_cons. unfold has_sta at 1.
    destruct (decide (bool_decide (is_Some (d_sta data !! x)) = true))
      as [Hx|Hx].
    + apply bool_decide_eq_true in Hx as [fit Hfit]. simpl.
      destruct (Z.eq_dec x c) as [->|Hne].
      * rewrite IH, Hfit. reflexivity.
      * exact IH.
    + rewrite IH. simpl. destruct (Z.eq_dec x c) as [->|Hne]; [|reflexivity].
      destruct (d_sta data !! c) as [fit|] eqn:Hfit; [|reflexivity].
      exfalso. apply Hx, bool_decide_eq_true. by eexists.
Qed.

Lemma get_rf_ells_fits (L : list Z) (F : gmap Z STAFit) (g m : float)
    (ells : list Ellipse) :
  get_rf_ells L F g m = Ok ells →
  Forall2 (λ id e, ∃ fit, F !! id = Some fit ∧ e = ell_of_fit fit g m) L ells.
Proof.
  unfold get_rf_ells. revert ells.
  induction L as [|id L IH]; intros ells H; simpl in H.
  - inversion H. constructor.
  - apply bind_Ok_inv in H as (e & He & H).
    apply bind_Ok_inv in H as (es & Hes & H). inversion H; subst.
    constructor; [|by apply IH].
    destruct (F !! id) as [fit|] eqn:Hfit.
    + rewrite (rf_ell_Some _ _ _ _ _ Hfit) in He. inversion He. eauto.
    + rewrite (rf_ell_None _ _ _ _ Hfit) in He. discriminate.
Qed.

Lemma style_loop_inv (ec : PyColor) (a lw : float) (fcs : PyColor) :
  ∀ (ells : list Ellipse) (i : nat) (st st' : Axes * list Ellipse),
    for_enumerate (style_ell ec a lw fcs) i ells st = Ok st' →
    ∀ k, (k < length ells)%nat → is_Ok (color_get fcs (i + k)).
Proof.
  induction ells as [|e ells IH]; intros i st st' H k Hk; simpl in *; [lia|].
  apply bind_Ok_inv in H as (st1 & H1 & H).
  destruct k as [|k].
  - rewrite Nat.add_0_r. unfold style_ell in H1. destruct st as [ax done].
    destruct (color_get fcs i) as [fc|err]; [by eexists | discriminate].
  - replace (i + S k)%nat with (S i + k)%nat by lia.
    eapply IH; [exact H | lia].
Qed.

(** Whenever the drawing part of [plot_rfs] returns, it has drawn one
    ellipse per requested cell, from the fit of that cell. *)
Lemma plot_rfs_draw_inv (F : gmap Z STAFit) (ls_cells : list Z) (ec : PyColor)
    (ax : Axes) (sd_mult alpha : float) (facecolor : PyColor) (s : float)
    (b_label b_zoom : bool) (lw : float) (ax' : Axes) (ells : list Ellipse) :
  plot_rfs_draw F ls_cells ec ax sd_mult alpha facecolor s b_label b_zoom lw
    = Ok (ax', ells) →
  Forall2 (λ id e, ∃ fit fc, F !! id = Some fit ∧
                             e = set_style ec alpha lw fc
                                   (ell_of_fit fit s sd_mult))
    ls_cells ells ∧
  ax' = ax ++ map AddArtist ells
           ++ (if b_label then cell_labels ells ls_cells else [])
           ++ zoom_calls b_zoom ells.
Proof.
  intros H. pose proof H as H'. unfold plot_rfs_draw in H'.
  apply bind_Ok_inv in H' as (ells0 & Hells0 & H').
  apply bind_Ok_inv in H' as ([ax1 sty] & Hsty & _).
  pose proof (get_rf_ells_fits _ _ _ _ _ Hells0) as Hfits.
  pose proof (Forall2_length _ _ _ Hfits) as Hlen0.
  assert (Hkeys : Forall (λ id, is_Some (F !! id)) ls_cells).
  { clear -Hfits. induction Hfits as [|id e L es (fit & Hfit & _) _ IH];
      constructor; eauto. }
  assert (Hfc : ∀ k, (k < length ls_cells)%nat →
            is_Ok (color_get (broadcast_facecolor facecolor (length ls_cells)) k)).
  { intros k Hk. rewrite Hlen0.
    apply (style_loop_inv _ _ _ _ _ 0%nat _ _ Hsty k). lia. }
  destruct (plot_rfs_draw_full F ls_cells ec ax sd_mult alpha facecolor s
              b_label b_zoom lw Hkeys Hfc)
    as (ells0' & ells' & Hells0' & _ & Hlen & Hsty' & Hrun).
  rewrite Hrun in H. inversion H; subst.
  rewrite Hells0 in Hells0'. inversion Hells0'; subst ells0'.
  split; [|reflexivity].
  apply Forall2_same_length_lookup_2; [lia|]. intros k id e Hid He.
  destruct (Forall2_lookup_l _ _ _ _ _ Hfits Hid) as (e0 & He0 & fit & Hfit & ->).
  destruct (Hsty' k _ He0) as (fc & _ & He'). rewrite He in He'.
  inversion He'. eauto.
Qed.

Lemma plot_rfs_inv (spikeout : SpikeOutputs) (ls_cells : list Z)
    (ec : PyColor) (ax : option Axes) (sd_mult alpha : float) (fc : PyColor)
    (SCALING : option float) (b_label b_zoom : bool) (lw : float)
    (rs rs' : RandomState) (ax' : Axes) (ells : list Ellipse) :
  plot_rfs spikeout ls_cells ec ax sd_mult alpha fc SCALING b_label b_zoom lw rs
    = (Ok (ax', ells), rs') →
  ∃ tv, truthy ec = Ok tv ∧
    Forall2 (λ id e, ∃ fit fc', d_sta spikeout !! id = Some fit ∧
                                e = set_style (edge_color ec tv rs) alpha lw fc'
                                      (ell_of_fit fit
                                         (plot_rfs_scaling spikeout SCALING)
                                         sd_mult))
      ls_cells ells ∧
    ax' = plot_rfs_canvas ax SCALING ++ map AddArtist ells
            ++ (if b_label then cell_labels ells ls_cells else [])
            ++ zoom_calls b_zoom ells.
Proof.
  intros H. destruct (truthy ec) as [tv|e] eqn:Htv.
  - rewrite (plot_rfs_truthy _ _ _ _ _ _ _ _ _ _ _ _ _ Htv) in H.
    inversion H as [[Hd Hrs]]. exists tv. split; [reflexivity|].
    exact (plot_rfs_draw_inv _ _ _ _ _ _ _ _ _ _ _ _ _ Hd).
  - rewrite plot_rfs_unfold, Htv in H. discriminate.
Qed.

Lemma rfs_panel_drawn_shows (data : SpikeOutputs) (d_IDs : dict (list Z))
    (ls_colors ls_facecolors : list PyColor) (ls_RGC_labels : list string)
    (alpha : float) (b_zoom : bool) (sd_mult : float)
    (i : nat) (str_key : string) (a a' : Axes) :
  rfs_panel_drawn data d_IDs ls_colors ls_facecolors ls_RGC_labels alpha b_zoom
    sd_mult i str_key a a' →
  rfs_panel_shows data d_IDs ls_RGC_labels alpha b_zoom sd_mult i str_key a a'.
Proof.
  intros (ls_cells & ls_label & ec & fc & ax & ells & rs & rs' &
          Hcells & Hlabel & _ & _ & Hplot & ->).
  apply plot_rfs_inv in Hplot as (tv & _ & Hells & ->).
  exists ls_cells, ls_label, ells.
  split; [assumption|]. split; [assumption|]. split.
  - eapply Forall2_impl; [exact Hells|].
    intros id e (fit & fc' & Hfit & ->). eauto.
  - unfold plot_rfs_canvas. simpl. by rewrite <- !app_assoc.
Qed.

Lemma tcs_plot_cell_ok (F : gmap Z STAFit) (ls_colors : list PyColor)
    (alpha lw : float) (n_ID : Z) (fit : STAFit) (ax : Axes) :
  F !! n_ID = Some fit → (2 ≤ length ls_colors)%nat →
  tcs_plot_cell F ls_colors alpha lw n_ID ax
  = Ok (ax ++ cell_traces ls_colors alpha lw fit).
Proof.
  intros Hfit Hcols.
  destruct (lookup_lt_is_Some_2 ls_colors 0) as [c0 Hc0]; [lia|].
  destruct (lookup_lt_is_Some_2 ls_colors 1) as [c1 Hc1]; [lia|].
  assert (Hget : sta_get F n_ID = Ok fit) by (unfold sta_get; by rewrite Hfit).
  unfold tcs_plot_cell, cell_traces.
  rewrite Hget, !bind_Ok, (list_get_Some _ _ _ Hc0), !bind_Ok.
  rewrite (list_get_Some _ _ _ Hc1), !bind_Ok, Hc0, Hc1.
  by rewrite <- app_assoc.
Qed.

Lemma tcs_draw_cells_ok (F : gmap Z STAFit) (ls_colors : list PyColor)
    (alpha lw : float) (ls_cells : list Z) (fits : list STAFit) (ax : Axes) :
  Forall2 (λ id fit, F !! id = Some fit) ls_cells fits →
  (2 ≤ length ls_colors)%nat →
  tcs_draw F ls_colors alpha false lw ls_cells ax
  = Ok (ax ++ concat (map (cell_traces ls_colors alpha lw) fits)).
Proof.
  intros Hfits Hcols. unfold tcs_draw. revert ax.
  induction Hfits as [|id fit ls_cells fits Hfit _ IH]; intros ax; simpl.
  - by rewrite app_nil_r.
  - rewrite (tcs_plot_cell_ok _ _ _ _ _ _ _ Hfit Hcols), bind_Ok, IH.
    by rewrite <- app_assoc.
Qed.

Lemma np_array_Ok_rect (r : list float) (rows : list (list float))
    (t : ndarray) :
  np_array (r :: rows) = Ok t →
  Forall (λ r', length r' = length r) (r :: rows).
Proof.
  unfold np_array.
  destruct (forallb (λ r', Nat.eqb (length r') (length r)) rows) eqn:H;
    [|discriminate].
  intros _. constructor; [reflexivity|]. apply Forall_forall. intros r' Hin.
  rewrite forallb_forall in H. apply Nat.eqb_eq, H. by apply list_elem_of_In.
Qed.

Lemma tcs_plot_mean_inv (F : gmap Z STAFit) (channel : STAFit → list float)
    (ls_cells : list Z) (fit : STAFit) (fits : list STAFit)
    (ls_colors : list PyColor) (k : nat) (alpha lw : float) (ax ax' : Axes) :
  Forall2 (λ id fit, F !! id = Some fit) ls_cells (fit :: fits) →
  tcs_plot_mean F channel ls_cells ls_colors k alpha lw ax = Ok ax' →
  ∃ c, ls_colors !! k = Some c ∧
       Forall (λ f, length (channel f) = length (channel fit)) (fit :: fits).
Proof.
  intros Hfits H. unfold tcs_plot_mean in H.
  rewrite (channel_rows _ _ _ _ Hfits), bind_Ok in H.
  apply bind_Ok_inv in H as (tcs & Harr & H).
  apply bind_Ok_inv in H as (mean & _ & H).
  apply bind_Ok_inv in H as (std & _ & H).
  apply bind_Ok_inv in H as (c & Hc & _).
  exists c. split; [by apply list_get_Ok_inv|].
  change (map channel (fit :: fits))
    with (channel fit :: map channel fits) in Harr.
  apply np_array_Ok_rect in Harr.
  change (channel fit :: map channel fits)
    with (channel <$> fit :: fits) in Harr.
  by rewrite Forall_fmap in Harr.
Qed.

(** Whenever the drawing of a time-course panel returns, it has appended
    the traces of the cells it was given. *)
Lemma tcs_draw_inv (F : gmap Z STAFit) (ls_colors : list PyColor)
    (alpha : float) (b_plot_mean : bool) (lw : float) (ls_cells : list Z)
    (fits : list STAFit) (ax ax' : Axes) :
  Forall2 (λ id fit, F !! id = Some fit) ls_cells fits →
  tcs_draw F ls_colors alpha b_plot_mean lw ls_cells ax = Ok ax' →
  ∃ traces, tcs_traces ls_colors alpha b_plot_mean lw fits traces ∧
            ax' = ax ++ traces.
Proof.
  intros Hfits H. destruct b_plot_mean.
  - destruct fits as [|fit fits].
    { apply Forall2_nil_inv_r in Hfits. subst.
      rewrite tcs_draw_mean_empty in H.
      destruct (ls_colors !! 0%nat); discriminate. }
    pose proof H as H'. unfold tcs_draw in H'.
    apply bind_Ok_inv in H' as (ax1 & Hred & Hblue).
    destruct (tcs_plot_mean_inv _ _ _ _ _ _ _ _ _ _ _ Hfits Hred)
      as (c0 & Hc0 & Hr).
    destruct (tcs_plot_mean_inv _ _ _ _ _ _ _ _ _ _ _ Hfits Hblue)
      as (c1 & Hc1 & Hb).
    assert (Hne : ls_cells ≠ []) by (intros ->; inversion Hfits).
    rewrite (tcs_draw_mean_ok _ _ alpha lw _ _ ax _ _ _ _
               Hfits Hne Hr Hb Hc0 Hc1) in H.
    inversion H. eexists. split; [|reflexivity].
    exists c0, c1, (length (RedTimeCourse fit)), (length (BlueTimeCourse fit)).
    repeat (split; [done|]). reflexivity.
  - destruct fits as [|fit fits].
    { apply Forall2_nil_inv_r in Hfits. subst. simpl in H. inversion H.
      exists []. split; [|by rewrite app_nil_r]. by split. }
    assert (Hcols : (2 ≤ length ls_colors)%nat).
    { inversion Hfits as [|id ? cells' ? Hfit Hrest]; subst.
      unfold tcs_draw in H. simpl in H.
      apply bind_Ok_inv in H as (ax1 & H1 & _). unfold tcs_plot_cell in H1.
      apply bind_Ok_inv in H1 as (f0 & _ & H1).
      apply bind_Ok_inv in H1 as (c0 & _ & H1).
      apply bind_Ok_inv in H1 as (f1 & _ & H1).
      apply bind_Ok_inv in H1 as (c1 & Hc1 & _).
      apply list_get_Ok_inv, lookup_lt_Some in Hc1. lia. }
    rewrite (tcs_draw_cells_ok _ _ _ _ _ _ _ Hfits Hcols) in H. inversion H.
    eexists. split; [|reflexivity]. by split.
Qed.

Lemma tcs_panel_drawn_shows (data : SpikeOutputs) (ls_colors : list PyColor)
    (alpha : float) (b_plot_mean : bool) (ls_RGC_labels : list string)
    (lw : float) (i : nat) (str_key : string) (a a' : Axes) :
  tcs_panel_drawn data ls_colors alpha b_plot_mean ls_RGC_labels lw i str_key
    a a' →
  tcs_panel_shows data ls_colors alpha b_plot_mean ls_RGC_labels lw i str_key
    a a'.
Proof.
  intros (ls_cells & str_label & ax & Hcells & Hlabel & Hdraw & ->).
  destruct (cells_with_sta_fits data ls_cells) as [fits Hfits].
  destruct (tcs_draw_inv _ _ _ _ _ _ _ _ _ Hfits Hdraw)
    as (traces & Htraces & ->).
  exists ls_cells, str_label, fits, traces.
  repeat (split; [assumption|]). by rewrite <- !app_assoc.
Qed.

(** C2. For each cell-type key processed by [plot_type_rfs] and by
    [plot_type_tcs], the per-type cluster-ID list is first filtered to exactly
    the IDs that are keys of the STA-fit mapping: every occurrence of such an
    ID is kept, nothing else is, and the order is the original one. The
    filtered cells, and only they, are rendered: the panel of the key gets
    one ellipse per filtered cell, made from the fit of that cell
    ([plot_type_rfs]), or the traces of the fits of the filtered cells
    ([plot_type_tcs]), and the [n] in its title is the length of the
    filtered list. *)
Theorem type_grids_draw_filtered_cells :
  (∀ data ls_RGC_keys ls_colors axs ls_facecolors alpha b_ticks_off
     ls_RGC_labels d_IDs b_zoom sd_mult rs axs' rs',
     plot_type_rfs data ls_RGC_keys ls_colors axs ls_facecolors alpha
       b_ticks_off ls_RGC_labels d_IDs b_zoom sd_mult rs = (Ok axs', rs') →
     let d := default (d_main_IDs data) d_IDs in
     let keys := default (dict_keys d) ls_RGC_keys in
     ∃ axs0, type_rfs_axes data (length keys) axs = Ok axs0 ∧
       ∀ i str_key, keys !! i = Some str_key →
         ∃ a a', axs_item axs0 i = Ok (inl a) ∧
           rfs_panel_shows data d (default keys ls_RGC_labels) alpha b_zoom
             sd_mult i str_key a a' ∧
           axs_item axs' i
             = Ok (inl (if b_ticks_off then ticks_off a' else a'))) ∧
  (∀ data ls_RGC_keys axs ls_colors alpha b_plot_mean ls_RGC_labels lw d_IDs
     axs',
     plot_type_tcs data ls_RGC_keys axs ls_colors alpha b_plot_mean
       ls_RGC_labels lw d_IDs = Ok axs' →
     let keys := default (dict_keys (default (d_main_IDs data) d_IDs))
                   ls_RGC_keys in
     ∃ axs0, type_tcs_axes data keys axs = Ok axs0 ∧
       ∀ i str_key, keys !! i = Some str_key →
         ∃ a a', axs_item axs0 i = Ok (inl a) ∧
           tcs_panel_shows data (default [PStr "C1"; PStr "C0"] ls_colors)
             alpha b_plot_mean (default keys ls_RGC_labels) lw i str_key a a' ∧
           axs_item axs' i = Ok (inl a')) ∧
  (∀ data ls_cells,
     cells_with_sta data ls_cells `sublist_of` ls_cells ∧
     (∀ c, c ∈ cells_with_sta data ls_cells ↔
           c ∈ ls_cells ∧ is_Some (d_sta data !! c)) ∧
     (∀ c, count_occ Z.eq_dec (cells_with_sta data ls_cells) c
           = match d_sta data !! c with
             | Some _ => count_occ Z.eq_dec ls_cells c
             | None => 0%nat
             end)).
Proof.
  split; [|split].
  - intros data ls_RGC_keys ls_colors axs ls_facecolors alpha b_ticks_off
      ls_RGC_labels d_IDs b_zoom sd_mult rs axs' rs' H d keys.
    unfold plot_type_rfs in H. fold d keys in H.
    apply py_bind_Ok_inv in H as (axs0 & rs1 & H0 & H).
    apply py_lift_Ok_inv in H0 as [H0 ->].
    apply py_bind_Ok_inv in H as (axs1 & rs1 & Hloop & H).
    exists axs0. split; [assumption|]. intros i str_key Hi.
    destruct (py_for_enumerate_panels
                (rfs_panel_drawn data d ls_colors (default ls_colors ls_facecolors)
                   (default keys ls_RGC_labels) alpha b_zoom sd_mult)
                _ (type_rfs_panel_inv data d ls_colors _ _ alpha b_zoom sd_mult)
                _ _ _ _ _ _ Hloop) as [_ Hpanels].
    destruct (Hpanels i str_key Hi) as (a & a' & Ha & HP & Ha').
    exists a, a'. split; [assumption|].
    split; [by eapply rfs_panel_drawn_shows|].
    destruct b_ticks_off.
    + apply py_lift_Ok_inv in H as [H _].
      by apply (axs_for_each_item _ _ _ _ _ H).
    + inversion H; subst. assumption.
  - intros data ls_RGC_keys axs ls_colors alpha b_plot_mean ls_RGC_labels lw
      d_IDs axs' H keys.
    unfold plot_type_tcs in H. fold keys in H.
    apply bind_Ok_inv in H as (axs0 & H0 & Hloop).
    exists axs0. split; [assumption|]. intros i str_key Hi.
    destruct (for_enumerate_panels
                (tcs_panel_drawn data (default [PStr "C1"; PStr "C0"] ls_colors)
                   alpha b_plot_mean (default keys ls_RGC_labels) lw)
                _ (type_tcs_panel_inv data _ alpha b_plot_mean _ lw)
                _ _ _ _ Hloop) as [_ Hpanels].
    destruct (Hpanels i str_key Hi) as (a & a' & Ha & HP & Ha').
    exists a, a'. split; [assumption|].
    split; [by apply tcs_panel_drawn_shows | assumption].
  - intros data ls_cells. split; [apply sublist_filter|].
    split; [intros c; apply cells_with_sta_spec|].
    intros c. apply cells_with_sta_count.
Qed.

(** A two-panel run of each grid on the small recording: cluster 9 of type
    OnP has no STA fit and is left out, so the titles report n=2 and n=1. *)
Example plot_type_rfs_demo :
  let r := fst (plot_type_rfs demo None palette (Some two_axes) None 0.6 true
                  None None false 1.3 (rs_const 0.5)) in
  titles r = ["OnP (n=2) RFs"; "OffP (n=1) RFs"] ∧ n_artists r = [2; 1]%nat.
Proof. vm_compute. split; reflexivity. Qed.

Example plot_type_tcs_demo :
  titles (plot_type_tcs demo None (Some two_axes) None 0.6 true None 1 None)
  = ["OnP (n=2) timecourses"; "OffP (n=1) timecourses"].
Proof. vm_compute. reflexivity. Qed.

(** A cluster listed twice for its type is kept twice, and drawn twice. *)
Example plot_type_rfs_repeated_id :
  let data := mkSpikeOutputs 30 demo_sta [("OnP", [7; 7; 9; 3])] ["OnP"]
                "20240101C" "chunk1" demo_crf [] [] [] in
  let r := fst (plot_type_rfs data None palette (Some (AxsOne [])) None 0.6
                  true None None false 1.3 (rs_const 0.5)) in
  cells_with_sta data [7; 7; 9; 3] = [7; 7; 3] ∧
  titles r = ["OnP (n=3) RFs"] ∧ n_artists r = [3]%nat.
Proof. vm_compute. repeat split; reflexivity. Qed.

(** * Further properties of the renderers *)

(** ** What [plot_rfs] draws *)

(** X1. When every requested cell has a fit, the edge colour has a truth
    value and a face colour can be read for each cell, [plot_rfs] keeps what
    was on the axes and appends, in this order: the default limits (only
    without [SCALING]), one artist per cell, one label per cell (only with
    [b_label]: the cluster ID at the centre of its ellipse), and the two zoom
    limits (only with [b_zoom] and at least one cell). *)
Theorem plot_rfs_drawing_log (spikeout : SpikeOutputs) (ls_cells : list Z)
    (ec : PyColor) (ax : option Axes) (sd_mult alpha : float) (fc : PyColor)
    (SCALING : option float) (b_label b_zoom : bool) (lw : float)
    (rs : RandomState) (tv : bool) :
  Forall (λ id, is_Some (d_sta spikeout !! id)) ls_cells →
  truthy ec = Ok tv →
  (∀ k, (k < length ls_cells)%nat →
        is_Ok (color_get (broadcast_facecolor fc (length ls_cells)) k)) →
  ∃ ells : list Ellipse,
    length ells = length ls_cells ∧
    plot_rfs spikeout ls_cells ec ax sd_mult alpha fc SCALING b_label b_zoom
      lw rs
    = (Ok (plot_rfs_canvas ax SCALING ++ map AddArtist ells
             ++ (if b_label then cell_labels ells ls_cells else [])
             ++ zoom_calls b_zoom ells, ells),
       rng_after tv rs).
Proof.
  intros Hkeys Htv Hfc.
  rewrite (plot_rfs_truthy _ _ _ _ _ _ _ _ _ _ _ _ _ Htv).
  destruct (plot_rfs_draw_full (d_sta spikeout) ls_cells (edge_color ec tv rs)
              (plot_rfs_canvas ax SCALING) sd_mult alpha fc
              (plot_rfs_scaling spikeout SCALING) b_label b_zoom lw Hkeys Hfc)
    as (ells0 & ells & _ & _ & Hlen & _ & Hrun).
  exists ells. split; [assumption|]. by rewrite Hrun.
Qed.

Lemma plot_rfs_drawing_log_witness :
  ∃ ells : list Ellipse,
    length ells = length [7; 3] ∧
    plot_rfs demo [7; 3] (PStr "C0") (Some []) 1.3 0.6 (PStr "k") (Some 30%float)
      true false 1 (rs_const 0.5)
    = (Ok (plot_rfs_canvas (Some []) (Some 30%float) ++ map AddArtist ells
             ++ cell_labels ells [7; 3] ++ zoom_calls false ells, ells),
       rng_after true (rs_const 0.5)).
Proof.
  apply (plot_rfs_drawing_log demo [7; 3] (PStr "C0") (Some []) 1.3 0.6
           (PStr "k") (Some 30%float) true false 1 (rs_const 0.5) true).
  - repeat constructor; eexists; reflexivity.
  - reflexivity.
  - intros [|[|k]] Hk; [eexists; reflexivity ..|simpl in Hk; lia].
Defined.

(** The labels of the small recording: "7" at (300, 600), "3" at (900, 150). *)
Example plot_rfs_labels_demo :
  ∃ ells,
    fst (plot_rfs demo [7; 3] (PStr "C0") (Some []) 1.3 0.6 (PStr "k") None
           true false 1 (rs_const 0.5))
    = Ok ([SetXlim 0 5000; SetYlim 0 5000]%float ++ map AddArtist ells ++
          [Text 300 600 "7"; Text 900 150 "3"], ells).
Proof. eexists [_; _]. vm_compute. reflexivity. Qed.

(** X2. Under the same conditions, each ellipse [plot_rfs] returns keeps the
    geometry [get_rf_ells] computed for its cell and carries the call's
    alpha, line width and edge colour, the axes' clip box, and the face
    colour read at its index. *)
Theorem plot_rfs_ellipse_styles (spikeout : SpikeOutputs) (ls_cells : list Z)
    (ec : PyColor) (ax : option Axes) (sd_mult alpha : float) (fc : PyColor)
    (SCALING : option float) (b_label b_zoom : bool) (lw : float)
    (rs : RandomState) (tv : bool) :
  Forall (λ id, is_Some (d_sta spikeout !! id)) ls_cells →
  truthy ec = Ok tv →
  (∀ k, (k < length ls_cells)%nat →
        is_Ok (color_get (broadcast_facecolor fc (length ls_cells)) k)) →
  ∃ (out : Axes) (ells ells0 : list Ellipse),
    plot_rfs spikeout ls_cells ec ax sd_mult alpha fc SCALING b_label b_zoom
      lw rs = (Ok (out, ells), rng_after tv rs) ∧
    get_rf_ells ls_cells (d_sta spikeout) (plot_rfs_scaling spikeout SCALING)
      sd_mult = Ok ells0 ∧
    length ells = length ells0 ∧
    ∀ i e0, ells0 !! i = Some e0 →
      ∃ e fcol,
        ells !! i = Some e ∧
        center e = center e0 ∧ width e = width e0 ∧ height e = height e0 ∧
        angle e = angle e0 ∧
        ell_clip_box e = true ∧ ell_alpha e = Some alpha ∧
        ell_linewidth e = Some lw ∧
        ell_edgecolor e = Some (edge_color ec tv rs) ∧
        color_get (broadcast_facecolor fc (length ls_cells)) i = Ok fcol ∧
        ell_facecolor e = Some fcol.
Proof.
  intros Hkeys Htv Hfc.
  rewrite (plot_rfs_truthy _ _ _ _ _ _ _ _ _ _ _ _ _ Htv).
  destruct (plot_rfs_draw_full (d_sta spikeout) ls_cells (edge_color ec tv rs)
              (plot_rfs_canvas ax SCALING) sd_mult alpha fc
              (plot_rfs_scaling spikeout SCALING) b_label b_zoom lw Hkeys Hfc)
    as (ells0 & ells & Hells0 & Hlen0 & Hlen & Hsty & Hrun).
  eexists _, ells, ells0. split; [by rewrite Hrun|].
  split; [assumption|]. split; [lia|].
  intros i e0 Hi. destruct (Hsty i e0 Hi) as (fcol & Hcol & He).
  exists (set_style (edge_color ec tv rs) alpha lw fcol e0), fcol.
  by repeat split.
Qed.

Lemma plot_rfs_ellipse_styles_witness :
  ∃ (out : Axes) (ells ells0 : list Ellipse),
    plot_rfs demo [7; 3] PNone None 1.3 0.6 (PStr "k") None false true 1
      rs_count = (Ok (out, ells), rng_after false rs_count) ∧
    get_rf_ells [7; 3] (d_sta demo) (plot_rfs_scaling demo None) 1.3
      = Ok ells0 ∧
    length ells = length ells0 ∧
    ∀ i e0, ells0 !! i = Some e0 →
      ∃ e fcol,
        ells !! i = Some e ∧
        center e = center e0 ∧ width e = width e0 ∧ height e = height e0 ∧
        angle e = angle e0 ∧
        ell_clip_box e = true ∧ ell_alpha e = Some 0.6%float ∧
        ell_linewidth e = Some 1%float ∧
        ell_edgecolor e = Some (edge_color PNone false rs_count) ∧
        color_get (broadcast_facecolor (PStr "k") (length [7; 3])) i = Ok fcol ∧
        ell_facecolor e = Some fcol.
Proof.
  apply (plot_rfs_ellipse_styles demo [7; 3] PNone None 1.3 0.6 (PStr "k")
           None false true 1 rs_count false).
  - repeat constructor; eexists; reflexivity.
  - reflexivity.
  - intros [|[|k]] Hk; [eexists; reflexivity ..|simpl in Hk; lia].
Defined.

(** ** The edge colour of [plot_rfs] *)

(** X3. [plot_rfs] given a falsy edge colour takes exactly three doubles
    from the generator, whether or not it then succeeds, and gives every
    ellipse of the call that one random colour; given a numpy array of two
    or more entries as edge colour (such as the colour a previous call
    picked) it raises [ValueError] at once, the generator untouched. *)
Theorem plot_rfs_edge_color_handling :
  (∀ spikeout ls_cells ec ax sd_mult alpha fc SCALING b_label b_zoom lw rs,
     truthy ec = Ok false →
     snd (plot_rfs spikeout ls_cells ec ax sd_mult alpha fc SCALING b_label
            b_zoom lw rs)
     = mkRandomState (rs_stream rs) (rs_pos rs + 3) ∧
     ∀ out ells,
       fst (plot_rfs spikeout ls_cells ec ax sd_mult alpha fc SCALING b_label
              b_zoom lw rs) = Ok (out, ells) →
       Forall (λ ell, ell_edgecolor ell
                      = Some (PArray [rs_stream rs (rs_pos rs + 0)%nat;
                                      rs_stream rs (rs_pos rs + 1)%nat;
                                      rs_stream rs (rs_pos rs + 2)%nat]))
         ells) ∧
  (∀ spikeout ls_cells x y a ax sd_mult alpha fc SCALING b_label b_zoom lw rs,
     plot_rfs spikeout ls_cells (PArray (x :: y :: a)) ax sd_mult alpha fc
       SCALING b_label b_zoom lw rs = (Err ValueError, rs)).
Proof.
  split.
  - intros spikeout ls_cells ec ax sd_mult alpha fc SCALING b_label b_zoom lw
      rs Hec.
    rewrite (plot_rfs_truthy _ _ _ _ _ _ _ _ _ _ _ _ _ Hec). simpl.
    split; [reflexivity|]. intros out ells Hrun.
    unfold plot_rfs_draw in Hrun.
    apply bind_Ok_inv in Hrun as (ells0 & Hells0 & Hrun).
    apply bind_Ok_inv in Hrun as ([ax1 sty] & Hloop & Hrun).
    apply bind_Ok_inv in Hrun as (ax2 & _ & Hrun).
    apply bind_Ok_inv in Hrun as (ax3 & _ & Hrun).
    inversion Hrun; subst.
    assert (Hgen : ∀ l i a0 d a1 d1,
      for_enumerate (style_ell (PArray (fst (np_random_rand 3 rs))) alpha lw
                       (broadcast_facecolor fc (length ells0))) i l (a0, d)
        = Ok (a1, d1) →
      Forall (λ ell, ell_edgecolor ell
                     = Some (PArray (fst (np_random_rand 3 rs)))) d →
      Forall (λ ell, ell_edgecolor ell
                     = Some (PArray (fst (np_random_rand 3 rs)))) d1).
    { induction l as [|e l IH]; intros i a0 d a1 d1 Hl Hd; simpl in Hl.
      - by inversion Hl; subst.
      - apply bind_Ok_inv in Hl as ([a2 d2] & Hstep & Hl).
        unfold style_ell in Hstep.
        apply bind_Ok_inv in Hstep as (c & _ & Hstep). inversion Hstep; subst.
        apply (IH _ _ _ _ _ Hl). apply Forall_app. split; [assumption|].
        by repeat constructor. }
    apply (Hgen _ _ _ _ _ _ Hloop). constructor.
  - intros. rewrite plot_rfs_unfold. reflexivity.
Qed.

(** ** Per-cell face colours *)

Lemma style_loop_short (ec : PyColor) (a lw : float) (cols : list PyColor) :
  ∀ (ells : list Ellipse) (i : nat) (ax : Axes) (done : list Ellipse),
    (i ≤ length cols)%nat →
    (length cols < i + length ells)%nat →
    for_enumerate (style_ell ec a lw (PList cols)) i ells (ax, done)
    = Err IndexError.
Proof.
  induction ells as [|e ells IH]; intros i ax done Hi Hlen; simpl in Hlen.
  - lia.
  - cbn [for_enumerate].
    destruct (cols !! i) as [c|] eqn:Hc.
    + rewrite (style_ell_step ec a lw (PList cols) i e ax done c)
        by (simpl; by apply list_get_Some).
      rewrite bind_Ok. apply lookup_lt_Some in Hc. apply IH; lia.
    + unfold style_ell. simpl. unfold list_get. by rewrite Hc.
Qed.

(** X4. A face colour given as a list (not a tuple or a string) is read per
    cell: with at least as many colours as cells, the i-th ellipse gets the
    i-th colour and surplus colours are ignored; with fewer colours than
    cells the call raises [IndexError] (there is no length check). *)
Theorem plot_rfs_per_cell_facecolors (spikeout : SpikeOutputs)
    (ls_cells : list Z) (ec : PyColor) (ax : option Axes)
    (sd_mult alpha : float) (cols : list PyColor) (SCALING : option float)
    (b_label b_zoom : bool) (lw : float) (rs : RandomState) :
  Forall (λ id, is_Some (d_sta spikeout !! id)) ls_cells →
  is_Ok (truthy ec) →
  ((length ls_cells ≤ length cols)%nat →
   ∃ out ells,
     fst (plot_rfs spikeout ls_cells ec ax sd_mult alpha (PList cols) SCALING
            b_label b_zoom lw rs) = Ok (out, ells) ∧
     length ells = length ls_cells ∧
     ∀ i ell, ells !! i = Some ell → ell_facecolor ell = cols !! i) ∧
  ((length cols < length ls_cells)%nat →
   fst (plot_rfs spikeout ls_cells ec ax sd_mult alpha (PList cols) SCALING
          b_label b_zoom lw rs) = Err IndexError).
Proof.
  intros Hkeys [tv Htv].
  rewrite (plot_rfs_truthy _ _ _ _ _ _ _ _ _ _ _ _ _ Htv). simpl. split.
  - intros Hlen.
    destruct (plot_rfs_draw_full (d_sta spikeout) ls_cells (edge_color ec tv rs)
                (plot_rfs_canvas ax SCALING) sd_mult alpha (PList cols)
                (plot_rfs_scaling spikeout SCALING) b_label b_zoom lw Hkeys)
      as (ells0 & ells & _ & Hlen0 & Hlens & Hsty & Hrun).
    { intros k Hk. destruct (lookup_lt_is_Some_2 cols k) as [c Hc]; [lia|].
      exists c. simpl. by apply list_get_Some. }
    eexists _, ells. split; [exact Hrun|]. split; [assumption|].
    intros i ell Hi.
    destruct (lookup_lt_is_Some_2 ells0 i) as [e0 He0].
    { apply lookup_lt_Some in Hi. lia. }
    destruct (Hsty i e0 He0) as (c & Hc & Hell). simpl in Hc.
    apply list_get_Ok_inv in Hc. rewrite Hi in Hell. inversion Hell; subst.
    simpl. by rewrite Hc.
  - intros Hlen.
    destruct (get_rf_ells_ok ls_cells (d_sta spikeout)
                (plot_rfs_scaling spikeout SCALING) sd_mult Hkeys)
      as (ells0 & Hells0 & Hlen0).
    unfold plot_rfs_draw. rewrite Hells0, bind_Ok. simpl.
    rewrite style_loop_short by (simpl; lia). reflexivity.
Qed.

Lemma plot_rfs_per_cell_facecolors_witness :
  ((length [7; 3] ≤ length [PStr "r"; PStr "g"; PStr "b"])%nat →
   ∃ out ells,
     fst (plot_rfs demo [7; 3] (PStr "C0") None 1.3 0.6
            (PList [PStr "r"; PStr "g"; PStr "b"]) None false true 1
            (rs_const 0.5)) = Ok (out, ells) ∧
     length ells = length [7; 3] ∧
     ∀ i ell, ells !! i = Some ell →
              ell_facecolor ell = [PStr "r"; PStr "g"; PStr "b"] !! i) ∧
  ((length [PStr "r"; PStr "g"; PStr "b"] < length [7; 3])%nat →
   fst (plot_rfs demo [7; 3] (PStr "C0") None 1.3 0.6
          (PList [PStr "r"; PStr "g"; PStr "b"]) None false true 1
          (rs_const 0.5)) = Err IndexError).
Proof.
  apply (plot_rfs_per_cell_facecolors demo [7; 3] (PStr "C0") None 1.3 0.6
           [PStr "r"; PStr "g"; PStr "b"] None false true 1 (rs_const 0.5)).
  - repeat constructor; eexists; reflexivity.
  - eexists; reflexivity.
Defined.

(** One colour for two cells: the second ellipse has none to read. *)
Example plot_rfs_short_color_list :
  fst (plot_rfs demo [7; 3] (PStr "C0") None 1.3 0.6 (PList [PStr "r"]) None
         false true 1 (rs_const 0.5)) = Err IndexError.
Proof. vm_compute. reflexivity. Qed.

(** ** How [plot_rfs] fails *)

Lemma for_enumerate_Err {St A} (body : nat → A → St → result St) :
  ∀ (xs : list A) (i : nat) (s : St) (e : exn),
    for_enumerate body i xs s = Err e →
    ∃ j x s', x ∈ xs ∧ body j x s' = Err e.
Proof.
  induction xs as [|x xs IH]; intros i s e H; simpl in H; [discriminate|].
  destruct (body i x s) as [s1|e1] eqn:Hb.
  - rewrite bind_Ok in H. destruct (IH _ _ _ H) as (j & y & s' & Hy & Hby).
    exists j, y, s'. split; [by right | assumption].
  - inversion H; subst. exists i, x, s. split; [by left | assumption].
Qed.

Lemma list_get_Err {A} (l : list A) (i : nat) (e : exn) :
  list_get l i = Err e → e = IndexError.
Proof. unfold list_get. destruct (l !! i); [discriminate | by intros [= <-]]. Qed.

Lemma color_get_Err (c : PyColor) (i : nat) (e : exn) :
  color_get c i = Err e → e = IndexError ∨ e = TypeError.
Proof.
  destruct c as [|s|t|a|l|x]; simpl; intros H.
  - inversion H. by right.
  - destruct (String.get i s); [discriminate|]. inversion H. by left.
  - destruct (list_get t i) eqn:Hg; [discriminate|].
    inversion H; subst. left. by eapply list_get_Err.
  - destruct (list_get a i) eqn:Hg; [discriminate|].
    inversion H; subst. left. by eapply list_get_Err.
  - left. by eapply list_get_Err.
  - inversion H. by left.
Qed.

Lemma get_rf_ells_Err_inv (L : list Z) (F : gmap Z STAFit) (g m : float)
    (e : exn) :
  get_rf_ells L F g m = Err e →
  Exists (λ id, F !! id = None) L ∧ ∃ k, e = KeyError_id k.
Proof.
  intros He. apply list_comp_Err in He as (pre & x & post & -> & Hx & _).
  apply rf_ell_Err in Hx as [Hx ->]. split; [|eauto].
  apply Exists_app. right. by constructor.
Qed.

Lemma get_rf_ells_missing (L : list Z) (F : gmap Z STAFit) (g m : float) :
  Exists (λ id, F !! id = None) L →
  ∃ k, get_rf_ells L F g m = Err (KeyError_id k).
Proof.
  intros Hex. destruct (get_rf_ells L F g m) as [ells|e] eqn:Hr.
  - exfalso. apply Exists_exists in Hex as (id & Hin & Hid).
    apply list_elem_of_lookup in Hin as [i Hi].
    destruct (list_comp_lookup _ _ _ _ _ Hr Hi) as (ell & Hell & _).
    rewrite (rf_ell_None _ _ _ _ Hid) in Hell. discriminate.
  - destruct (get_rf_ells_Err_inv _ _ _ _ _ Hr) as (_ & k & ->). eauto.
Qed.

(** The drawing part of [plot_rfs] fails with the fault of [get_rf_ells], or
    else for want of a face colour. *)
Lemma plot_rfs_draw_Err (F : gmap Z STAFit) (ls_cells : list Z) (ec : PyColor)
    (ax : Axes) (sd_mult alpha : float) (facecolor : PyColor) (s : float)
    (b_label b_zoom : bool) (lw : float) (e : exn) :
  plot_rfs_draw F ls_cells ec ax sd_mult alpha facecolor s b_label b_zoom lw
    = Err e →
  get_rf_ells ls_cells F s sd_mult = Err e ∨ e = IndexError ∨ e = TypeError.
Proof.
  unfold plot_rfs_draw. intros H.
  destruct (get_rf_ells ls_cells F s sd_mult) as [ells0|e0] eqn:Hells0.
  2:{ left. by inversion H. }
  right. rewrite bind_Ok in H.
  destruct (for_enumerate _ 0%nat ells0 (ax, [])) as [[ax1 sty]|e1] eqn:Hloop.
  2:{ inversion H; subst.
      apply for_enumerate_Err in Hloop as (j & x & [a0 d0] & _ & Hstep).
      unfold style_ell in Hstep.
      destruct (color_get _ j) as [c|e2] eqn:Hc; [discriminate|].
      inversion Hstep; subst. by eapply color_get_Err. }
  rewrite bind_Ok in H. cbn beta iota in H.
  destruct b_label.
  - destruct (for_enumerate (label_ell ls_cells) 0 sty ax1) as [ax2|e2] eqn:Hlab.
    + rewrite bind_Ok, zoom_to_ells_calls in H. discriminate.
    + inversion H; subst.
      apply for_enumerate_Err in Hlab as (j & x & a0 & _ & Hstep).
      unfold label_ell in Hstep.
      destruct (list_get ls_cells j) eqn:Hg; [discriminate|].
      inversion Hstep; subst. left. by eapply list_get_Err.
  - rewrite bind_Ok, zoom_to_ells_calls in H. discriminate.
Qed.

(** X5. [plot_rfs] does not filter its cell list: it raises the key-lookup
    fault of [d_sta] exactly when some requested cell has no fit, and this
    fault is the one [get_rf_ells] raises on the same list. *)
Theorem plot_rfs_KeyError_iff (spikeout : SpikeOutputs) (ls_cells : list Z)
    (ec : PyColor) (ax : option Axes) (sd_mult alpha : float) (fc : PyColor)
    (SCALING : option float) (b_label b_zoom : bool) (lw : float)
    (rs : RandomState) :
  is_Ok (truthy ec) →
  ((∃ k, fst (plot_rfs spikeout ls_cells ec ax sd_mult alpha fc SCALING
                b_label b_zoom lw rs) = Err (KeyError_id k)) ↔
   Exists (λ id, d_sta spikeout !! id = None) ls_cells) ∧
  (∀ e, get_rf_ells ls_cells (d_sta spikeout)
          (plot_rfs_scaling spikeout SCALING) sd_mult = Err e →
        fst (plot_rfs spikeout ls_cells ec ax sd_mult alpha fc SCALING
               b_label b_zoom lw rs) = Err e).
Proof.
  intros [tv Htv].
  rewrite (plot_rfs_truthy _ _ _ _ _ _ _ _ _ _ _ _ _ Htv). simpl.
  assert (Hprop : ∀ e, get_rf_ells ls_cells (d_sta spikeout)
                         (plot_rfs_scaling spikeout SCALING) sd_mult = Err e →
    plot_rfs_draw (d_sta spikeout) ls_cells (edge_color ec tv rs)
      (plot_rfs_canvas ax SCALING) sd_mult alpha fc
      (plot_rfs_scaling spikeout SCALING) b_label b_zoom lw = Err e).
  { intros e He. unfold plot_rfs_draw. by rewrite He. }
  split; [|exact Hprop]. split.
  - intros [k Hk]. apply plot_rfs_draw_Err in Hk as [Hk|[Hk|Hk]];
      [|discriminate..].
    by apply get_rf_ells_Err_inv in Hk as [? _].
  - intros Hex.
    destruct (get_rf_ells_missing ls_cells (d_sta spikeout)
                (plot_rfs_scaling spikeout SCALING) sd_mult Hex) as [k Hk].
    exists k. by apply Hprop.
Qed.

Lemma plot_rfs_KeyError_iff_witness :
  ((∃ k, fst (plot_rfs demo [7; 9; 3] (PStr "C0") None 1.3 0.6 (PStr "k") None
                false true 1 (rs_const 0.5)) = Err (KeyError_id k)) ↔
   Exists (λ id, d_sta demo !! id = None) [7; 9; 3]) ∧
  (∀ e, get_rf_ells [7; 9; 3] (d_sta demo) (plot_rfs_scaling demo None) 1.3
        = Err e →
        fst (plot_rfs demo [7; 9; 3] (PStr "C0") None 1.3 0.6 (PStr "k") None
               false true 1 (rs_const 0.5)) = Err e).
Proof.
  apply (plot_rfs_KeyError_iff demo [7; 9; 3] (PStr "C0") None 1.3 0.6
           (PStr "k") None false true 1 (rs_const 0.5)).
  eexists; reflexivity.
Defined.

(** Cluster 9 has no fit: [plot_rfs] fails where the grids would skip it. *)
Example plot_rfs_missing_cell :
  fst (plot_rfs demo [7; 9; 3] (PStr "C0") None 1.3 0.6 (PStr "k") None
         false true 1 (rs_const 0.5)) = Err (KeyError_id 9).
Proof. vm_compute. reflexivity. Qed.

(** ** The grids never raise the [d_sta] key-lookup fault *)

Lemma py_bind_Err_inv {A B} (m : Py A) (f : A → Py B) (rs rs' : RandomState)
    (e : exn) :
  (m ≫= f) rs = (Err e, rs') →
  m rs = (Err e, rs') ∨ ∃ a rs1, m rs = (Ok a, rs1) ∧ f a rs1 = (Err e, rs').
Proof.
  unfold mbind, py_mbind, py_bind. destruct (m rs) as [[a|e1] rs1]; [eauto|].
  intros [= -> ->]. by left.
Qed.

Lemma py_for_enumerate_Err {St A} (body : nat → A → St → Py St) :
  ∀ (xs : list A) (i : nat) (s : St) (rs rs' : RandomState) (e : exn),
    py_for_enumerate body i xs s rs = (Err e, rs') →
    ∃ j x s' r r', x ∈ xs ∧ body j x s' r = (Err e, r').
Proof.
  induction xs as [|x xs IH]; intros i s rs rs' e H; simpl in H;
    [discriminate|].
  apply py_bind_Err_inv in H as [H|(s1 & rs1 & _ & H)].
  - exists i, x, s, rs, rs'. split; [by left | assumption].
  - destruct (IH _ _ _ _ _ H) as (j & y & s' & r & r' & Hy & Hb).
    exists j, y, s', r, r'. split; [by right | assumption].
Qed.

Lemma for_each_Err {St A} (body : A → St → result St) :
  ∀ (xs : list A) (s : St) (e : exn),
    for_each body xs s = Err e → ∃ x s', x ∈ xs ∧ body x s' = Err e.
Proof.
  induction xs as [|x xs IH]; intros s e H; simpl in H; [discriminate|].
  destruct (body x s) as [s1|e1] eqn:Hb.
  - rewrite bind_Ok in H. destruct (IH _ _ H) as (y & s' & Hy & Hby).
    exists y, s'. split; [by right | assumption].
  - inversion H; subst. exists x, s. split; [by left | assumption].
Qed.

Lemma bind_Err_inv {A B} (m : result A) (f : A → result B) (e : exn) :
  m ≫= f = Err e → m = Err e ∨ ∃ a, m = Ok a ∧ f a = Err e.
Proof. destruct m as [a|e1]; [eauto|]. intros [= ->]. by left. Qed.

Lemma truthy_Err (c : PyColor) (e : exn) : truthy c = Err e → e = ValueError.
Proof.
  destruct c as [|s|t|a|l|x]; simpl; try discriminate.
  destruct a as [|x [|y a]]; try discriminate; by intros [= <-].
Qed.

Lemma dict_get_Err {V} (d : dict V) (k : string) (e : exn) :
  dict_get d k = Err e → e = KeyError_str k.
Proof.
  induction d as [|[k' v] d IH]; simpl; [by intros [= <-]|].
  destruct (decide (k = k')); [discriminate | assumption].
Qed.

Lemma axs_item_Err (axs : AxsVal) (i : nat) (e : exn) :
  axs_item axs i = Err e → e = TypeError ∨ e = IndexError.
Proof.
  destruct axs as [a|l|l|row]; simpl; intros H.
  - inversion H. by left.
  - destruct (list_get l i) eqn:Hg; [discriminate|].
    inversion H; subst. right. by eapply list_get_Err.
  - destruct (list_get l i) eqn:Hg; [discriminate|].
    inversion H; subst. right. by eapply list_get_Err.
  - destruct i; [discriminate|]. inversion H. by right.
Qed.

Lemma cells_with_sta_present (data : SpikeOutputs) (ls_cells : list Z) :
  Forall (λ id, is_Some (d_sta data !! id)) (cells_with_sta data ls_cells).
Proof.
  apply Forall_forall. intros id Hin.
  by apply cells_with_sta_spec in Hin as [_ ?].
Qed.

Lemma present_not_missing (F : gmap Z STAFit) (L : list Z) :
  Forall (λ id, is_Some (F !! id)) L → ¬ Exists (λ id, F !! id = None) L.
Proof.
  intros Hall Hex. apply Exists_exists in Hex as (id & Hin & Hid).
  rewrite Forall_forall in Hall. destruct (Hall id Hin). congruence.
Qed.

Lemma plot_rfs_filtered_Err (data : SpikeOutputs) (ls_cells : list Z)
    (ec : PyColor) (ax : option Axes) (sd_mult alpha : float) (fc : PyColor)
    (SCALING : option float) (b_label b_zoom : bool) (lw : float)
    (rs rs' : RandomState) (e : exn) (k : Z) :
  plot_rfs data (cells_with_sta data ls_cells) ec ax sd_mult alpha fc SCALING
    b_label b_zoom lw rs = (Err e, rs') →
  e ≠ KeyError_id k.
Proof.
  rewrite plot_rfs_unfold. intros H Hk. subst e.
  assert (Hdraw : ∀ c, plot_rfs_draw (d_sta data) (cells_with_sta data ls_cells)
                         c (plot_rfs_canvas ax SCALING) sd_mult alpha fc
                         (plot_rfs_scaling data SCALING) b_label b_zoom lw
                       ≠ Err (KeyError_id k)).
  { intros c Hc. apply plot_rfs_draw_Err in Hc as [Hc|[Hc|Hc]];
      [|discriminate..].
    apply get_rf_ells_Err_inv in Hc as [Hex _].
    by apply (present_not_missing _ _ (cells_with_sta_present data ls_cells)). }
  destruct (truthy ec) as [[|]|e0] eqn:Ht.
  - inversion H as [[H1 H2]]. by apply (Hdraw ec).
  - inversion H as [[H1 H2]].
    by apply (Hdraw (PArray (fst (np_random_rand 3 rs)))).
  - inversion H; subst. apply truthy_Err in Ht. discriminate.
Qed.

Lemma type_rfs_panel_Err (data : SpikeOutputs) (d_IDs : dict (list Z))
    (ls_colors ls_facecolors : list PyColor) (ls_RGC_labels : list string)
    (alpha : float) (b_zoom : bool) (sd_mult : float)
    (i : nat) (str_key : string) (axs : AxsVal) (rs rs' : RandomState)
    (e : exn) (k : Z) :
  type_rfs_panel data d_IDs ls_colors ls_facecolors ls_RGC_labels alpha b_zoom
    sd_mult i str_key axs rs = (Err e, rs') →
  e ≠ KeyError_id k.
Proof.
  unfold type_rfs_panel. intros H Hk. subst e.
  apply py_bind_Err_inv in H as [H|(ls_cells & rs1 & _ & H)].
  { inversion H as [[H1 H2]]. apply dict_get_Err in H1. discriminate. }
  apply py_bind_Err_inv in H as [H|(ls_label & rs2 & _ & H)].
  { inversion H as [[H1 H2]]. apply list_get_Err in H1. discriminate. }
  apply py_bind_Err_inv in H as [H|(ax & rs3 & _ & H)].
  { inversion H as [[H1 H2]]. apply axs_item_Err in H1 as [?|?]; discriminate. }
  apply py_bind_Err_inv in H as [H|(c & rs4 & _ & H)].
  { inversion H as [[H1 H2]]. apply list_get_Err in H1. discriminate. }
  apply py_bind_Err_inv in H as [H|(f & rs5 & _ & H)].
  { inversion H as [[H1 H2]]. apply list_get_Err in H1. discriminate. }
  destruct ax as [ax|row].
  - apply py_bind_Err_inv in H as [H|([ax' ells] & rs6 & _ & H)].
    + by apply (plot_rfs_filtered_Err _ _ _ _ _ _ _ _ _ _ _ _ _ _ k) in H.
    + discriminate.
  - unfold plot_rfs_on_array, py_lift in H.
    destruct (Nat.eqb (length row) 1); discriminate.
Qed.

Lemma sta_get_present (F : gmap Z STAFit) (id : Z) :
  is_Some (F !! id) → is_Ok (sta_get F id).
Proof. intros [fit H]. exists fit. unfold sta_get. by rewrite H. Qed.

Lemma channel_rows_present (F : gmap Z STAFit) (channel : STAFit → list float)
    (ls_cells : list Z) :
  Forall (λ id, is_Some (F !! id)) ls_cells →
  is_Ok (list_comp (λ n_ID, fit ← sta_get F n_ID; Ok (channel fit)) ls_cells).
Proof.
  induction 1 as [|id l [fit Hfit] _ [rows IH]]; simpl; [by eexists|].
  assert (Hget : sta_get F id = Ok fit) by (unfold sta_get; by rewrite Hfit).
  rewrite Hget, !bind_Ok, IH. by eexists.
Qed.

Lemma np_array_Err (rows : list (list float)) (e : exn) :
  np_array rows = Err e → e = ValueError.
Proof.
  destruct rows as [|r rows]; simpl; [discriminate|].
  destruct (forallb _ rows); [discriminate | by intros [= <-]].
Qed.

Lemma nd_zip_Err (f : float → float → float) (a b : ndarray) (e : exn) :
  nd_zip f a b = Err e → e = ValueError.
Proof.
  destruct a as [x|u|c r], b as [y|v|c' r']; simpl;
    try (by intros [= <-]); try discriminate.
  - destruct (Nat.eqb _ _); [discriminate | by intros [= <-]].
  - destruct (_ && _); [discriminate | by intros [= <-]].
Qed.

Lemma tcs_plot_mean_Err (F : gmap Z STAFit) (channel : STAFit → list float)
    (ls_cells : list Z) (ls_colors : list PyColor) (j : nat)
    (alpha lw : float) (ax : Axes) (e : exn) (k : Z) :
  Forall (λ id, is_Some (F !! id)) ls_cells →
  tcs_plot_mean F channel ls_cells ls_colors j alpha lw ax = Err e →
  e ≠ KeyError_id k.
Proof.
  intros Hall H Hk. subst e. unfold tcs_plot_mean in H.
  destruct (channel_rows_present F channel ls_cells Hall) as [rows Hrows].
  rewrite Hrows, bind_Ok in H.
  apply bind_Err_inv in H as [H|(tcs & _ & H)].
  { apply np_array_Err in H. discriminate. }
  apply bind_Err_inv in H as [H|(mean & _ & H)].
  { destruct tcs; simpl in H; discriminate. }
  apply bind_Err_inv in H as [H|(std & _ & H)].
  { destruct tcs; simpl in H; discriminate. }
  apply bind_Err_inv in H as [H|(c & _ & H)].
  { apply list_get_Err in H. discriminate. }
  apply bind_Err_inv in H as [H|(n & _ & H)].
  { destruct mean; simpl in H; discriminate. }
  apply bind_Err_inv in H as [H|(lo & _ & H)].
  { apply nd_zip_Err in H. discriminate. }
  apply bind_Err_inv in H as [H|(hi & _ & H)].
  { apply nd_zip_Err in H. discriminate. }
  apply bind_Err_inv in H as [H|(c' & _ & H)].
  { apply list_get_Err in H. discriminate. }
  discriminate.
Qed.

Lemma tcs_plot_cell_Err (F : gmap Z STAFit) (ls_colors : list PyColor)
    (alpha lw : float) (n_ID : Z) (ax : Axes) (e : exn) (k : Z) :
  is_Some (F !! n_ID) →
  tcs_plot_cell F ls_colors alpha lw n_ID ax = Err e →
  e ≠ KeyError_id k.
Proof.
  intros Hin H Hk. subst e. unfold tcs_plot_cell in H.
  destruct (sta_get_present F n_ID Hin) as [fit Hfit].
  rewrite Hfit, bind_Ok in H.
  apply bind_Err_inv in H as [H|(c & _ & H)].
  { apply list_get_Err in H. discriminate. }
  rewrite bind_Ok in H.
  apply bind_Err_inv in H as [H|(c' & _ & H)].
  { apply list_get_Err in H. discriminate. }
  discriminate.
Qed.

Lemma tcs_draw_Err (F : gmap Z STAFit) (ls_colors : list PyColor)
    (alpha : float) (b_plot_mean : bool) (lw : float) (ls_cells : list Z)
    (ax : Axes) (e : exn) (k : Z) :
  Forall (λ id, is_Some (F !! id)) ls_cells →
  tcs_draw F ls_colors alpha b_plot_mean lw ls_cells ax = Err e →
  e ≠ KeyError_id k.
Proof.
  intros Hall H. unfold tcs_draw in H. destruct b_plot_mean.
  - apply bind_Err_inv in H as [H|(ax1 & _ & H)];
      by eapply tcs_plot_mean_Err.
  - apply for_each_Err in H as (id & ax1 & Hin & H).
    eapply tcs_plot_cell_Err; [|exact H].
    rewrite Forall_forall in Hall. by apply Hall.
Qed.

Lemma type_tcs_panel_Err (data : SpikeOutputs) (ls_colors : list PyColor)
    (alpha : float) (b_plot_mean : bool) (ls_RGC_labels : list string)
    (lw : float) (i : nat) (str_key : string) (axs : AxsVal) (e : exn) (k : Z) :
  type_tcs_panel data ls_colors alpha b_plot_mean ls_RGC_labels lw i str_key axs
    = Err e →
  e ≠ KeyError_id k.
Proof.
  unfold type_tcs_panel. intros H Hk. subst e.
  apply bind_Err_inv in H as [H|(ls_cells & _ & H)].
  { apply dict_get_Err in H. discriminate. }
  apply bind_Err_inv in H as [H|(lbl & _ & H)].
  { apply list_get_Err in H. discriminate. }
  apply bind_Err_inv in H as [H|(ax & _ & H)].
  { apply axs_item_Err in H as [?|?]; discriminate. }
  destruct ax as [ax|row]; [|discriminate].
  apply bind_Err_inv in H as [H|(ax1 & _ & H)]; [|discriminate].
  by apply (tcs_draw_Err _ _ _ _ _ _ _ _ k
              (cells_with_sta_present data ls_cells)) in H.
Qed.

Lemma plt_subplots_Err (n : nat) (w h : Z) (e : exn) :
  plt_subplots n w h = Err e → e = ValueError.
Proof. destruct n as [|[|n]]; simpl; [by intros [= <-] | discriminate..]. Qed.

Lemma type_rfs_axes_Err (data : SpikeOutputs) (ncols : nat)
    (axs : option AxsVal) (e : exn) :
  type_rfs_axes data ncols axs = Err e → e = ValueError.
Proof.
  unfold type_rfs_axes. destruct axs as [axs|]; [discriminate|].
  destruct (plt_subplots _ _ _) eqn:Hs; [discriminate|].
  intros [= <-]. by eapply plt_subplots_Err.
Qed.

Lemma type_tcs_axes_Err (data : SpikeOutputs) (keys : list string)
    (axs : option AxsVal) (e : exn) :
  type_tcs_axes data keys axs = Err e → e = ValueError.
Proof.
  unfold type_tcs_axes. destruct axs as [axs|]; [discriminate|].
  destruct (plt_subplots _ _ _) eqn:Hs; [discriminate|].
  intros [= <-]. by eapply plt_subplots_Err.
Qed.

(** X6. Because both grids drop the cells without an STA fit before
    drawing, neither ever raises the key-lookup fault of [d_sta], whatever
    the recording and the arguments: a cluster without fit is skipped, never
    an error. *)
Theorem grids_never_raise_sta_KeyError :
  (∀ data ls_RGC_keys ls_colors axs ls_facecolors alpha b_ticks_off
     ls_RGC_labels d_IDs b_zoom sd_mult rs k,
     fst (plot_type_rfs data ls_RGC_keys ls_colors axs ls_facecolors alpha
            b_ticks_off ls_RGC_labels d_IDs b_zoom sd_mult rs)
     ≠ Err (KeyError_id k)) ∧
  (∀ data ls_RGC_keys axs ls_colors alpha b_plot_mean ls_RGC_labels lw d_IDs k,
     plot_type_tcs data ls_RGC_keys axs ls_colors alpha b_plot_mean
       ls_RGC_labels lw d_IDs ≠ Err (KeyError_id k)).
Proof.
  split.
  - intros data ls_RGC_keys ls_colors axs ls_facecolors alpha b_ticks_off
      ls_RGC_labels d_IDs b_zoom sd_mult rs k H.
    destruct (plot_type_rfs _ _ _ _ _ _ _ _ _ _ _ rs) as [r rs'] eqn:Hrun.
    simpl in H. subst r. unfold plot_type_rfs in Hrun.
    apply py_bind_Err_inv in Hrun as [Hrun|(axs0 & rs1 & _ & Hrun)].
    { inversion Hrun as [[H1 H2]]. apply type_rfs_axes_Err in H1.
      discriminate. }
    apply py_bind_Err_inv in Hrun as [Hrun|(axs1 & rs2 & _ & Hrun)].
    { apply py_for_enumerate_Err in Hrun as (j & x & s' & r & r' & _ & Hb).
      by apply (type_rfs_panel_Err _ _ _ _ _ _ _ _ _ _ _ _ _ _ k) in Hb. }
    destruct b_ticks_off; [|discriminate].
    inversion Hrun as [[H1 H2]].
    destruct axs1; simpl in H1; discriminate.
  - intros data ls_RGC_keys axs ls_colors alpha b_plot_mean ls_RGC_labels lw
      d_IDs k H.
    unfold plot_type_tcs in H.
    apply bind_Err_inv in H as [H|(axs0 & _ & H)].
    { apply type_tcs_axes_Err in H. discriminate. }
    apply for_enumerate_Err in H as (j & x & s' & _ & Hb).
    by apply (type_tcs_panel_Err _ _ _ _ _ _ _ _ _ _ k) in Hb.
Qed.

(** ** The per-cell mode of [plot_type_tcs] *)

(** X7. In the per-cell mode of [plot_type_tcs] a panel gets, for each
    fitted cell in order, its red trace then its blue trace, two calls per
    cell; a group left empty by the filter draws nothing and raises nothing,
    even without trace colours, unlike the mean mode. *)
Theorem tcs_per_cell_mode :
  (∀ (F : gmap Z STAFit) (ls_colors : list PyColor) (alpha lw : float)
     (ls_cells : list Z) (fits : list STAFit) (ax : Axes),
     Forall2 (λ id fit, F !! id = Some fit) ls_cells fits →
     (2 ≤ length ls_colors)%nat →
     tcs_draw F ls_colors alpha false lw ls_cells ax
     = Ok (ax ++ concat (map (cell_traces ls_colors alpha lw) fits)) ∧
     length (concat (map (cell_traces ls_colors alpha lw) fits))
     = (2 * length ls_cells)%nat) ∧
  (∀ (F : gmap Z STAFit) (ls_colors : list PyColor) (alpha lw : float)
     (ax : Axes),
     tcs_draw F ls_colors alpha false lw [] ax = Ok ax) ∧
  (∀ (F : gmap Z STAFit) (ls_colors : list PyColor) (alpha lw : float)
     (n_ID : Z) (ls_cells : list Z) (ax : Axes),
     is_Some (F !! n_ID) → (length ls_colors < 2)%nat →
     tcs_draw F ls_colors alpha false lw (n_ID :: ls_cells) ax
     = Err IndexError).
Proof.
  split; [|split].
  - intros F ls_colors alpha lw ls_cells fits ax Hfits Hcols.
    split; [by apply tcs_draw_cells_ok|].
    induction Hfits as [|id fit ls_cells fits Hfit _ IH]; simpl; [reflexivity|].
    rewrite length_app, IH. unfold cell_traces.
    destruct (lookup_lt_is_Some_2 ls_colors 0) as [c0 ->]; [lia|].
    destruct (lookup_lt_is_Some_2 ls_colors 1) as [c1 ->]; [lia|].
    simpl. lia.
  - reflexivity.
  - intros F ls_colors alpha lw n_ID ls_cells ax [fit Hfit] Hcols.
    assert (Hget : sta_get F n_ID = Ok fit) by (unfold sta_get; by rewrite Hfit).
    unfold tcs_draw. simpl. unfold tcs_plot_cell.
    rewrite Hget, !bind_Ok. unfold list_get.
    destruct ls_colors as [|c0 [|c1 l]]; simpl in *; [reflexivity| |lia].
    reflexivity.
Qed.

(** Per-cell mode on the small recording: two fitted cells, four traces, and
    an empty group that is drawn as an empty panel titled n=0. *)
Example plot_type_tcs_per_cell_demo :
  plot_type_tcs demo (Some ["OnP"]) (Some (AxsOne [])) None 0.6 false None 1
    None
  = Ok (AxsArr
          [[AxHLine 0 "k" 1;
            Plot None (Vec [1; 2; 3]%float) None (PStr "C1") None
              (Some 0.6%float) (Some 1%float);
            Plot None (Vec [0; 1; 0]%float) None (PStr "C0") None
              (Some 0.6%float) (Some 1%float);
            Plot None (Vec [3; 2; 1]%float) None (PStr "C1") None
              (Some 0.6%float) (Some 1%float);
            Plot None (Vec [0; 3; 0]%float) None (PStr "C0") None
              (Some 0.6%float) (Some 1%float);
            SetTitle "OnP (n=2) timecourses"]]) ∧
  plot_type_tcs
    (mkSpikeOutputs 30 demo_sta [("Lone", [9])] [] "" "" demo_crf [] [] [])
    (Some ["Lone"]) (Some (AxsOne [])) (Some []) 0.6 false None 1 None
  = Ok (AxsArr [[AxHLine 0 "k" 1; SetTitle "Lone (n=0) timecourses"]]).
Proof. split; vm_compute; reflexivity. Qed.

(** ** The axes the grids accept and return *)

(** Same container (single axes, array, list) holding as many axes. *)
Definition same_shape (axs axs' : AxsVal) : Prop :=
  match axs, axs' with
  | AxsOne _, AxsOne _ => True
  | AxsArr l, AxsArr l' | AxsList l, AxsList l'
  | AxsNested l, AxsNested l' => length l = length l'
  | _, _ => False
  end.

(** The axes of a sequence of axes; none for a bare or nested value. *)
Definition axs_seq (axs : AxsVal) : option (list Axes) :=
  match axs with
  | AxsArr l | AxsList l => Some l
  | AxsOne _ | AxsNested _ => None
  end.

Lemma same_shape_refl (axs : AxsVal) : same_shape axs axs.
Proof. by destruct axs. Qed.

Lemma same_shape_trans (a b c : AxsVal) :
  same_shape a b → same_shape b c → same_shape a c.
Proof. destruct a, b, c; simpl; try tauto; congruence. Qed.

Lemma same_shape_update (axs : AxsVal) (i : nat) (a' : Axes) :
  same_shape axs (axs_update axs i a').
Proof. destruct axs; simpl; by rewrite ?length_insert. Qed.

Lemma axs_item_inl (axs : AxsVal) (i : nat) (a : Axes) :
  axs_item axs i = Ok (inl a) → ∃ l, axs_seq axs = Some l ∧ l !! i = Some a.
Proof.
  destruct axs as [a0|l|l|row]; simpl; try discriminate.
  - intros H. apply bind_Ok_inv in H as (x & Hx & [= ->]).
    exists l. split; [reflexivity | by apply list_get_Ok_inv].
  - intros H. apply bind_Ok_inv in H as (x & Hx & [= ->]).
    exists l. split; [reflexivity | by apply list_get_Ok_inv].
  - destruct i; discriminate.
Qed.

Lemma same_shape_seq (axs axs' : AxsVal) (l : list Axes) :
  same_shape axs axs' → axs_seq axs = Some l →
  ∃ l', axs_seq axs' = Some l' ∧ length l' = length l.
Proof.
  destruct axs, axs'; simpl; try tauto; try discriminate;
    intros Hlen [= <-]; eauto.
Qed.

(** A loop whose iteration [i] draws on [axs[i]] only returns the container
    it was given, has found an axes for each of its keys and has left the
    other axes as they were. *)
Lemma for_enumerate_frame (body : nat → string → AxsVal → result AxsVal) :
  (∀ i key axs axs', body i key axs = Ok axs' →
     ∃ a a', axs_item axs i = Ok (inl a) ∧ axs' = axs_update axs i a') →
  ∀ keys i0 axs axs',
    for_enumerate body i0 keys axs = Ok axs' →
    same_shape axs axs' ∧
    (∀ j, (j < i0 ∨ i0 + length keys ≤ j)%nat →
          axs_item axs' j = axs_item axs j) ∧
    (∀ j, (j < length keys)%nat → ∃ a, axs_item axs (i0 + j) = Ok (inl a)).
Proof.
  intros Hbody. induction keys as [|key keys IH]; intros i0 axs axs' Hrun;
    simpl in Hrun.
  - inversion Hrun; subst. split; [apply same_shape_refl|].
    split; [done|]. simpl. intros j Hj. lia.
  - apply bind_Ok_inv in Hrun as (axs1 & H1 & Hrest).
    destruct (Hbody _ _ _ _ H1) as (a & a' & Ha & ->).
    destruct (IH _ _ _ Hrest) as (Hshape & Hout & Hin). split; [|split].
    + eapply same_shape_trans; [apply same_shape_update | exact Hshape].
    + intros j Hj. simpl in Hj. rewrite Hout by lia.
      apply axs_item_update_ne. lia.
    + intros [|j] Hj; simpl in Hj.
      * rewrite Nat.add_0_r. eauto.
      * destruct (Hin j) as [b Hb]; [lia|].
        replace (i0 + S j)%nat with (S i0 + j)%nat by lia.
        rewrite axs_item_update_ne in Hb by lia. eauto.
Qed.

Lemma py_for_enumerate_frame (body : nat → string → AxsVal → Py AxsVal) :
  (∀ i key axs axs' rs rs', body i key axs rs = (Ok axs', rs') →
     ∃ a a', axs_item axs i = Ok (inl a) ∧ axs' = axs_update axs i a') →
  ∀ keys i0 axs axs' rs rs',
    py_for_enumerate body i0 keys axs rs = (Ok axs', rs') →
    same_shape axs axs' ∧
    (∀ j, (j < i0 ∨ i0 + length keys ≤ j)%nat →
          axs_item axs' j = axs_item axs j) ∧
    (∀ j, (j < length keys)%nat → ∃ a, axs_item axs (i0 + j) = Ok (inl a)).
Proof.
  intros Hbody.
  induction keys as [|key keys IH]; intros i0 axs axs' rs rs' Hrun;
    simpl in Hrun.
  - inversion Hrun; subst. split; [apply same_shape_refl|].
    split; [done|]. simpl. intros j Hj. lia.
  - apply py_bind_Ok_inv in Hrun as (axs1 & rs1 & H1 & Hrest).
    destruct (Hbody _ _ _ _ _ _ H1) as (a & a' & Ha & ->).
    destruct (IH _ _ _ _ _ Hrest) as (Hshape & Hout & Hin). split; [|split].
    + eapply same_shape_trans; [apply same_shape_update | exact Hshape].
    + intros j Hj. simpl in Hj. rewrite Hout by lia.
      apply axs_item_update_ne. lia.
    + intros [|j] Hj; simpl in Hj.
      * rewrite Nat.add_0_r. eauto.
      * destruct (Hin j) as [b Hb]; [lia|].
        replace (i0 + S j)%nat with (S i0 + j)%nat by lia.
        rewrite axs_item_update_ne in Hb by lia. eauto.
Qed.

Lemma type_tcs_panel_frame (data : SpikeOutputs) (ls_colors : list PyColor)
    (alpha : float) (b_plot_mean : bool) (ls_RGC_labels : list string)
    (lw : float) (i : nat) (key : string) (axs axs' : AxsVal) :
  type_tcs_panel data ls_colors alpha b_plot_mean ls_RGC_labels lw i key axs
    = Ok axs' →
  ∃ a a', axs_item axs i = Ok (inl a) ∧ axs' = axs_update axs i a'.
Proof.
  intros H. destruct (type_tcs_panel_inv _ _ _ _ _ _ _ _ _ _ H)
    as (a & a' & Ha & _ & Heq). eauto.
Qed.

Lemma type_rfs_panel_frame (data : SpikeOutputs) (d_IDs : dict (list Z))
    (ls_colors ls_facecolors : list PyColor) (ls_RGC_labels : list string)
    (alpha : float) (b_zoom : bool) (sd_mult : float)
    (i : nat) (key : string) (axs axs' : AxsVal) (rs rs' : RandomState) :
  type_rfs_panel data d_IDs ls_colors ls_facecolors ls_RGC_labels alpha b_zoom
    sd_mult i key axs rs = (Ok axs', rs') →
  ∃ a a', axs_item axs i = Ok (inl a) ∧ axs' = axs_update axs i a'.
Proof.
  intros H. destruct (type_rfs_panel_inv _ _ _ _ _ _ _ _ _ _ _ _ _ _ H)
    as (a & a' & Ha & _ & Heq). eauto.
Qed.

Lemma plot_type_tcs_frame (data : SpikeOutputs)
    (ls_RGC_keys : option (list string)) (axs : option AxsVal)
    (ls_colors : option (list PyColor)) (alpha : float) (b_plot_mean : bool)
    (ls_RGC_labels : option (list string)) (lw : float)
    (d_IDs : option (dict (list Z))) (axs' : AxsVal) :
  plot_type_tcs data ls_RGC_keys axs ls_colors alpha b_plot_mean ls_RGC_labels
    lw d_IDs = Ok axs' →
  let keys := default (dict_keys (default (d_main_IDs data) d_IDs))
                ls_RGC_keys in
  ∃ axs0,
    type_tcs_axes data keys axs = Ok axs0 ∧
    same_shape axs0 axs' ∧
    (∀ j, (length keys ≤ j)%nat → axs_item axs' j = axs_item axs0 j) ∧
    (∀ j, (j < length keys)%nat → ∃ a, axs_item axs0 j = Ok (inl a)).
Proof.
  intros H keys. unfold plot_type_tcs in H. fold keys in H.
  apply bind_Ok_inv in H as (axs0 & H0 & Hloop).
  destruct (for_enumerate_frame _
              (type_tcs_panel_frame data _ alpha b_plot_mean _ lw)
              _ _ _ _ Hloop) as (Hshape & Hout & Hin).
  exists axs0. split; [assumption|]. split; [assumption|]. split.
  - intros j Hj. apply Hout. lia.
  - intros j Hj. by apply (Hin j).
Qed.

Lemma plot_type_rfs_frame (data : SpikeOutputs)
    (ls_RGC_keys : option (list string)) (ls_colors : list PyColor)
    (axs : option AxsVal) (ls_facecolors : option (list PyColor))
    (alpha : float) (b_ticks_off : bool)
    (ls_RGC_labels : option (list string)) (d_IDs : option (dict (list Z)))
    (b_zoom : bool) (sd_mult : float) (rs rs' : RandomState) (axs' : AxsVal) :
  plot_type_rfs data ls_RGC_keys ls_colors axs ls_facecolors alpha b_ticks_off
    ls_RGC_labels d_IDs b_zoom sd_mult rs = (Ok axs', rs') →
  let keys := default (dict_keys (default (d_main_IDs data) d_IDs))
                ls_RGC_keys in
  ∃ axs0 axs1,
    type_rfs_axes data (length keys) axs = Ok axs0 ∧
    same_shape axs0 axs1 ∧
    (∀ j, (length keys ≤ j)%nat → axs_item axs1 j = axs_item axs0 j) ∧
    (∀ j, (j < length keys)%nat → ∃ a, axs_item axs0 j = Ok (inl a)) ∧
    (if b_ticks_off then axs_for_each ticks_off axs1 = Ok axs'
     else axs' = axs1).
Proof.
  intros H keys. unfold plot_type_rfs in H. fold keys in H.
  apply py_bind_Ok_inv in H as (axs0 & rs1 & H0 & H).
  apply py_lift_Ok_inv in H0 as [H0 ->].
  apply py_bind_Ok_inv in H as (axs1 & rs1 & Hloop & H).
  destruct (py_for_enumerate_frame _
              (type_rfs_panel_frame data _ ls_colors _ _ alpha b_zoom sd_mult)
              _ _ _ _ _ _ Hloop) as (Hshape & Hout & Hin).
  exists axs0, axs1. split; [assumption|]. split; [assumption|]. split.
  { intros j Hj. apply Hout. lia. }
  split.
  { intros j Hj. by apply (Hin j). }
  destruct b_ticks_off.
  - by apply py_lift_Ok_inv in H as [H _].
  - by inversion H.
Qed.

Lemma axs_for_each_shape (f : Axes → Axes) (axs axs' : AxsVal) :
  axs_for_each f axs = Ok axs' → same_shape axs axs'.
Proof.
  destruct axs; simpl; try discriminate; intros [= <-]; simpl;
    by rewrite List.length_map.
Qed.

Lemma type_tcs_axes_ndarray (data : SpikeOutputs) (keys : list string)
    (axs : option AxsVal) (axs0 : AxsVal) :
  type_tcs_axes data keys axs = Ok axs0 → is_ndarray axs0 = true.
Proof.
  unfold type_tcs_axes. intros H.
  apply bind_Ok_inv in H as (a & _ & [= <-]).
  destruct (is_ndarray a) eqn:Ha; [assumption|]. by destruct a.
Qed.

(** X8. What the grids require of [axs] and keep of it. A grid that
    returns hands back the same kind of container with the same number of
    axes, and that container held at least one axes per key.
    [plot_type_tcs] only ever indexes a numpy array, so with at least one key
    it fails when given a Python list of axes; [plot_type_rfs] with exactly
    one key wraps what it is given, so it fails when given an array or a
    list instead of a bare axes. *)
Theorem grids_axes_requirements :
  (∀ data ls_RGC_keys axs ls_colors alpha b_plot_mean ls_RGC_labels lw d_IDs
     axs',
     plot_type_tcs data ls_RGC_keys axs ls_colors alpha b_plot_mean
       ls_RGC_labels lw d_IDs = Ok axs' →
     let keys := default (dict_keys (default (d_main_IDs data) d_IDs))
                   ls_RGC_keys in
     ∃ axs0, type_tcs_axes data keys axs = Ok axs0 ∧ same_shape axs0 axs' ∧
             (keys ≠ [] → ∃ l, axs0 = AxsArr l ∧
                               (length keys ≤ length l)%nat)) ∧
  (∀ data ls_RGC_keys ls_colors axs ls_facecolors alpha b_ticks_off
     ls_RGC_labels d_IDs b_zoom sd_mult rs axs' rs',
     plot_type_rfs data ls_RGC_keys ls_colors axs ls_facecolors alpha
       b_ticks_off ls_RGC_labels d_IDs b_zoom sd_mult rs = (Ok axs', rs') →
     let keys := default (dict_keys (default (d_main_IDs data) d_IDs))
                   ls_RGC_keys in
     ∃ axs0, type_rfs_axes data (length keys) axs = Ok axs0 ∧
             same_shape axs0 axs' ∧
             (keys ≠ [] → ∃ l, axs_seq axs0 = Some l ∧
                               (length keys ≤ length l)%nat)) ∧
  (∀ data key ls_RGC_keys l ls_colors alpha b_plot_mean ls_RGC_labels lw d_IDs,
     is_Err (plot_type_tcs data (Some (key :: ls_RGC_keys)) (Some (AxsList l))
               ls_colors alpha b_plot_mean ls_RGC_labels lw d_IDs)) ∧
  (∀ data key ls_colors l ls_facecolors alpha b_ticks_off ls_RGC_labels d_IDs
     b_zoom sd_mult rs,
     is_Err (fst (plot_type_rfs data (Some [key]) ls_colors (Some (AxsArr l))
                    ls_facecolors alpha b_ticks_off ls_RGC_labels d_IDs b_zoom
                    sd_mult rs)) ∧
     is_Err (fst (plot_type_rfs data (Some [key]) ls_colors (Some (AxsList l))
                    ls_facecolors alpha b_ticks_off ls_RGC_labels d_IDs b_zoom
                    sd_mult rs))).
Proof.
  assert (Hseq : ∀ axs0 (keys : list string),
    keys ≠ [] →
    (∀ j, (j < length keys)%nat → ∃ a, axs_item axs0 j = Ok (inl a)) →
    ∃ l, axs_seq axs0 = Some l ∧ (length keys ≤ length l)%nat).
  { intros axs0 keys Hne Hin.
    destruct keys as [|k keys]; [contradiction|].
    destruct (Hin (length keys)) as [a Ha]; [simpl; lia|].
    apply axs_item_inl in Ha as (l & Hl & Hlk). exists l.
    split; [assumption|]. apply lookup_lt_Some in Hlk. simpl. lia. }
  split; [|split; [|split]].
  - intros data ls_RGC_keys axs ls_colors alpha b_plot_mean ls_RGC_labels lw
      d_IDs axs' H keys.
    destruct (plot_type_tcs_frame _ _ _ _ _ _ _ _ _ _ H)
      as (axs0 & H0 & Hshape & _ & Hin).
    exists axs0. split; [assumption|]. split; [assumption|]. intros Hne.
    destruct (Hseq axs0 _ Hne Hin) as (l & Hl & Hlen).
    apply type_tcs_axes_ndarray in H0.
    destruct axs0; simpl in *; try discriminate.
    inversion Hl; subst. eauto.
  - intros data ls_RGC_keys ls_colors axs ls_facecolors alpha b_ticks_off
      ls_RGC_labels d_IDs b_zoom sd_mult rs axs' rs' H keys.
    destruct (plot_type_rfs_frame _ _ _ _ _ _ _ _ _ _ _ _ _ _ H)
      as (axs0 & axs1 & H0 & Hshape & _ & Hin & Hticks).
    exists axs0. split; [assumption|]. split.
    + destruct b_ticks_off; [|by subst].
      eapply same_shape_trans; [exact Hshape|].
      by eapply axs_for_each_shape.
    + intros Hne. by apply Hseq.
  - intros data key ls_RGC_keys l ls_colors alpha b_plot_mean ls_RGC_labels lw
      d_IDs.
    destruct (plot_type_tcs _ _ _ _ _ _ _ _ _) as [axs'|e] eqn:H;
      [|by exists e].
    exfalso.
    destruct (plot_type_tcs_frame _ _ _ _ _ _ _ _ _ _ H)
      as (axs0 & H0 & _ & _ & Hin).
    simpl in H0. inversion H0; subst axs0.
    destruct (Hin 0%nat) as [a Ha]; [simpl; lia|]. discriminate.
  - intros data key ls_colors l ls_facecolors alpha b_ticks_off ls_RGC_labels
      d_IDs b_zoom sd_mult rs.
    split.
    + destruct (plot_type_rfs _ _ _ (Some (AxsArr l)) _ _ _ _ _ _ _ rs)
        as [[axs'|e] rs'] eqn:H; [|by exists e].
      exfalso.
      destruct (plot_type_rfs_frame _ _ _ _ _ _ _ _ _ _ _ _ _ _ H)
        as (axs0 & axs1 & H0 & _ & _ & Hin & _).
      simpl in H0. inversion H0; subst axs0.
      destruct (Hin 0%nat) as [a Ha]; [simpl; lia|]. discriminate.
    + destruct (plot_type_rfs _ _ _ (Some (AxsList l)) _ _ _ _ _ _ _ rs)
        as [[axs'|e] rs'] eqn:H; [|by exists e].
      exfalso.
      destruct (plot_type_rfs_frame _ _ _ _ _ _ _ _ _ _ _ _ _ _ H)
        as (axs0 & axs1 & H0 & _ & _ & Hin & _).
      simpl in H0. inversion H0; subst axs0.
      destruct (Hin 0%nat) as [a Ha]; [simpl; lia|]. discriminate.
Qed.

(** X9. The grids draw on [axs[i]] for the indices of the keys only: an
    axes beyond the last key is left exactly as it was by [plot_type_tcs],
    and by [plot_type_rfs] too except for the removal of its ticks and axis
    labels when [b_ticks_off] is set. *)
Theorem grids_leave_other_axes :
  (∀ data ls_RGC_keys axs ls_colors alpha b_plot_mean ls_RGC_labels lw d_IDs
     axs',
     plot_type_tcs data ls_RGC_keys axs ls_colors alpha b_plot_mean
       ls_RGC_labels lw d_IDs = Ok axs' →
     let keys := default (dict_keys (default (d_main_IDs data) d_IDs))
                   ls_RGC_keys in
     ∃ axs0, type_tcs_axes data keys axs = Ok axs0 ∧
       ∀ j, (length keys ≤ j)%nat → axs_item axs' j = axs_item axs0 j) ∧
  (∀ data ls_RGC_keys ls_colors axs ls_facecolors alpha b_ticks_off
     ls_RGC_labels d_IDs b_zoom sd_mult rs axs' rs',
     plot_type_rfs data ls_RGC_keys ls_colors axs ls_facecolors alpha
       b_ticks_off ls_RGC_labels d_IDs b_zoom sd_mult rs = (Ok axs', rs') →
     let keys := default (dict_keys (default (d_main_IDs data) d_IDs))
                   ls_RGC_keys in
     ∃ axs0, type_rfs_axes data (length keys) axs = Ok axs0 ∧
       ∀ j a, (length keys ≤ j)%nat → axs_item axs0 j = Ok (inl a) →
              axs_item axs' j
              = Ok (inl (if b_ticks_off then ticks_off a else a))).
Proof.
  split.
  - intros data ls_RGC_keys axs ls_colors alpha b_plot_mean ls_RGC_labels lw
      d_IDs axs' H keys.
    destruct (plot_type_tcs_frame _ _ _ _ _ _ _ _ _ _ H)
      as (axs0 & H0 & _ & Hout & _).
    exists axs0. by split.
  - intros data ls_RGC_keys ls_colors axs ls_facecolors alpha b_ticks_off
      ls_RGC_labels d_IDs b_zoom sd_mult rs axs' rs' H keys.
    destruct (plot_type_rfs_frame _ _ _ _ _ _ _ _ _ _ _ _ _ _ H)
      as (axs0 & axs1 & H0 & _ & Hout & _ & Hticks).
    exists axs0. split; [assumption|]. intros j a Hj Ha.
    rewrite <- (Hout j Hj) in Ha. destruct b_ticks_off.
    + by apply (axs_for_each_item _ _ _ _ _ Hticks).
    + by subst.
Qed.

(** One key and three axes: the second and third axes stay empty. *)
Example plot_type_tcs_spare_axes :
  ∃ a, plot_type_tcs demo (Some ["OffP"]) (Some (AxsArr [[]; []; []])) None
         0.6 false None 1 None = Ok (AxsArr [a; []; []]).
Proof. eexists. vm_compute. reflexivity. Qed.

(** ** [plot_isi_qc] *)

(** The calls one ISI panel receives before its title, [pct] being the
    refractory percentages of its clusters and [median] the value marked. *)
Definition isi_panel_calls (format_2f : float → string) (pct : list float)
    (median : float) (p_idx : nat) : list call :=
  [Hist pct (PStr ("C" +:+ pretty p_idx)) 0.5;
   SetYlabel "Number of clusters";
   TickParamsLabelLeft;
   SetXlabel "Percent of spikes within refractory period.";
   AxVLine median "k" "--";
   TextAxes 0.95 0.95 ("Median = " +:+ format_2f median +:+ "%")].

(** The percentages [pct_refractory[c_idx]] picked by fancy indexing: one
    per index, in the order of the indices. *)
Definition picked (pct : list float) (c_idx : list nat) (vs : list float)
  : Prop :=
  Forall2 (λ i x, pct !! i = Some x) c_idx vs.

(** The container [axs] with its axes replaced by [l]. *)
Definition axs_with (axs : AxsVal) (l : list Axes) : AxsVal :=
  match axs with
  | AxsArr _ => AxsArr l
  | AxsList _ => AxsList l
  | AxsOne _ | AxsNested _ => axs
  end.

Lemma list_comp_get_Err {A} (l : list A) (idx : list nat) (e : exn) :
  list_comp (list_get l) idx = Err e → e = IndexError.
Proof.
  intros H. apply list_comp_Err in H as (pre & x & post & _ & Hx & _).
  by eapply list_get_Err.
Qed.

Lemma isi_panel_ok (format_2f : float → string) (spikeout : SpikeOutputs)
    (p_idx : nat) (c_idx : list nat) (axs : AxsVal) (a : Axes)
    (pct : list float) :
  axs_item axs p_idx = Ok (inl a) →
  list_comp (list_get (pct_refractory spikeout)) c_idx = Ok pct →
  isi_panel format_2f spikeout p_idx c_idx axs
  = Ok (axs_update axs p_idx
          (a ++ isi_panel_calls format_2f pct (np_median pct) p_idx)).
Proof.
  intros Ha Hpct. unfold isi_panel.
  rewrite Ha, bind_Ok, Hpct, !bind_Ok. unfold isi_panel_calls.
  by rewrite <- app_assoc.
Qed.

Lemma isi_panel_IndexError (format_2f : float → string)
    (spikeout : SpikeOutputs) (p_idx : nat) (c_idx : list nat) (axs : AxsVal)
    (a : Axes) :
  axs_item axs p_idx = Ok (inl a) →
  is_Err (list_comp (list_get (pct_refractory spikeout)) c_idx) →
  isi_panel format_2f spikeout p_idx c_idx axs = Err IndexError.
Proof.
  intros Ha [e He]. unfold isi_panel. rewrite Ha, bind_Ok, He.
  apply list_comp_get_Err in He. by subst.
Qed.

Lemma list_comp_get_picked (pct : list float) (c_idx : list nat)
    (vs : list float) :
  list_comp (list_get pct) c_idx = Ok vs → picked pct c_idx vs.
Proof.
  unfold picked. revert vs. induction c_idx as [|i c_idx IH]; intros vs H.
  - simpl in H. inversion H. constructor.
  - simpl in H. apply bind_Ok_inv in H as (x & Hx & H).
    apply bind_Ok_inv in H as (vs' & Hvs & H). inversion H; subst.
    constructor; [by apply list_get_Ok_inv | by apply IH].
Qed.

Lemma list_comp_get_Ok_iff {A} (l : list A) (c_idx : list nat) :
  is_Ok (list_comp (list_get l) c_idx) ↔
  Forall (λ i, (i < length l)%nat) c_idx.
Proof.
  induction c_idx as [|i c_idx IH]; simpl.
  - split; [constructor | by eexists].
  - rewrite Forall_cons, <- IH. split.
    + intros [vs H]. apply bind_Ok_inv in H as (x & Hx & H).
      apply bind_Ok_inv in H as (vs' & Hvs & _).
      split; [|by eexists]. apply list_get_Ok_inv in Hx.
      by eapply lookup_lt_Some.
    + intros [Hi [vs Hvs]].
      destruct (list_get_lt l i Hi) as (x & _ & Hx).
      rewrite Hx, bind_Ok, Hvs, bind_Ok. by eexists.
Qed.

(** X10. Given two axes or more (or none, a two-panel figure being
    created), [plot_isi_qc] draws on the first one the histogram of the
    percentages at [bad_isi_idx] (one per index, in order), a vertical line
    and a text at their median, and the title with the number of these
    clusters, and likewise on the second one for [good_isi_idx]; further
    axes are untouched. The median is the middle value of the percentages in
    ascending order, or the mean of the two middle values when their number
    is even, and NaN for an empty index set, which is no fault, or when a
    percentage is NaN. An index outside [pct_refractory] in either set makes
    the call raise [IndexError]. *)
Theorem plot_isi_qc_outcome (format_2f : float → string)
    (spikeout : SpikeOutputs) (axs : option AxsVal) (a0 a1 : Axes)
    (rest : list Axes) :
  let axs_in := default (AxsArr (replicate 2 [Subplots 2 10 5 false true])) axs in
  let bad := list_comp (list_get (pct_refractory spikeout))
               (bad_isi_idx spikeout) in
  let good := list_comp (list_get (pct_refractory spikeout))
                (good_isi_idx spikeout) in
  axs_seq axs_in = Some (a0 :: a1 :: rest) →
  (∀ vb vg, bad = Ok vb → good = Ok vg →
     ∃ mb mg,
       picked (pct_refractory spikeout) (bad_isi_idx spikeout) vb ∧
       picked (pct_refractory spikeout) (good_isi_idx spikeout) vg ∧
       is_median vb mb ∧ is_median vg mg ∧
       plot_isi_qc format_2f spikeout axs
       = Ok (axs_with axs_in
               ((a0 ++ isi_panel_calls format_2f vb mb 0 ++
                   [SetTitle ("ISI violations n = " +:+
                              pretty (length (bad_isi_idx spikeout)))])
                :: (a1 ++ isi_panel_calls format_2f vg mg 1 ++
                      [SetTitle ("ISI OK n = " +:+
                                 pretty (length (good_isi_idx spikeout)))])
                :: rest))) ∧
  (is_Err bad ∨ is_Err good →
     plot_isi_qc format_2f spikeout axs = Err IndexError) ∧
  (is_Ok bad ↔ Forall (λ i, (i < length (pct_refractory spikeout))%nat)
                 (bad_isi_idx spikeout)) ∧
  (is_Ok good ↔ Forall (λ i, (i < length (pct_refractory spikeout))%nat)
                  (good_isi_idx spikeout)).
Proof.
  intros axs_in bad good Hseq. unfold plot_isi_qc. fold axs_in.
  assert (Hcase : axs_in = AxsArr (a0 :: a1 :: rest) ∨
                  axs_in = AxsList (a0 :: a1 :: rest)).
  { destruct axs_in; simpl in Hseq; try discriminate;
      inversion Hseq; subst; eauto. }
  split; [|split; [|split]].
  - intros vb vg Hb Hg. exists (np_median vb), (np_median vg).
    split; [by apply list_comp_get_picked|].
    split; [by apply list_comp_get_picked|].
    split; [apply np_median_is_median|].
    split; [apply np_median_is_median|].
    cbn [for_enumerate].
    destruct Hcase as [-> | ->].
    + rewrite (isi_panel_ok _ _ 0 _ _ a0 vb) by (reflexivity || exact Hb).
      rewrite bind_Ok. cbn [axs_update].
      rewrite (isi_panel_ok _ _ 1 _ _ a1 vg) by (reflexivity || exact Hg).
      rewrite !bind_Ok. simpl. by rewrite <- !app_assoc.
    + rewrite (isi_panel_ok _ _ 0 _ _ a0 vb) by (reflexivity || exact Hb).
      rewrite bind_Ok. cbn [axs_update].
      rewrite (isi_panel_ok _ _ 1 _ _ a1 vg) by (reflexivity || exact Hg).
      rewrite !bind_Ok. simpl. by rewrite <- !app_assoc.
  - intros Herr. cbn [for_enumerate].
    assert (H0 : axs_item axs_in 0 = Ok (inl a0))
      by (destruct Hcase as [-> | ->]; reflexivity).
    destruct bad as [vb|eb] eqn:Hb.
    + destruct Herr as [[e He]|Hgood]; [discriminate|].
      rewrite (isi_panel_ok _ _ 0 _ _ a0 vb H0 Hb), bind_Ok.
      rewrite (isi_panel_IndexError _ _ 1 _ _ a1); [reflexivity| |exact Hgood].
      destruct Hcase as [-> | ->]; reflexivity.
    + rewrite (isi_panel_IndexError _ _ 0 _ _ a0 H0); [reflexivity|].
      by exists eb.
  - apply list_comp_get_Ok_iff.
  - apply list_comp_get_Ok_iff.
Qed.

Lemma plot_isi_qc_outcome_witness :
  (∀ vb vg,
     list_comp (list_get (pct_refractory demo)) (bad_isi_idx demo) = Ok vb →
     list_comp (list_get (pct_refractory demo)) (good_isi_idx demo) = Ok vg →
     ∃ mb mg,
       picked (pct_refractory demo) (bad_isi_idx demo) vb ∧
       picked (pct_refractory demo) (good_isi_idx demo) vg ∧
       is_median vb mb ∧ is_median vg mg ∧
       plot_isi_qc (λ _, "?") demo (Some (AxsList [[]; []; []]))
       = Ok (axs_with (AxsList [[]; []; []])
               (([] ++ isi_panel_calls (λ _, "?") vb mb 0 ++
                   [SetTitle ("ISI violations n = " +:+
                              pretty (length (bad_isi_idx demo)))])
                :: ([] ++ isi_panel_calls (λ _, "?") vg mg 1 ++
                      [SetTitle ("ISI OK n = " +:+
                                 pretty (length (good_isi_idx demo)))])
                :: [[]]))) ∧
  (is_Err (list_comp (list_get (pct_refractory demo)) (bad_isi_idx demo)) ∨
   is_Err (list_comp (list_get (pct_refractory demo)) (good_isi_idx demo)) →
     plot_isi_qc (λ _, "?") demo (Some (AxsList [[]; []; []]))
     = Err IndexError) ∧
  (is_Ok (list_comp (list_get (pct_refractory demo)) (bad_isi_idx demo)) ↔
   Forall (λ i, (i < length (pct_refractory demo))%nat) (bad_isi_idx demo)) ∧
  (is_Ok (list_comp (list_get (pct_refractory demo)) (good_isi_idx demo)) ↔
   Forall (λ i, (i < length (pct_refractory demo))%nat) (good_isi_idx demo)).
Proof.
  apply (plot_isi_qc_outcome (λ _, "?") demo (Some (AxsList [[]; []; []]))
           [] [] [[]]).
  reflexivity.
Defined.

(** An index past the end of [pct_refractory], and an empty index set. *)
Example plot_isi_qc_edge_cases :
  plot_isi_qc (λ _, "?")
    (mkSpikeOutputs 30 demo_sta [] [] "" "" demo_crf [1; 2]%float [0; 2]%nat
       [1]%nat) None = Err IndexError ∧
  medians (plot_isi_qc (λ _, "?")
             (mkSpikeOutputs 30 demo_sta [] [] "" "" demo_crf [1; 2]%float []
                [1; 0]%nat) None) = [PrimFloat.nan; 1.5%float].
Proof. split; vm_compute; reflexivity. Qed.

(** Percentages that are not in order and whose mean is not their median:
    10, 0, 1 have median 1, and 50, 10 have median 30. *)
Example plot_isi_qc_unsorted :
  medians (plot_isi_qc (λ _, "?")
             (mkSpikeOutputs 30 demo_sta [] [] "" "" demo_crf
                [10; 0; 1; 50]%float [0; 1; 2]%nat [3; 0]%nat) None)
  = [1; 30]%float.
Proof. vm_compute. reflexivity. Qed.

(** ** Edge cases of [plot_crf] *)

Lemma map_seq_const {A} (f : nat → A) (x : A) :
  (∀ j, f j = x) → ∀ c s, map f (seq s c) = replicate c x.
Proof.
  intros Hf. induction c as [|c IH]; intros s; simpl; [reflexivity|].
  by rewrite Hf, IH.
Qed.

Lemma col_means_nil (c : nat) : col_means c [] = replicate c PrimFloat.nan.
Proof. unfold col_means. by apply map_seq_const. Qed.

Lemma col_stds_nil (c : nat) : col_stds c [] = replicate c PrimFloat.nan.
Proof. unfold col_stds. by apply map_seq_const. Qed.

Lemma zip_with_replicate_nan (f : float → float → float) (c : nat) :
  f PrimFloat.nan PrimFloat.nan = PrimFloat.nan →
  zip_with f (replicate c PrimFloat.nan) (replicate c PrimFloat.nan)
  = replicate c PrimFloat.nan.
Proof. intros Hf. induction c as [|c IH]; simpl; [reflexivity|]. by rewrite Hf, IH. Qed.

Lemma crf_type_absent (map_ids_to_idx : list Z → list Z → result (list nat))
    (spikeout : SpikeOutputs) (idx : nat) (str_type : string) (ax : Axes) :
  str_type ∉ dict_keys (d_main_IDs spikeout) →
  crf_type map_ids_to_idx spikeout idx str_type ax = Err (KeyError_str str_type).
Proof. intros Habs. unfold crf_type. by rewrite (dict_get_absent _ _ Habs). Qed.

(** X11. Edge cases of [plot_crf]. A type with no cluster (its IDs map to
    no row) raises nothing: the mean over zero rows is NaN at every contrast
    level, and so is the band. A requested type that is not a key of
    [d_main_IDs] raises the key-lookup fault for it once the types before it
    have been drawn, and a row index past the end of the amplitude matrix
    raises [IndexError]. *)
Theorem plot_crf_edge_cases :
  (∀ map_ids_to_idx spikeout idx str_type ax type_ids,
     dict_get (d_main_IDs spikeout) str_type = Ok type_ids →
     map_ids_to_idx type_ids (crf_cluster_id (d_crf spikeout)) = Ok [] →
     let nans := Vec (replicate (amp_4Hz_ncols (d_crf spikeout)) PrimFloat.nan) in
     crf_type map_ids_to_idx spikeout idx str_type ax
     = Ok (ax ++ [Plot (Some (crf_contrast (d_crf spikeout))) nans (Some "o")
                    (PStr ("C" +:+ pretty idx)) (Some str_type) None None;
                  FillBetween (XVals (crf_contrast (d_crf spikeout))) nans nans
                    (PStr ("C" +:+ pretty idx)) 0.2])) ∧
  (∀ map_ids_to_idx spikeout ax ls_types pre str_type post ax1,
     default (ls_RGC_labels spikeout) ls_types = pre ++ str_type :: post →
     str_type ∉ dict_keys (d_main_IDs spikeout) →
     for_enumerate (crf_type map_ids_to_idx spikeout) 0 pre
       (default (plt_subplots_1 5 5) ax) = Ok ax1 →
     plot_crf map_ids_to_idx spikeout ax ls_types
     = Err (KeyError_str str_type)) ∧
  (∀ map_ids_to_idx spikeout idx str_type ax type_ids type_idx,
     dict_get (d_main_IDs spikeout) str_type = Ok type_ids →
     map_ids_to_idx type_ids (crf_cluster_id (d_crf spikeout)) = Ok type_idx →
     Exists (λ i, (length (amp_4Hz (d_crf spikeout)) ≤ i)%nat) type_idx →
     crf_type map_ids_to_idx spikeout idx str_type ax = Err IndexError).
Proof.
  split; [|split].
  - intros map_ids_to_idx spikeout idx str_type ax type_ids Hids Hidx nans.
    unfold crf_type, take_rows. rewrite Hids, bind_Ok, Hidx, bind_Ok.
    cbn [list_comp]. rewrite !bind_Ok.
    rewrite (np_mean_axis0_columns _ [] (Forall_nil_2 _)), bind_Ok.
    rewrite (np_std_axis0_columns _ [] (Forall_nil_2 _)), bind_Ok.
    rewrite col_means_nil, col_stds_nil. cbn [nd_zip].
    rewrite !length_replicate, Nat.eqb_refl, !bind_Ok.
    rewrite !zip_with_replicate_nan by reflexivity.
    by rewrite <- app_assoc.
  - intros map_ids_to_idx spikeout ax ls_types pre str_type post ax1
      Hsplit Habs Hpre.
    unfold plot_crf. rewrite Hsplit, for_enumerate_app, Hpre, bind_Ok.
    cbn [for_enumerate]. by rewrite crf_type_absent.
  - intros map_ids_to_idx spikeout idx str_type ax type_ids type_idx
      Hids Hidx Hex.
    unfold crf_type, take_rows. rewrite Hids, bind_Ok, Hidx, bind_Ok.
    destruct (list_comp (list_get (amp_4Hz (d_crf spikeout))) type_idx)
      as [rows|e] eqn:Hrows.
    + exfalso. apply Exists_exists in Hex as (i & Hin & Hi).
      apply list_elem_of_lookup in Hin as [k Hk].
      destruct (list_comp_lookup _ _ _ _ _ Hrows Hk) as (r & Hr & _).
      apply list_get_Ok_inv, lookup_lt_Some in Hr. lia.
    + apply list_comp_get_Err in Hrows. by subst.
Qed.

(** A type without clusters next to the two-row type of the small recording. *)
Example plot_crf_empty_group_demo :
  ∃ rest,
    plot_crf map_ids_to_idx_spec
      (mkSpikeOutputs 30 demo_sta [("None", []); ("OnP", [7; 3])] [] "" ""
         demo_crf [] [] [])
      (Some []) (Some ["None"; "OnP"])
    = Ok (Plot (Some [0.25; 0.5; 1]%float)
            (Vec [PrimFloat.nan; PrimFloat.nan; PrimFloat.nan]) (Some "o")
            (PStr "C0") (Some "None") None None
          :: FillBetween (XVals [0.25; 0.5; 1]%float)
               (Vec [PrimFloat.nan; PrimFloat.nan; PrimFloat.nan])
               (Vec [PrimFloat.nan; PrimFloat.nan; PrimFloat.nan])
               (PStr "C0") 0.2
          :: Plot (Some [0.25; 0.5; 1]%float) (Vec [2; 2; 2]%float) (Some "o")
               (PStr "C1") (Some "OnP") None None
          :: rest) ∧
  plot_crf map_ids_to_idx_spec crf_demo None (Some ["OnP"; "OffM"])
  = Err (KeyError_str "OffM").
Proof. eexists. split; vm_compute; reflexivity. Qed.

(** ** [plot_type_rfs_and_tcs]: the two grids side by side *)

Lemma plot_type_tcs_panels (data : SpikeOutputs)
    (ls_RGC_keys : option (list string)) (axs : option AxsVal)
    (ls_colors : option (list PyColor)) (alpha : float) (b_plot_mean : bool)
    (ls_RGC_labels : option (list string)) (lw : float)
    (d_IDs : option (dict (list Z))) (axs' : AxsVal) :
  plot_type_tcs data ls_RGC_keys axs ls_colors alpha b_plot_mean ls_RGC_labels
    lw d_IDs = Ok axs' →
  let keys := default (dict_keys (default (d_main_IDs data) d_IDs))
                ls_RGC_keys in
  ∀ i str_key, keys !! i = Some str_key →
    ∃ a a',
      tcs_panel_drawn data (default [PStr "C1"; PStr "C0"] ls_colors) alpha
        b_plot_mean (default keys ls_RGC_labels) lw i str_key a a' ∧
      axs_item axs' i = Ok (inl a').
Proof.
  intros H keys i str_key Hi. unfold plot_type_tcs in H. fold keys in H.
  apply bind_Ok_inv in H as (axs0 & H0 & Hloop).
  destruct (for_enumerate_panels
              (tcs_panel_drawn data (default [PStr "C1"; PStr "C0"] ls_colors)
                 alpha b_plot_mean (default keys ls_RGC_labels) lw)
              _ (type_tcs_panel_inv data _ alpha b_plot_mean _ lw)
              _ _ _ _ Hloop) as [_ Hpanels].
  destruct (Hpanels i str_key Hi) as (a & a' & _ & HP & Ha'). eauto.
Qed.

Lemma plot_type_rfs_panels (data : SpikeOutputs)
    (ls_RGC_keys : option (list string)) (ls_colors : list PyColor)
    (axs : option AxsVal) (ls_facecolors : option (list PyColor))
    (alpha : float) (b_ticks_off : bool)
    (ls_RGC_labels : option (list string)) (d_IDs : option (dict (list Z)))
    (b_zoom : bool) (sd_mult : float) (rs rs' : RandomState) (axs' : AxsVal) :
  plot_type_rfs data ls_RGC_keys ls_colors axs ls_facecolors alpha b_ticks_off
    ls_RGC_labels d_IDs b_zoom sd_mult rs = (Ok axs', rs') →
  let d := default (d_main_IDs data) d_IDs in
  let keys := default (dict_keys d) ls_RGC_keys in
  ∀ i str_key, keys !! i = Some str_key →
    ∃ a a',
      rfs_panel_drawn data d ls_colors (default ls_colors ls_facecolors)
        (default keys ls_RGC_labels) alpha b_zoom sd_mult i str_key a a' ∧
      axs_item axs' i = Ok (inl (if b_ticks_off then ticks_off a' else a')).
Proof.
  intros H d keys i str_key Hi. unfold plot_type_rfs in H. fold d keys in H.
  apply py_bind_Ok_inv in H as (axs0 & rs1 & H0 & H).
  apply py_lift_Ok_inv in H0 as [H0 ->].
  apply py_bind_Ok_inv in H as (axs1 & rs1 & Hloop & H).
  destruct (py_for_enumerate_panels
              (rfs_panel_drawn data d ls_colors (default ls_colors ls_facecolors)
                 (default keys ls_RGC_labels) alpha b_zoom sd_mult)
              _ (type_rfs_panel_inv data d ls_colors _ _ alpha b_zoom sd_mult)
              _ _ _ _ _ _ Hloop) as [_ Hpanels].
  destruct (Hpanels i str_key Hi) as (a & a' & _ & HP & Ha').
  exists a, a'. split; [assumption|]. destruct b_ticks_off.
  - apply py_lift_Ok_inv in H as [H _].
    by apply (axs_for_each_item _ _ _ _ _ H).
  - by inversion H; subst.
Qed.

(** X12. When [plot_type_rfs_and_tcs] returns, its two grids have one panel
    per key; for each key both panels are titled with the key and report the
    same [n], the number of cells of the type in [d_main_IDs] that have an
    STA fit, and this number is at least one (the time-course grid, drawn
    in mean mode, fails on a type without fitted cell). *)
Theorem plot_type_rfs_and_tcs_consistent (sns_color_palette : list PyColor)
    (data : SpikeOutputs) (ls_RGC_keys : option (list string))
    (rs : RandomState) :
  is_Ok (fst (plot_type_rfs_and_tcs sns_color_palette data ls_RGC_keys rs)) →
  ∃ rf_axs tc_axs,
    fst (plot_type_rfs_and_tcs sns_color_palette data ls_RGC_keys rs)
      = Ok (rf_axs, tc_axs) ∧
    ∀ i str_key,
      default (dict_keys (d_main_IDs data)) ls_RGC_keys !! i = Some str_key →
      ∃ (ls_cells : list Z) (rf tc : Axes),
        dict_get (d_main_IDs data) str_key = Ok ls_cells ∧
        cells_with_sta data ls_cells ≠ [] ∧
        axs_item rf_axs i
        = Ok (inl (ticks_off
                     (rf ++ [SetTitle (str_key +:+ " (n=" +:+
                               pretty (length (cells_with_sta data ls_cells))
                               +:+ ") RFs")]))) ∧
        axs_item tc_axs i
        = Ok (inl (tc ++ [SetTitle (str_key +:+ " (n=" +:+
                            pretty (length (cells_with_sta data ls_cells))
                            +:+ ") timecourses")])).
Proof.
  intros [[rf_axs tc_axs] Hok]. exists rf_axs, tc_axs.
  split; [assumption|]. intros i str_key Hi.
  destruct (plot_type_rfs_and_tcs _ _ _ rs) as [r rs'] eqn:Hrun.
  simpl in Hok. subst r. unfold plot_type_rfs_and_tcs in Hrun.
  apply py_bind_Ok_inv in Hrun as (rf0 & rs1 & Hrf & Hrun).
  apply py_bind_Ok_inv in Hrun as (tc0 & rs2 & Htc & Hrun).
  apply py_lift_Ok_inv in Htc as [Htc ->].
  inversion Hrun; subst rf0 tc0.
  destruct (plot_type_rfs_panels _ _ _ _ _ _ _ _ _ _ _ _ _ _ Hrf i str_key Hi)
    as (a & a' & (cells & lbl & ec & fc & ax & ells & r1 & r2 &
                  Hget & Hlbl & _ & _ & _ & ->) & Hrf_i).
  destruct (plot_type_tcs_panels _ _ _ _ _ _ _ _ _ _ Htc i str_key Hi)
    as (b & b' & (cells' & lbl' & bx & Hget' & Hlbl' & Hdraw & ->) & Htc_i).
  simpl in Hget, Hlbl, Hlbl', Hi.
  rewrite Hget in Hget'. inversion Hget'; subst cells'.
  rewrite Hi in Hlbl, Hlbl'. inversion Hlbl; inversion Hlbl'; subst.
  exists cells, ax, bx. split; [assumption|]. split; [|by split].
  intros Hempty. rewrite Hempty, tcs_draw_mean_empty in Hdraw. discriminate.
Qed.

Lemma plot_type_rfs_and_tcs_consistent_witness :
  ∃ rf_axs tc_axs,
    fst (plot_type_rfs_and_tcs palette demo (Some ["OnP"; "OffP"])
           (rs_const 0.5)) = Ok (rf_axs, tc_axs) ∧
    ∀ i str_key,
      default (dict_keys (d_main_IDs demo)) (Some ["OnP"; "OffP"]) !! i
      = Some str_key →
      ∃ (ls_cells : list Z) (rf tc : Axes),
        dict_get (d_main_IDs demo) str_key = Ok ls_cells ∧
        cells_with_sta demo ls_cells ≠ [] ∧
        axs_item rf_axs i
        = Ok (inl (ticks_off
                     (rf ++ [SetTitle (str_key +:+ " (n=" +:+
                               pretty (length (cells_with_sta demo ls_cells))
                               +:+ ") RFs")]))) ∧
        axs_item tc_axs i
        = Ok (inl (tc ++ [SetTitle (str_key +:+ " (n=" +:+
                            pretty (length (cells_with_sta demo ls_cells))
                            +:+ ") timecourses")])).
Proof.
  apply (plot_type_rfs_and_tcs_consistent palette demo (Some ["OnP"; "OffP"])
           (rs_const 0.5)).
  eexists. vm_compute. reflexivity.
Defined.

(** The default keys on the small recording: OffP is its first key and is
    known, OffM is not, so the RF grid stops at the second panel. *)
Example plot_type_rfs_and_tcs_default_keys :
  fst (plot_type_rfs_and_tcs (replicate 5 (PStr "k")) demo
         (Some default_RGC_keys) (rs_const 0.5)) = Err (KeyError_str "OffM").
Proof. vm_compute. reflexivity. Qed.

(** ** [get_rf_ells] cell by cell *)

Lemma list_comp_app {A B} (f : A → result B) (xs ys : list A) :
  list_comp f (xs ++ ys)
  = (us ← list_comp f xs; vs ← list_comp f ys; Ok (us ++ vs)).
Proof.
  induction xs as [|x xs IH]; simpl.
  - destruct (list_comp f ys); reflexivity.
  - destruct (f x) as [y|e]; [|reflexivity]. rewrite !bind_Ok, IH.
    destruct (list_comp f xs) as [us|e]; [|reflexivity]. rewrite !bind_Ok.
    destruct (list_comp f ys); reflexivity.
Qed.

Lemma list_comp_ext {A B} (f g : A → result B) (xs : list A) :
  (∀ x, x ∈ xs → f x = g x) → list_comp f xs = list_comp g xs.
Proof.
  induction xs as [|x xs IH]; intros H; simpl; [reflexivity|].
  rewrite (H x) by (by left). rewrite IH; [reflexivity|].
  intros y Hy. apply H. by right.
Qed.

(** X13. [get_rf_ells] works cell by cell: the ellipses of a concatenated
    list are those of its parts, in order, the first missing cell deciding
    the fault; and the result only depends on the fits of the requested
    cells, so fits of other clusters may be added or changed freely. *)
Theorem get_rf_ells_cellwise :
  (∀ (L1 L2 : list Z) (F : gmap Z STAFit) (g m : float),
     get_rf_ells (L1 ++ L2) F g m
     = (ells1 ← get_rf_ells L1 F g m;
        ells2 ← get_rf_ells L2 F g m;
        Ok (ells1 ++ ells2))) ∧
  (∀ (L : list Z) (F1 F2 : gmap Z STAFit) (g m : float),
     (∀ id, id ∈ L → F1 !! id = F2 !! id) →
     get_rf_ells L F1 g m = get_rf_ells L F2 g m).
Proof.
  split.
  - intros. apply list_comp_app.
  - intros L F1 F2 g m H. unfold get_rf_ells. apply list_comp_ext.
    intros id Hid. unfold rf_ell, sta_get. by rewrite (H id Hid).
Qed.

(** ** When [plot_type_tcs] succeeds *)

(** A type [plot_type_tcs] can draw: it is a key of [d_main_IDs] and, for the
    mean mode, at least one of its cells has a fit and the waveforms of its
    fitted cells have one common length per channel. *)
Definition tcs_group_ok (data : SpikeOutputs) (b_plot_mean : bool)
    (str_key : string) : Prop :=
  ∃ ls_cells,
    dict_get (d_main_IDs data) str_key = Ok ls_cells ∧
    (b_plot_mean = true →
     cells_with_sta data ls_cells ≠ [] ∧
     ∃ Tr Tb : nat,
       ∀ id fit, id ∈ cells_with_sta data ls_cells →
                 d_sta data !! id = Some fit →
                 length (RedTimeCourse fit) = Tr ∧
                 length (BlueTimeCourse fit) = Tb).

Lemma tcs_draw_ok (data : SpikeOutputs) (ls_colors : list PyColor)
    (alpha : float) (b_plot_mean : bool) (lw : float) (ls_cells : list Z)
    (ax : Axes) :
  (2 ≤ length ls_colors)%nat →
  (b_plot_mean = true →
   cells_with_sta data ls_cells ≠ [] ∧
   ∃ Tr Tb : nat,
     ∀ id fit, id ∈ cells_with_sta data ls_cells →
               d_sta data !! id = Some fit →
               length (RedTimeCourse fit) = Tr ∧
               length (BlueTimeCourse fit) = Tb) →
  is_Ok (tcs_draw (d_sta data) ls_colors alpha b_plot_mean lw
           (cells_with_sta data ls_cells) ax).
Proof.
  intros Hcols Hmean.
  destruct (cells_with_sta_fits data ls_cells) as [fits Hfits].
  destruct b_plot_mean.
  - destruct (Hmean eq_refl) as (Hne & Tr & Tb & Hlen).
    destruct (lookup_lt_is_Some_2 ls_colors 0) as [c0 Hc0]; [lia|].
    destruct (lookup_lt_is_Some_2 ls_colors 1) as [c1 Hc1]; [lia|].
    assert (Hrect : Forall (λ fit, length (RedTimeCourse fit) = Tr ∧
                                   length (BlueTimeCourse fit) = Tb) fits).
    { apply Forall_lookup. intros i fit Hi.
      destruct (Forall2_lookup_r _ _ _ _ _ Hfits Hi) as (id & Hid & Hfit).
      apply (Hlen id fit); [|assumption].
      apply list_elem_of_lookup. eauto. }
    apply Forall_and in Hrect as [Hr Hb].
    rewrite (tcs_draw_mean_ok _ _ alpha lw _ _ ax _ _ _ _
               Hfits Hne Hr Hb Hc0 Hc1).
    by eexists.
  - rewrite (tcs_draw_cells_ok _ _ _ _ _ _ _ Hfits Hcols). by eexists.
Qed.

Lemma tcs_loop_ok (data : SpikeOutputs) (ls_colors : list PyColor)
    (alpha : float) (b_plot_mean : bool) (ls_RGC_labels : list string)
    (lw : float) :
  (2 ≤ length ls_colors)%nat →
  ∀ (keys : list string) (i0 : nat) (l : list Axes),
    Forall (tcs_group_ok data b_plot_mean) keys →
    (i0 + length keys ≤ length l)%nat →
    (i0 + length keys ≤ length ls_RGC_labels)%nat →
    ∃ l', for_enumerate
            (type_tcs_panel data ls_colors alpha b_plot_mean ls_RGC_labels lw)
            i0 keys (AxsArr l) = Ok (AxsArr l') ∧
          length l' = length l.
Proof.
  intros Hcols. induction keys as [|key keys IH]; intros i0 l Hkeys Hl Hlab;
    simpl in *.
  - by exists l.
  - apply Forall_cons in Hkeys as [(cells & Hget & Hmean) Hkeys].
    destruct (list_get_lt ls_RGC_labels i0) as (lbl & _ & Hlbl); [lia|].
    destruct (list_get_lt l i0) as (a & _ & Ha); [lia|].
    destruct (tcs_draw_ok data ls_colors alpha b_plot_mean lw cells
                (a ++ [AxHLine 0 "k" 1]) Hcols Hmean) as [ax Hdraw].
    assert (Hpanel :
      type_tcs_panel data ls_colors alpha b_plot_mean ls_RGC_labels lw i0 key
        (AxsArr l)
      = Ok (AxsArr (<[i0 := ax ++ [SetTitle (lbl +:+ " (n=" +:+
                       pretty (length (cells_with_sta data cells)) +:+
                       ") timecourses")]]> l))).
    { unfold type_tcs_panel. rewrite Hget, bind_Ok, Hlbl, bind_Ok.
      cbn [axs_item]. rewrite Ha, !bind_Ok. cbn beta iota.
      rewrite Hdraw, bind_Ok. reflexivity. }
    rewrite Hpanel, bind_Ok.
    destruct (IH (S i0) (<[i0 := ax ++ [SetTitle (lbl +:+ " (n=" +:+
                       pretty (length (cells_with_sta data cells)) +:+
                       ") timecourses")]]> l) Hkeys) as (l' & Hrun & Hlen).
    + rewrite length_insert. lia.
    + lia.
    + exists l'. split; [assumption|]. by rewrite Hlen, length_insert.
Qed.

(** X14. [plot_type_tcs] succeeds, and returns an array of as many axes as
    it was given, whenever it is given an array with at least one axes per
    key, every key is a type of [d_main_IDs], there are as many labels as
    keys and two trace colours, and, in mean mode only, every type has a
    fitted cell and waveforms of one common length per channel. *)
Theorem plot_type_tcs_succeeds (data : SpikeOutputs)
    (ls_RGC_keys : option (list string)) (l : list Axes)
    (ls_colors : option (list PyColor)) (alpha : float) (b_plot_mean : bool)
    (ls_RGC_labels : option (list string)) (lw : float)
    (d_IDs : option (dict (list Z))) :
  let keys := default (dict_keys (default (d_main_IDs data) d_IDs))
                ls_RGC_keys in
  Forall (tcs_group_ok data b_plot_mean) keys →
  (length keys ≤ length l)%nat →
  (length keys ≤ length (default keys ls_RGC_labels))%nat →
  (2 ≤ length (default [PStr "C1"; PStr "C0"] ls_colors))%nat →
  ∃ l', plot_type_tcs data ls_RGC_keys (Some (AxsArr l)) ls_colors alpha
          b_plot_mean ls_RGC_labels lw d_IDs = Ok (AxsArr l') ∧
        length l' = length l.
Proof.
  intros keys Hkeys Hl Hlab Hcols.
  destruct (tcs_loop_ok data _ alpha b_plot_mean (default keys ls_RGC_labels)
              lw Hcols keys 0%nat l Hkeys Hl Hlab) as (l' & Hrun & Hlen).
  exists l'. split; [|assumption].
  cbv beta iota zeta delta [plot_type_tcs type_tcs_axes]. fold keys.
  rewrite !bind_Ok. cbn [is_ndarray]. exact Hrun.
Qed.

Lemma plot_type_tcs_succeeds_witness :
  ∃ l', plot_type_tcs demo None (Some (AxsArr [[]; []; []])) None 0.6 true
          None 1 None = Ok (AxsArr l') ∧
        length l' = length [[]; []; ([] : Axes)].
Proof.
  apply (plot_type_tcs_succeeds demo None [[]; []; []] None 0.6 true None 1
           None).
  - repeat constructor.
    + exists [7; 9; 3]. split; [reflexivity|]. intros _.
      split; [by vm_compute|]. exists 3%nat, 3%nat. intros id fit Hin Hfit.
      assert (Hc : id = 7 ∨ id = 3).
      { vm_compute in Hin. apply elem_of_cons in Hin as [->|Hin]; [by left|].
        apply elem_of_cons in Hin as [->|Hin]; [by right|].
        by apply elem_of_nil in Hin. }
      destruct Hc as [-> | ->]; vm_compute in Hfit; inversion Hfit; by split.
    + exists [3]. split; [reflexivity|]. intros _.
      split; [by vm_compute|]. exists 3%nat, 3%nat. intros id fit Hin Hfit.
      vm_compute in Hin. apply elem_of_cons in Hin as [->|Hin];
        [|by apply elem_of_nil in Hin].
      vm_compute in Hfit. inversion Hfit. by split.
  - simpl. lia.
  - simpl. lia.
  - simpl. lia.
Defined.
